(** * panqec / bn3d: lattice indexing, Pauli noise models and bootstrap analysis

    A shallow embedding of the parts of the repository that its specification
    talks about:

    - [bn3d/models/toric/_toric_code_3d.py]   (qubit index of the 3D toric code)
    - [bn3d/models/rhombic/_rhombic_code.py]  (indexed rhombic code)
    - [bn3d/rhombic/_rhombic_code.py]         (direct rhombic code)
    - [panqec/error_models/_pauli_error_model.py]
    - [panqec/error_models/_deformed_xzzx_error_model.py]
    - [bn3d/statmech/analysis.py]

    Conventions.  Python integers are [Z]; the integers numpy produces are
    64-bit and wrap around.  Python floats are modelled by the real numbers
    they denote (exact arithmetic, no rounding); a NaN or missing value is
    [None].  Exceptions are the left summand of [result]. *)

From Stdlib Require Import ZArith List Reals Lra Lia.
From stdpp Require Import gmap strings list fin_maps.

Local Open Scope Z_scope.

(** ** Python building blocks *)

Module Py.

Inductive exn : Type :=
| ValueError
| NotImplementedError
| IndexError
| KeyError.

Definition result (A : Type) : Type := exn + A.

Definition ok {A} (a : A) : result A := inr a.
Definition raise {A} (e : exn) : result A := inl e.

Definition bind {A B} (r : result A) (k : A → result B) : result B :=
  match r with
  | inl e => inl e
  | inr a => k a
  end.

#[global] Instance exn_eq_dec : EqDecision exn.
Proof. solve_decision. Defined.

#[global] Instance result_ret : MRet result := @ok.
#[global] Instance result_bind : MBind result := λ A B k r, bind r k.

Definition is_ok {A} (r : result A) : Prop :=
  match r with inr _ => True | inl _ => False end.

(** [[f(x) for x in l]] where [f] may raise: the first exception wins. *)
Fixpoint mapM {A B} (f : A → result B) (l : list A) : result (list B) :=
  match l with
  | [] => ok []
  | x :: l => y ← f x; ys ← mapM f l; ok (y :: ys)
  end.

(** A [for] loop threading a state, stopped by the first exception. *)
Fixpoint foldM {A S} (f : S → A → result S) (s : S) (l : list A) : result S :=
  match l with
  | [] => ok s
  | x :: l => s' ← f s x; foldM f s' l
  end.

(** [l[i]] and [l[i] = x] on a list: out of range raises [IndexError]. *)
Definition getitem {A} (l : list A) (i : nat) : result A :=
  match l !! i with
  | Some x => ok x
  | None => raise IndexError
  end.

Definition setitem {A} (l : list A) (i : nat) (x : A) : result (list A) :=
  if decide (i < length l)%nat then ok (<[i := x]> l) else raise IndexError.

(** A dictionary display [{k1: v1, k2: v2, ...}]: items are stored left to
    right. *)
Definition dict_of_items `{Countable K} {V} (items : list (K * V)) : gmap K V :=
  foldl (λ m kv, <[kv.1 := kv.2]> m) ∅ items.

(** [range(start, stop, step)] for a positive step: CPython computes the
    length as [(stop - start + step - 1) // step] (zero when that is not
    positive) and the [i]-th item as [start + i * step]. *)
Definition range_len (start stop step : Z) : nat :=
  Z.to_nat ((stop - start + step - 1) `div` step).

Definition range3 (start stop step : Z) : list Z :=
  (λ i : nat, start + Z.of_nat i * step) <$> seq 0 (range_len start stop step).

(** [range(stop)] *)
Definition range (stop : Z) : list Z := range3 0 stop 1.

(** [enumerate(l)] *)
Definition enumerate {A} (l : list A) : list (nat * A) := imap pair l.

(** [{x: i for i, x in enumerate(l)}]: entries are stored left to right, a
    later entry for the same key replaces the earlier one. *)
Definition dict_of_enumerate `{Countable K} (l : list K) : gmap K nat :=
  foldl (λ m ix, <[ix.2 := ix.1]> m) ∅ (enumerate l).

(** [itertools.product(xs, ys, zs)] (the rightmost range runs fastest),
    which is also the order of three nested [for] loops. *)
Definition product3 (xs ys zs : list Z) : list (Z * Z * Z) :=
  x ← xs; y ← ys; z ← zs; [(x, y, z)].

(** A coordinate-to-index dictionary [m] is a bijection from the enumerated
    coordinates [coords] onto [0, count): its keys are exactly the enumerated
    coordinates, every index is below [count], every index below [count] is
    hit (no gaps) and no index is hit twice (no collisions). *)
Definition index_bijection `{Countable K}
    (coords : list K) (m : gmap K nat) (count : nat) : Prop :=
  (∀ c, c ∈ coords ↔ is_Some (m !! c))
  ∧ (∀ c i, m !! c = Some i → (i < count)%nat)
  ∧ (∀ i, (i < count)%nat → ∃ c, m !! c = Some i)
  ∧ (∀ c c' i, m !! c = Some i → m !! c' = Some i → c = c').

End Py.

(** ** numpy building blocks *)

Module Np.

(** numpy's default integer is the signed 64-bit one; its arithmetic is
    modular and raises nothing on overflow. *)
Definition int64 (z : Z) : Z := (z + 2 ^ 63) `mod` 2 ^ 64 - 2 ^ 63.

(** [np.product(t)] for a tuple of integers that each fit in 64 bits. *)
Definition product (t : list Z) : Z := foldl (λ acc x, int64 (acc * x)) 1 t.

(** [k * a] for a Python integer [k] and a numpy integer [a]. *)
Definition mul (k a : Z) : Z := int64 (k * a).

(** Comparisons of floats, decided on the reals they denote. *)
#[global] Instance Rle_decision (x y : R) : Decision (x <= y)%R := Rle_dec x y.
#[global] Instance Rlt_decision (x y : R) : Decision (x < y)%R := Rlt_dec x y.
#[global] Instance R_eq_dec : EqDecision R := Req_dec_T.

(** [np.isclose(a, b)] with its default tolerances [rtol=1e-05],
    [atol=1e-08]: [absolute(a - b) <= (atol + rtol * absolute(b))]. *)
Definition rtol : R := 1e-5.
Definition atol : R := 1e-8.
Definition isclose (a b : R) : bool :=
  bool_decide (Rabs (a - b) <= atol + rtol * Rabs b)%R.

(** [np.ones(n)] and [c * array]. *)
Definition ones (n : nat) : list R := replicate n 1%R.
Definition scale (c : R) (a : list R) : list R := (λ v, c * v)%R <$> a.

(** A float that may fail to be a number: [None] is NaN or an infinity, which
    is what a division by zero leaves and what every later operation of the
    analysis propagates. *)
Definition float : Type := option R.

Definition fadd (a b : float) : float := x ← a; y ← b; Some (x + y)%R.
Definition fsub (a b : float) : float := x ← a; y ← b; Some (x - y)%R.
Definition fmul (a b : float) : float := x ← a; y ← b; Some (x * y)%R.
Definition fdiv (a b : float) : float :=
  x ← a; y ← b; if decide (y = 0%R) then None else Some (x / y)%R.
Definition fabs (a : float) : float := Rabs <$> a.
Definition fsin (a : float) : float := sin <$> a.
Definition fsqrt (a : float) : float :=
  x ← a; if decide (0 <= x)%R then Some (sqrt x) else None.
Definition pi : float := Some PI.

(** [a.sum()], [a.mean()] and [a.std()] (numpy: [ddof=0],
    [sqrt(mean(abs(a - a.mean())**2))]); the mean of nothing is NaN. *)
Definition sum (a : list float) : float := foldl fadd (Some 0%R) a.
Definition mean (a : list float) : float := fdiv (sum a) (Some (INR (length a))).
Definition std (a : list float) : float :=
  let m := mean a in
  fsqrt (mean ((λ v, let d := fabs (fsub v m) in fmul d d) <$> a)).

End Np.

(** ** bn3d/models/toric/_toric_code_3d.py *)

Module ToricCode3D.

Record t := { size : Z * Z * Z }.

(** The axis labels live in the base class ([IndexedSparseCode]); the direct
    rhombic code spells them out as 0, 1, 2. *)
Definition X_AXIS : Z := 0.
Definition Y_AXIS : Z := 1.
Definition Z_AXIS : Z := 2.

Definition n_k_d (self : t) : Z * Z * Z :=
  let '(Lx, Ly, Lz) := size self in
  (Np.mul 3 (Np.product [Lx; Ly; Lz]), 3, Z.min Lx (Z.min Ly Lz)).

Definition axis (self : t) (location : Z * Z * Z) : Py.result Z :=
  let '(x, y, z) := location in
  if bool_decide (z `mod` 2 = 0 ∧ x `mod` 2 = 1 ∧ y `mod` 2 = 0) then Py.ok X_AXIS
  else if bool_decide (z `mod` 2 = 0 ∧ x `mod` 2 = 0 ∧ y `mod` 2 = 1) then Py.ok Y_AXIS
  else if bool_decide (z `mod` 2 = 1 ∧ x `mod` 2 = 0 ∧ y `mod` 2 = 0) then Py.ok Z_AXIS
  else Py.raise Py.ValueError.

(** The list [coordinates] that [_create_qubit_indices] fills. *)
Definition qubit_coordinates (self : t) : list (Z * Z * Z) :=
  let '(Lx, Ly, Lz) := size self in
  (* Qubits along e_x *)
  Py.product3 (Py.range3 1 (2 * Lx) 2) (Py.range3 0 (2 * Ly) 2) (Py.range3 0 (2 * Lz) 2)
  (* Qubits along e_y *)
  ++ Py.product3 (Py.range3 0 (2 * Lx) 2) (Py.range3 1 (2 * Ly) 2) (Py.range3 0 (2 * Lz) 2)
  (* Qubits along e_z *)
  ++ Py.product3 (Py.range3 0 (2 * Lx) 2) (Py.range3 0 (2 * Ly) 2) (Py.range3 1 (2 * Lz) 2).

Definition _create_qubit_indices (self : t) : gmap (Z * Z * Z) nat :=
  Py.dict_of_enumerate (qubit_coordinates self).

End ToricCode3D.

(** ** bn3d/models/rhombic/_rhombic_code.py (indexed implementation) *)

Module IndexedRhombicCode.

Record t := { size : Z * Z * Z }.

(** The list [coordinates] that [_create_face_indices] fills
    ("face = cube stabilizer"). *)
Definition face_coordinates (self : t) : list (Z * Z * Z) :=
  let '(Lx, Ly, Lz) := size self in
  filter (λ c : Z * Z * Z, (c.1.1 + c.1.2 + c.2) `mod` 4 = 1)
    (Py.product3 (Py.range3 1 (2 * Lx) 2) (Py.range3 1 (2 * Ly) 2) (Py.range3 1 (2 * Lz) 2)).

Definition _create_face_indices (self : t) : gmap (Z * Z * Z) nat :=
  Py.dict_of_enumerate (face_coordinates self).

(** The change of coordinates between the two implementations: the direct
    implementation addresses a cube by its unscaled position, the indexed one
    by the doubled, odd coordinates of its centre. *)
Definition doubled (c : Z * Z * Z) : Z * Z * Z :=
  (2 * c.1.1 + 1, 2 * c.1.2 + 1, 2 * c.2 + 1).

End IndexedRhombicCode.

(** ** bn3d/rhombic/_rhombic_code.py (direct implementation) *)

Module RhombicCode.

Record t := { _shape : Z * Z * Z * Z }.

Definition __init__ (L_x : Z) (L_y L_z : option Z) : t :=
  let L_y := match L_y with None => L_x | Some v => v end in
  let L_z := match L_z with None => L_x | Some v => v end in
  {| _shape := (3, L_x, L_y, L_z) |}.

Definition shape (self : t) : Z * Z * Z * Z := _shape self.

(** [self._shape[1:]] *)
Definition size (self : t) : Z * Z * Z :=
  let '(_, L_x, L_y, L_z) := _shape self in (L_x, L_y, L_z).

Definition n_k_d (self : t) : Z * Z * Z :=
  let '(q, L_x, L_y, L_z) := shape self in
  let '(s_x, s_y, s_z) := size self in
  (Np.product [q; L_x; L_y; L_z], 3, Z.min s_x (Z.min s_y s_z)).

(** The positions at which [get_cube_X_stabilizers] emits an operator. *)
Definition cube_X_positions (self : t) : list (Z * Z * Z) :=
  let '(L_x, L_y, L_z) := size self in
  filter (λ c : Z * Z * Z, (c.1.1 + c.1.2 + c.2) `mod` 2 = 1)
    (Py.product3 (Py.range L_x) (Py.range L_y) (Py.range L_z)).

(** [cube] stands for [RhombicPauli(self).cube('X', position).to_bsf()]. *)
Definition get_cube_X_stabilizers {bsf} (cube : t → Z * Z * Z → bsf) (self : t)
  : list bsf :=
  cube self <$> cube_X_positions self.

End RhombicCode.

(** ** The stabilizer-code interface read by the error models *)

Module StabilizerCode.

(** Modelled from the spec: the [StabilizerCode] classes of panqec are not in
    src/; a code is the attributes the error models read from it: its class
    name [id], the qubit count [n], the list of qubit coordinates, the axis
    classification (which raises [ValueError] on a location that is no
    qubit) and the three axis labels. *)
Record t (loc : Type) := {
  id : string;
  n : nat;
  qubit_coordinates : list loc;
  axis : loc → Py.result Z;
  X_AXIS : Z;
  Y_AXIS : Z;
  Z_AXIS : Z
}.
Arguments id {loc}.
Arguments n {loc}.
Arguments qubit_coordinates {loc}.
Arguments axis {loc}.
Arguments X_AXIS {loc}.
Arguments Y_AXIS {loc}.
Arguments Z_AXIS {loc}.

(** The invariant of the interface: there is one coordinate per qubit, and
    every qubit coordinate has an axis. *)
Definition wf {loc} (code : t loc) : Prop :=
  length (qubit_coordinates code) = n code
  ∧ Forall (λ location, Py.is_ok (axis code location)) (qubit_coordinates code).

End StabilizerCode.

(** ** A minimal code object *)

Module SampleCode.

(** Example data for the error models: an object with the interface above
    that carries a registered identity, three qubits, one on each axis (the
    coordinates of the x, y and z edge of a 1 x 1 x 1 lattice, in this
    order) and the axis classification of [ToricCode3D].  It is not the
    class of src/, which has no [id] of its own there. *)
Definition toric3d : StabilizerCode.t (Z * Z * Z) := {|
  StabilizerCode.id := "Toric3DCode";
  StabilizerCode.n := 3;
  StabilizerCode.qubit_coordinates := [(1, 0, 0); (0, 1, 0); (0, 0, 1)];
  StabilizerCode.axis := ToricCode3D.axis {| ToricCode3D.size := (1, 1, 1) |};
  StabilizerCode.X_AXIS := 0;
  StabilizerCode.Y_AXIS := 1;
  StabilizerCode.Z_AXIS := 2
|}.

End SampleCode.

(** ** Binary symplectic rows *)

Module bsparse.

(** Modelled from the spec: panqec.bsparse is not in src/.  A row is a binary
    vector; [zero_row(m)] is the all-zero row of length [m] and [+=] is the
    bitwise (mod 2) addition. *)
Definition row : Type := list bool.
Definition zero_row (m : nat) : row := replicate m false.
Definition add (a b : row) : row := zip_with xorb a b.

End bsparse.

(** ** panqec/error_models/_pauli_error_model.py *)

Module PauliErrorModel.

Local Open Scope R_scope.

Record t := { _direction : R * R * R }.

(** The four arrays [(p_i, p_x, p_y, p_z)]. *)
Definition distribution : Type := list R * list R * list R * list R.

Definition __init__ (r_x r_y r_z : R) : Py.result t :=
  if negb (Np.isclose (r_x + r_y + r_z) 1) then Py.raise Py.ValueError
  else Py.ok {| _direction := (r_x, r_y, r_z) |}.

Definition direction (self : t) : R * R * R := _direction self.

(** [@functools.lru_cache()] only memoizes the method, which reads nothing but
    its arguments. *)
Definition probability_distribution {loc} (self : t)
    (code : StabilizerCode.t loc) (probability : R) : distribution :=
  let n := StabilizerCode.n code in
  let '(r_x, r_y, r_z) := direction self in
  let p_i := Np.scale (1 - probability) (Np.ones n) in
  let p_x := Np.scale (r_x * probability) (Np.ones n) in
  let p_y := Np.scale (r_y * probability) (Np.ones n) in
  let p_z := Np.scale (r_z * probability) (Np.ones n) in
  (p_i, p_x, p_y, p_z).

Section Generate.

(** The random generator is numpy's: [RNG] is its state and [rng_choice g p]
    is [g.choice(items, p=p)] for [len(p)] items, giving the position of the
    item drawn and the next state (or the exception numpy raises on a [p]
    that is no distribution). *)
Context {RNG : Type}.
Variable rng_choice : RNG → list R → Py.result (nat * RNG).

Context {loc : Type}.

(** One turn of the loop [for i in range(code.n)]; the positions [i] and
    [code.n + i] written in the rows of length [2 * code.n] are in range. *)
Definition generate_step (n : nat) (dist : distribution)
    (state : bsparse.row * RNG) (i : nat) : Py.result (bsparse.row * RNG) :=
  let '(p_i, p_x, p_y, p_z) := dist in
  let '(error, rng) := state in
  let pauli_i := bsparse.zero_row (2 * n) in
  let pauli_x := <[i := true]> (bsparse.zero_row (2 * n)) in
  let pauli_z := <[(n + i)%nat := true]> (bsparse.zero_row (2 * n)) in
  let pauli_y := <[(n + i)%nat := true]> (<[i := true]> (bsparse.zero_row (2 * n))) in
  a ← Py.getitem p_i i;
  b ← Py.getitem p_x i;
  c ← Py.getitem p_y i;
  d ← Py.getitem p_z i;
  '(k, rng') ← rng_choice rng [a; b; c; d];
  pauli ← Py.getitem [pauli_i; pauli_x; pauli_y; pauli_z] k;
  Py.ok (bsparse.add error pauli, rng').

(** [generate], for the method [probability_distribution] of the object it
    is called on.  [rng] is the optional argument; [fresh] is the generator
    [np.random.default_rng()] would seed from system entropy.  The result is
    the error and the state the generator is left in. *)
Definition generate_with
    (probability_distribution : StabilizerCode.t loc → R → Py.result distribution)
    (code : StabilizerCode.t loc) (probability : R)
    (rng : option RNG) (fresh : RNG) : Py.result (bsparse.row * RNG) :=
  let rng := match rng with None => fresh | Some rng => rng end in
  dist ← probability_distribution code probability;
  let n := StabilizerCode.n code in
  let error := bsparse.zero_row (2 * n) in
  Py.foldM (generate_step n dist) (error, rng) (seq 0 n).

Definition generate (self : t) :=
  generate_with (λ code probability, Py.ok (probability_distribution self code probability)).

End Generate.

End PauliErrorModel.

(** ** panqec/error_models/_deformed_xzzx_error_model.py *)

Module DeformedXZZXErrorModel.

Local Open Scope R_scope.

(** The subclass adds no attribute and its [__init__] only calls the one of
    [PauliErrorModel]. *)
Definition t : Type := PauliErrorModel.t.

Definition __init__ (r_x r_y r_z : R) : Py.result t :=
  PauliErrorModel.__init__ r_x r_y r_z.

(** The dictionary [deformed_axis] built inside [_get_deformation_indices]. *)
Definition deformed_axis {loc} (code : StabilizerCode.t loc) : gmap string Z :=
  Py.dict_of_items
    [ ("Toric3DCode", StabilizerCode.Z_AXIS code);
      ("Planar3DCode", StabilizerCode.Z_AXIS code);
      ("XCubeCode", StabilizerCode.Z_AXIS code);
      ("RotatedToric3DCode", StabilizerCode.X_AXIS code);
      ("RotatedPlanar3DCode", StabilizerCode.Z_AXIS code);
      ("RhombicCode", StabilizerCode.Z_AXIS code);
      ("Toric2DCode", StabilizerCode.X_AXIS code);
      ("Planar2DCode", StabilizerCode.X_AXIS code);
      ("RotatedPlanar2DCode", StabilizerCode.X_AXIS code) ].

(** The code identities with a registered deformed axis: the keys of
    [deformed_axis]. *)
Definition registered_ids : list string :=
  [ "Toric3DCode"; "Planar3DCode"; "XCubeCode"; "RotatedToric3DCode";
    "RotatedPlanar3DCode"; "RhombicCode"; "Toric2DCode"; "Planar2DCode";
    "RotatedPlanar2DCode" ].

(** One turn of the loop [for index, location in enumerate(...)], where
    [the_axis] is [deformed_axis[code.id]]. *)
Definition deformation_turn {loc} (code : StabilizerCode.t loc) (the_axis : Z)
    (is_deformed : list bool) (item : nat * loc) : Py.result (list bool) :=
  let '(index, location) := item in
  a ← StabilizerCode.axis code location;
  if decide (a = the_axis) then Py.setitem is_deformed index true
  else Py.ok is_deformed.

Definition _get_deformation_indices {loc} (code : StabilizerCode.t loc)
  : Py.result (list bool) :=
  let is_deformed := replicate (StabilizerCode.n code) false in
  match deformed_axis code !! StabilizerCode.id code with
  | None => Py.raise Py.NotImplementedError
  | Some the_axis =>
      Py.foldM (deformation_turn code the_axis) is_deformed
        (Py.enumerate (StabilizerCode.qubit_coordinates code))
  end.

Definition probability_distribution {loc} (self : t)
    (code : StabilizerCode.t loc) (probability : R)
  : Py.result PauliErrorModel.distribution :=
  let n := StabilizerCode.n code in
  let '(r_x, r_y, r_z) := PauliErrorModel.direction self in
  is_deformed ← _get_deformation_indices code;
  let p_i := (λ _ : nat, 1 - probability) <$> seq 0 n in
  xs ← Py.mapM (λ i, d ← Py.getitem is_deformed i; Py.ok (if d : bool then r_z else r_x))
               (seq 0 n);
  let p_x := Np.scale probability xs in
  let p_y := Np.scale probability ((λ _ : nat, r_y) <$> seq 0 n) in
  zs ← Py.mapM (λ i, d ← Py.getitem is_deformed i; Py.ok (if d : bool then r_x else r_z))
               (seq 0 n);
  let p_z := Np.scale probability zs in
  Py.ok (p_i, p_x, p_y, p_z).

(** Qubit [i] is flagged as deformed: its coordinate is classified on the
    deformed axis of the code. *)
Definition deformed_qubit {loc} (code : StabilizerCode.t loc) (the_axis : Z) (i : nat)
  : Prop :=
  ∃ location, StabilizerCode.qubit_coordinates code !! i = Some location
              ∧ StabilizerCode.axis code location = Py.ok the_axis.

(** [generate] is inherited and calls the overriding
    [probability_distribution]. *)
Definition generate {RNG loc} (rng_choice : RNG → list R → Py.result (nat * RNG))
    (self : t) :=
  PauliErrorModel.generate_with (loc := loc) rng_choice (probability_distribution self).

End DeformedXZZXErrorModel.

(** ** bn3d/statmech/analysis.py *)

Module SimpleAnalysis.

Local Open Scope R_scope.

(** pandas: a cell of a numeric column holds a number or is missing (NaN),
    and [count()], [mean()] and [std()] skip the missing cells.  [count()]
    is the number of cells that hold a number, [mean()] is the mean of these
    numbers (NaN when there is none) and [std()] is their sample standard
    deviation ([ddof=1]), which is NaN for fewer than two numbers. *)
Definition dropna (column : list Np.float) : list R :=
  omap (λ cell : option R, cell) column.
Definition pd_count (column : list Np.float) : nat := length (dropna column).
Definition pd_mean (column : list Np.float) : Np.float :=
  Np.mean (Some <$> dropna column).
Definition pd_std (column : list Np.float) : Np.float :=
  let values := dropna column in
  if decide (length values ≤ 1)%nat then None
  else
    m ← Np.mean (Some <$> values);
    Some (sqrt (foldl Rplus 0 ((λ v, (v - m) * (v - m)) <$> values)
                / (INR (length values) - 1))).

(** The mean of a list of numbers and their standard deviation (the root of
    the mean squared deviation from the mean), over the reals. *)
Definition spec_mean (values : list R) : R :=
  foldr Rplus 0 values / INR (length values).
Definition spec_std (values : list R) : R :=
  sqrt (spec_mean ((λ v, (v - spec_mean values) * (v - spec_mean values)) <$> values)).

(** The correlation length in the words of the specification, over the
    reals: [k_min = 2 pi / max(Lx, Ly)] and
    [CorrelationLength = 1/(2 sin(k_min/2)) * sqrt(|S0/Skmin - 1|)]. *)
Definition spec_k_min (Lx Ly : R) : R := 2 * PI / Rmax Lx Ly.
Definition spec_CorrelationLength (k_min S0 Skmin : R) : R :=
  1 / (2 * sin (k_min / 2)) * sqrt (Rabs (S0 / Skmin - 1)).

(** The formula is a number when none of its three divisors vanishes. *)
Definition spec_defined (Lx Ly Skmin : R) : Prop :=
  Rmax Lx Ly ≠ 0 ∧ sin (spec_k_min Lx Ly / 2) ≠ 0 ∧ Skmin ≠ 0.

Definition spec_correlation_length (Lx Ly : R) (S0 Skmin : Np.float) : Np.float :=
  s0 ← S0; sk ← Skmin;
  if decide (spec_defined Lx Ly sk)
  then Some (spec_CorrelationLength (spec_k_min Lx Ly) s0 sk) else None.

Section Tables.

(** [params] is the tuple of swept input columns of a row (the
    [independent_variables] other than [tau]); [L_x] and [L_y] are two of its
    columns. *)
Context {params : Type} `{EqDecision params}.
Variables L_x L_y : params → R.

(** numpy's generator: [default_rng seed] is [np.random.default_rng(seed)] and
    [rng_choice g a k] is [g.choice(a, size=k)], with the state it leaves. *)
Context {RNG : Type}.
Variable default_rng : Z → RNG.
Variable rng_choice : RNG → list string → nat → Py.result (list string * RNG).

(** pandas lists the groups of a [groupby] in the sorted order of their keys. *)
Variable sort_keys : list (params * R) → list (params * R).

(** A row of [inputs_df] and a row of [results_df]: an observable column
    holds [total/count], and a cell of it may be missing (NaN). *)
Record input_row := { in_hash : string; in_params : params }.
Record result_row := {
  res_hash : string;
  res_seed : Z;
  res_tau : R;
  res_observable : string → Np.float
}.

(** The three columns [estimates] has for an observable. *)
Record observable_estimate := {
  _estimate : Np.float;
  _uncertainty : Np.float;
  _n_disorders : nat
}.

(** A row of [estimates]; the two correlation-length columns exist once
    [estimate_correlation_length] has run. *)
Record estimates_row := {
  row_params : params;
  row_tau : R;
  row_observables : gmap string observable_estimate;
  CorrelationLength_estimate : option Np.float;
  CorrelationLength_uncertainty : option Np.float
}.

Record t := {
  observable_names : list string;
  results_df : list result_row;
  inputs_df : list input_row;
  estimates : list estimates_row
}.

(** [inputs_df.merge(results_df)]: the inner join on the shared column
    [hash], in the order of the left table. *)
Definition merge (inputs : list input_row) (results : list result_row)
  : list (input_row * result_row) :=
  i ← inputs; r ← filter (λ r, res_hash r = in_hash i) results; [(i, r)].

(** The [groupby(independent_variables)] key of a joined row, and the column
    [label] of the group of a key. *)
Definition group_key (j : input_row * result_row) : params * R :=
  (in_params j.1, res_tau j.2).

Definition group_column (df : list (input_row * result_row)) (label : string)
    (key : params * R) : list Np.float :=
  (λ j, res_observable j.2 label) <$> filter (λ j, group_key j = key) df.

Definition estimate_observables (self : t) : t :=
  let df := merge (inputs_df self) (results_df self) in
  let keys := sort_keys (remove_dups (group_key <$> df)) in
  let estimates :=
    (λ key : params * R,
       {| row_params := key.1;
          row_tau := key.2;
          row_observables :=
            Py.dict_of_items
              ((λ label,
                  (label,
                   {| _estimate := pd_mean (group_column df label key);
                      _uncertainty := pd_std (group_column df label key);
                      _n_disorders := pd_count (group_column df label key) |}))
               <$> observable_names self);
          CorrelationLength_estimate := None;
          CorrelationLength_uncertainty := None |}) <$> keys in
  {| observable_names := observable_names self;
     results_df := results_df self;
     inputs_df := inputs_df self;
     estimates := estimates |}.

(** [estimates[name + '_estimate']] at one row: the column must exist. *)
Definition estimate_column (row : estimates_row) (name : string) : Py.result Np.float :=
  match row_observables row !! name with
  | Some e => Py.ok (_estimate e)
  | None => Py.raise Py.KeyError
  end.

(** [frame.loc[labels]] on a frame indexed by hash: the rows of each label in
    turn, [KeyError] for a label that indexes no row. *)
Definition loc (frame : list result_row) (labels : list string)
  : Py.result (list result_row) :=
  rows ← Py.mapM
    (λ label,
       match filter (λ r, res_hash r = label) frame with
       | [] => Py.raise Py.KeyError
       | rows => Py.ok rows
       end) labels;
  Py.ok (concat rows).

(** A loop that threads the generator and collects one value per turn; the
    arrays [resampled_correlation_lengths] and [uncertainty] are filled slot
    by slot, in order, by such loops. *)
Fixpoint collect {A B} (turn : RNG → A → Py.result (B * RNG)) (rng : RNG) (l : list A)
  : Py.result (list B * RNG) :=
  match l with
  | [] => Py.ok ([], rng)
  | x :: l =>
      '(y, rng) ← turn rng x;
      '(ys, rng) ← collect turn rng l;
      Py.ok (y :: ys, rng)
  end.

(** [k_min] of a row. *)
Definition k_min_of (row : estimates_row) : Np.float :=
  Np.fdiv (Np.fmul (Some 2) Np.pi)
          (Some (Rmax (L_x (row_params row)) (L_y (row_params row)))).

(** The hashes of the disorder configurations matching the row parameters,
    and the raw results filtered by matching disorders and tau. *)
Definition hashes_of (self : t) (row : estimates_row) : list string :=
  in_hash <$> filter (λ i, in_params i = row_params row) (inputs_df self).

Definition filtered_results_of (self : t) (row : estimates_row) : list result_row :=
  filter (λ r, res_hash r ∈ hashes_of self row ∧ res_tau r = row_tau row)
         (results_df self).

(** One turn of [for i_resamp in range(n_resamp)]. *)
Definition resample_turn (k_min : Np.float) (hashes : list string)
    (filtered_results : list result_row) (bs_rng : RNG) (i_resamp : nat)
  : Py.result (Np.float * RNG) :=
  '(resampled_hashes, bs_rng) ← rng_choice bs_rng hashes (length hashes);
  rows0 ← loc filtered_results resampled_hashes;
  let susceptibility0_disorder_mean :=
    pd_mean ((λ r, res_observable r "Susceptibility0") <$> rows0) in
  rowsk ← loc filtered_results resampled_hashes;
  let susceptibilitykmin_disorder_mean :=
    pd_mean ((λ r, res_observable r "Susceptibilitykmin") <$> rowsk) in
  Py.ok
    (Np.fmul
       (Np.fdiv (Some 1) (Np.fmul (Some 2) (Np.fsin (Np.fdiv k_min (Some 2)))))
       (Np.fsqrt (Np.fabs (Np.fsub
          (Np.fdiv susceptibility0_disorder_mean susceptibilitykmin_disorder_mean)
          (Some 1)))),
     bs_rng).

(** One turn of [for i_row, row in self.estimates.iterrows()]: the value
    stored in [uncertainty[i_row]]. *)
Definition row_turn (self : t) (n_resamp : nat) (k_min : list Np.float)
    (bs_rng : RNG) (item : nat * estimates_row) : Py.result (Np.float * RNG) :=
  let '(i_row, row) := item in
  let hashes := hashes_of self row in
  let filtered_results := filtered_results_of self row in
  k ← Py.getitem k_min i_row;
  '(resampled_correlation_lengths, bs_rng) ←
    collect (resample_turn k hashes filtered_results) bs_rng (seq 0 n_resamp);
  Py.ok (Np.std resampled_correlation_lengths, bs_rng).

(** The column [CorrelationLength_estimate] at one row. *)
Definition point_estimate (row : estimates_row) : Py.result Np.float :=
  s0 ← estimate_column row "Susceptibility0";
  sk ← estimate_column row "Susceptibilitykmin";
  Py.ok
    (Np.fmul
       (Np.fdiv (Some 1) (Np.fmul (Some 2) (Np.fsin (Np.fdiv (k_min_of row) (Some 2)))))
       (Np.fsqrt (Np.fabs (Np.fsub (Np.fdiv s0 sk) (Some 1))))).

Definition set_correlation_length (row : estimates_row) (columns : Np.float * Np.float)
  : estimates_row :=
  {| row_params := row_params row;
     row_tau := row_tau row;
     row_observables := row_observables row;
     CorrelationLength_estimate := Some columns.1;
     CorrelationLength_uncertainty := Some columns.2 |}.

(** [estimate_correlation_length(n_resamp)]: [estimates] is the table of the
    object itself, so the object comes back with the two columns set. *)
Definition estimate_correlation_length (self : t) (n_resamp : nat) : Py.result t :=
  (* Generator for bootstrapping. *)
  let bs_rng := default_rng 0 in
  let estimates := estimates self in
  let k_min := k_min_of <$> estimates in
  point ← Py.mapM point_estimate estimates;
  '(uncertainty, _) ←
    collect (row_turn self n_resamp k_min) bs_rng (Py.enumerate estimates);
  Py.ok {| observable_names := observable_names self;
           results_df := results_df self;
           inputs_df := inputs_df self;
           estimates := zip_with set_correlation_length estimates (zip point uncertainty) |}.

End Tables.

End SimpleAnalysis.

(** ** A minimal data set *)

Module Sample.

Import SimpleAnalysis.
Local Open Scope R_scope.

(** The swept columns are the lattice sizes [(L_x, L_y)]. *)
Definition params : Type := (Z * Z)%type.
Definition L_x (p : params) : R := IZR p.1.
Definition L_y (p : params) : R := IZR p.2.

(** A stand-in for numpy's generator: the state counts the calls and a call
    returns [size] copies of one item of the population.  On a population of
    one item this is what every generator returns. *)
Definition RNG : Type := nat.
Definition default_rng (seed : Z) : RNG := Z.to_nat seed.
Definition rng_choice (g : RNG) (a : list string) (size : nat)
  : Py.result (list string * RNG) :=
  match a with
  | [] => if decide (size = 0%nat) then Py.ok ([], S g) else Py.raise Py.ValueError
  | x :: _ => Py.ok (replicate size (nth (g `mod` length a) a x), S g)
  end.

(** One disorder realization ["a"] of a 4 x 4 lattice, with one result at
    [tau = 1]: [Susceptibility0 = 2] and [Susceptibilitykmin = 1]. *)
Definition inputs : list (input_row (params := params)) :=
  [ {| in_hash := "a"; in_params := (4, 4)%Z |} ].

Definition results : list result_row :=
  [ {| res_hash := "a"; res_seed := 0; res_tau := 1;
       res_observable :=
         λ name, if decide (name = "Susceptibility0") then Some 2 else Some 1 |} ].

Definition raw : t (params := params) :=
  {| observable_names := ["Susceptibility0"; "Susceptibilitykmin"];
     results_df := results;
     inputs_df := inputs;
     estimates := [] |}.

(** The only row [estimate_observables()] produces for it. *)
Definition row : estimates_row (params := params) :=
  {| row_params := (4, 4)%Z;
     row_tau := 1;
     row_observables :=
       Py.dict_of_items
         [ ("Susceptibility0",
            {| _estimate := pd_mean [Some 2]; _uncertainty := pd_std [Some 2];
               _n_disorders := 1 |});
           ("Susceptibilitykmin",
            {| _estimate := pd_mean [Some 1]; _uncertainty := pd_std [Some 1];
               _n_disorders := 1 |}) ];
     CorrelationLength_estimate := None;
     CorrelationLength_uncertainty := None |}.

(** The object after [estimate_observables()]; there is one group, so its
    position among the sorted keys is no question. *)
Definition sort_keys (keys : list (params * R)) : list (params * R) := keys.
Definition analysed : t (params := params) := estimate_observables sort_keys raw.

(** The same results with a second disorder realization ["b"] of the same
    lattice that has no result: the group of the 4 x 4 lattice at [tau = 1]
    still has one disorder realization. *)
Definition inputs_two : list (input_row (params := params)) :=
  [ {| in_hash := "b"; in_params := (4, 4)%Z |};
    {| in_hash := "a"; in_params := (4, 4)%Z |} ].

Definition raw_two : t (params := params) :=
  {| observable_names := ["Susceptibility0"; "Susceptibilitykmin"];
     results_df := results;
     inputs_df := inputs_two;
     estimates := [] |}.

Definition analysed_two : t (params := params) := estimate_observables sort_keys raw_two.

End Sample.

(** ** The rest of the lattice codes *)

(** [pauli_class] ([Toric3DPauli], [RhombicPauli]) is not in src/.  Where the
    codes build an operator with it, the operator is given here by the sites
    at which [site(operator, location)] is called on it, in the order of the
    calls; a list of operators is the list [logicals]. *)

Module LogicalOperator.

Definition t (loc : Type) : Type := list (string * loc).

(** The locations an operator acts on. *)
Definition sites {loc} (operator : t loc) : list loc := snd <$> operator.

(** The number of locations two operators share. *)
Definition overlap {loc} `{EqDecision loc} (a b : t loc) : nat :=
  length (filter (λ location, location ∈ sites b) (sites a)).

End LogicalOperator.

(** *** bn3d/models/toric/_toric_code_3d.py, continued *)

Module ToricLattice.

(** The lists [coordinates] of [_create_vertex_indices] and
    [_create_face_indices]. *)
Definition vertex_coordinates (self : ToricCode3D.t) : list (Z * Z * Z) :=
  let '(Lx, Ly, Lz) := ToricCode3D.size self in
  Py.product3 (Py.range3 0 (2 * Lx) 2) (Py.range3 0 (2 * Ly) 2) (Py.range3 0 (2 * Lz) 2).

Definition _create_vertex_indices (self : ToricCode3D.t) : gmap (Z * Z * Z) nat :=
  Py.dict_of_enumerate (vertex_coordinates self).

Definition face_coordinates (self : ToricCode3D.t) : list (Z * Z * Z) :=
  let '(Lx, Ly, Lz) := ToricCode3D.size self in
  (* Face in xy plane *)
  Py.product3 (Py.range3 1 (2 * Lx) 2) (Py.range3 1 (2 * Ly) 2) (Py.range3 0 (2 * Lz) 2)
  (* Face in yz plane *)
  ++ Py.product3 (Py.range3 0 (2 * Lx) 2) (Py.range3 1 (2 * Ly) 2) (Py.range3 1 (2 * Lz) 2)
  (* Face in xz plane *)
  ++ Py.product3 (Py.range3 1 (2 * Lx) 2) (Py.range3 0 (2 * Ly) 2) (Py.range3 1 (2 * Lz) 2).

Definition _create_face_indices (self : ToricCode3D.t) : gmap (Z * Z * Z) nat :=
  Py.dict_of_enumerate (face_coordinates self).

(** The 3 logical X operators. *)
Definition logical_xs (self : ToricCode3D.t) : list (LogicalOperator.t (Z * Z * Z)) :=
  let '(Lx, Ly, Lz) := ToricCode3D.size self in
  [ (* X operators along x edges in x direction. *)
    (λ x, ("X", (x, 0, 0))) <$> Py.range3 1 (2 * Lx) 2;
    (* X operators along y edges in y direction. *)
    (λ y, ("X", (0, y, 0))) <$> Py.range3 1 (2 * Ly) 2;
    (* X operators along z edges in z direction *)
    (λ z, ("X", (0, 0, z))) <$> Py.range3 1 (2 * Lz) 2 ].

(** The 3 logical Z operators. *)
Definition logical_zs (self : ToricCode3D.t) : list (LogicalOperator.t (Z * Z * Z)) :=
  let '(Lx, Ly, Lz) := ToricCode3D.size self in
  [ (* Z operators on x edges forming surface normal to x (yz plane). *)
    (y ← Py.range3 0 (2 * Ly) 2; z ← Py.range3 0 (2 * Lz) 2; [("Z", (1, y, z))]);
    (* Z operators on y edges forming surface normal to y (zx plane). *)
    (z ← Py.range3 0 (2 * Lz) 2; x ← Py.range3 0 (2 * Lx) 2; [("Z", (x, 1, z))]);
    (* Z operators on z edges forming surface normal to z (xy plane). *)
    (x ← Py.range3 0 (2 * Lx) 2; y ← Py.range3 0 (2 * Ly) 2; [("Z", (x, y, 1))]) ].

End ToricLattice.

(** *** bn3d/models/rhombic/_rhombic_code.py, continued *)

Module IndexedRhombicLattice.

Definition axis (self : IndexedRhombicCode.t) (location : Z * Z * Z) : Py.result Z :=
  let '(x, y, z) := location in
  if bool_decide (z `mod` 2 = 0 ∧ x `mod` 2 = 1 ∧ y `mod` 2 = 0)
  then Py.ok ToricCode3D.X_AXIS
  else if bool_decide (z `mod` 2 = 0 ∧ x `mod` 2 = 0 ∧ y `mod` 2 = 1)
  then Py.ok ToricCode3D.Y_AXIS
  else if bool_decide (z `mod` 2 = 1 ∧ x `mod` 2 = 0 ∧ y `mod` 2 = 0)
  then Py.ok ToricCode3D.Z_AXIS
  else Py.raise Py.ValueError.

Definition qubit_coordinates (self : IndexedRhombicCode.t) : list (Z * Z * Z) :=
  let '(Lx, Ly, Lz) := IndexedRhombicCode.size self in
  (* Qubits along e_x *)
  Py.product3 (Py.range3 1 (2 * Lx) 2) (Py.range3 0 (2 * Ly) 2) (Py.range3 0 (2 * Lz) 2)
  (* Qubits along e_y *)
  ++ Py.product3 (Py.range3 0 (2 * Lx) 2) (Py.range3 1 (2 * Ly) 2) (Py.range3 0 (2 * Lz) 2)
  (* Qubits along e_z *)
  ++ Py.product3 (Py.range3 0 (2 * Lx) 2) (Py.range3 0 (2 * Ly) 2) (Py.range3 1 (2 * Lz) 2).

Definition _create_qubit_indices (self : IndexedRhombicCode.t) : gmap (Z * Z * Z) nat :=
  Py.dict_of_enumerate (qubit_coordinates self).

(** "Vertex = triangle stabilizer": coordinates [(axis, x, y, z)]. *)
Definition vertex_coordinates (self : IndexedRhombicCode.t) : list (Z * Z * Z * Z) :=
  let '(Lx, Ly, Lz) := IndexedRhombicCode.size self in
  x ← Py.range3 0 (2 * Lx) 2; y ← Py.range3 0 (2 * Ly) 2; z ← Py.range3 0 (2 * Lz) 2;
  axis ← Py.range 4; [(axis, x, y, z)].

Definition _create_vertex_indices (self : IndexedRhombicCode.t)
  : gmap (Z * Z * Z * Z) nat :=
  Py.dict_of_enumerate (vertex_coordinates self).

(** The change of coordinates between the two implementations for a
    triangle: the direct implementation addresses it by its axis and the
    unscaled position of its vertex, the indexed one by the axis and the
    doubled, even coordinates of the vertex. *)
Definition doubled_vertex (v : Z * Z * Z * Z) : Z * Z * Z * Z :=
  let '(axis, a, b, c) := v in (axis, 2 * a, 2 * b, 2 * c).

(** The 3 logical X operators. *)
Definition logical_xs (self : IndexedRhombicCode.t)
  : list (LogicalOperator.t (Z * Z * Z)) :=
  let '(Lx, Ly, Lz) := IndexedRhombicCode.size self in
  [ (* Sheet of X operators normal to the z direction *)
    (x ← Py.range (2 * Lx); y ← Py.range (2 * Ly);
     if decide ((x + y) `mod` 2 = 1) then [("X", (x, y, 0))] else []);
    (* Sheet of X operators normal to the y direction *)
    (x ← Py.range (2 * Lx); z ← Py.range (2 * Lz);
     if decide ((x + z) `mod` 2 = 1) then [("X", (x, 0, z))] else []);
    (* Sheet of X operators normal to the x direction *)
    (y ← Py.range (2 * Ly); z ← Py.range (2 * Lz);
     if decide ((y + z) `mod` 2 = 1) then [("X", (0, y, z))] else []) ].

(** The 3 logical Z operators. *)
Definition logical_zs (self : IndexedRhombicCode.t)
  : list (LogicalOperator.t (Z * Z * Z)) :=
  let '(Lx, Ly, Lz) := IndexedRhombicCode.size self in
  [ (* Line of parallel Z operators along the x direction *)
    (λ x, ("Z", (x, 1, 0))) <$> Py.range3 0 (2 * Lx) 2;
    (* Line of parallel Z operators along the y direction *)
    (λ y, ("Z", (1, y, 0))) <$> Py.range3 0 (2 * Ly) 2;
    (* Line of parallel Z operators along the z direction *)
    (λ z, ("Z", (0, 1, z))) <$> Py.range3 0 (2 * Lz) 2 ].

End IndexedRhombicLattice.

(** *** bn3d/rhombic/_rhombic_code.py, continued *)

Module RhombicOperators.

Definition X_AXIS : Z := 0.
Definition Y_AXIS : Z := 1.
Definition Z_AXIS : Z := 2.

(** The 3 logical X operators. *)
Definition logical_xs (self : RhombicCode.t) : list (LogicalOperator.t (Z * Z * Z * Z)) :=
  let '(L_x, L_y, L_z) := RhombicCode.size self in
  [ (* Sheet of X operators normal to the z direction *)
    (x ← Py.range L_x; y ← Py.range L_y;
     [("X", (X_AXIS, x, y, 0)); ("X", (Y_AXIS, x, y, 0))]);
    (* Sheet of X operators normal to the y direction *)
    (x ← Py.range L_x; z ← Py.range L_z;
     [("X", (X_AXIS, x, 0, z)); ("X", (Z_AXIS, x, 0, z))]);
    (* Sheet of X operators normal to the x direction *)
    (y ← Py.range L_y; z ← Py.range L_z;
     [("X", (Y_AXIS, 0, y, z)); ("X", (Z_AXIS, 0, y, z))]) ].

(** The 3 logical Z operators. *)
Definition logical_zs (self : RhombicCode.t) : list (LogicalOperator.t (Z * Z * Z * Z)) :=
  let '(L_x, L_y, L_z) := RhombicCode.size self in
  [ (* Line of parallel Z operators along the x direction *)
    (λ x, ("Z", (Y_AXIS, x, 0, 0))) <$> Py.range L_x;
    (* Line of parallel Z operators along the y direction *)
    (λ y, ("Z", (Z_AXIS, 0, y, 0))) <$> Py.range L_y;
    (* Line of parallel Z operators along the z direction *)
    (λ z, ("Z", (X_AXIS, 0, 0, z))) <$> Py.range L_z ].

(** The [(axis, position)] at which [get_triangle_Z_stabilizers] emits an
    operator: [itertools.product] of [range(4)] and the three ranges of the
    size. *)
Definition triangle_Z_positions (self : RhombicCode.t) : list (Z * Z * Z * Z) :=
  let '(s_x, s_y, s_z) := RhombicCode.size self in
  axis ← Py.range 4; L_x ← Py.range s_x; L_y ← Py.range s_y; L_z ← Py.range s_z;
  [(axis, L_x, L_y, L_z)].

(** [triangle] stands for
    [RhombicPauli(self).triangle('Z', axis, position).to_bsf()]. *)
Definition get_triangle_Z_stabilizers {bsf} (triangle : RhombicCode.t → Z * Z * Z * Z → bsf)
    (self : RhombicCode.t) : list bsf :=
  triangle self <$> triangle_Z_positions self.

End RhombicOperators.

(** ** A stand-in generator for the error models *)

Module SampleNoise.

Local Open Scope R_scope.

(** A stand-in for numpy's generator: the state counts the draws, and a draw
    returns the first item of positive probability; with no such item it
    raises the [ValueError] numpy raises on probabilities that do not sum
    to 1. *)
Definition RNG : Type := nat.
Definition rng_choice (g : RNG) (p : list R) : Py.result (nat * RNG) :=
  match list_find (λ q, 0 < q) p with
  | Some (k, _) => Py.ok (k, S g)
  | None => Py.raise Py.ValueError
  end.

End SampleNoise.

(* ===================================================================== *)
(** * Properties *)
(* ===================================================================== *)

(** ** Ranges, products and enumerated dictionaries *)

Section PyFacts.

Lemma length_range3 a b s : length (Py.range3 a b s) = Py.range_len a b s.
Proof. unfold Py.range3. by rewrite length_fmap, length_seq. Qed.

Lemma lookup_range3 a b s (i : nat) v :
  Py.range3 a b s !! i = Some v ↔ v = a + Z.of_nat i * s ∧ (i < Py.range_len a b s)%nat.
Proof.
  unfold Py.range3. rewrite list_lookup_fmap, fmap_Some. split.
  - intros (j & [-> ?]%lookup_seq & ->). done.
  - intros [-> ?]. exists i. split; [|done]. by apply lookup_seq.
Qed.

Lemma elem_of_range3 a b s v :
  v ∈ Py.range3 a b s ↔ ∃ i : nat, v = a + Z.of_nat i * s ∧ (i < Py.range_len a b s)%nat.
Proof.
  rewrite list_elem_of_lookup. by setoid_rewrite lookup_range3.
Qed.

Lemma NoDup_range3 a b s : s ≠ 0 → NoDup (Py.range3 a b s).
Proof.
  intros Hs. unfold Py.range3. apply NoDup_fmap_2_strong; [|apply NoDup_seq].
  intros i j _ _ Heq. nia.
Qed.

Lemma range_len_odd L : Py.range_len 1 (2 * L) 2 = Z.to_nat L.
Proof. unfold Py.range_len. f_equal. replace (2 * L - 1 + 2 - 1) with (L * 2) by lia.
  by rewrite Z.div_mul. Qed.

Lemma range_len_even L : Py.range_len 0 (2 * L) 2 = Z.to_nat L.
Proof. unfold Py.range_len. f_equal. replace (2 * L - 0 + 2 - 1) with (1 + L * 2) by lia.
  by rewrite Z.div_add. Qed.

Lemma range_len_unit L : Py.range_len 0 L 1 = Z.to_nat L.
Proof. unfold Py.range_len. f_equal. rewrite Z.div_1_r. lia. Qed.

Lemma elem_of_range_odd L v :
  v ∈ Py.range3 1 (2 * L) 2 ↔ v `mod` 2 = 1 ∧ 0 < v < 2 * L.
Proof.
  rewrite elem_of_range3, range_len_odd. split.
  - intros (i & -> & Hi). split; [|lia].
    by rewrite Z.mod_add.
  - intros [Hm Hv]. exists (Z.to_nat (v `div` 2)).
    pose proof (Z.div_mod v 2). lia.
Qed.

Lemma elem_of_range_even L v :
  v ∈ Py.range3 0 (2 * L) 2 ↔ v `mod` 2 = 0 ∧ 0 ≤ v < 2 * L.
Proof.
  rewrite elem_of_range3, range_len_even. split.
  - intros (i & -> & Hi). split; [|lia].
    by rewrite Z.mod_add.
  - intros [Hm Hv]. exists (Z.to_nat (v `div` 2)).
    pose proof (Z.div_mod v 2). lia.
Qed.

Lemma range3_odd_as_range L :
  Py.range3 1 (2 * L) 2 = (λ a, 2 * a + 1) <$> Py.range L.
Proof.
  unfold Py.range, Py.range3. rewrite range_len_odd, range_len_unit.
  rewrite <- list_fmap_compose. apply list_fmap_ext. intros _ i _. simpl. lia.
Qed.

Lemma elem_of_product3 xs ys zs x y z :
  (x, y, z) ∈ Py.product3 xs ys zs ↔ x ∈ xs ∧ y ∈ ys ∧ z ∈ zs.
Proof.
  unfold Py.product3. rewrite list_elem_of_bind. split.
  - intros (x' & (y' & (z' & Hin & Hz)%list_elem_of_bind & Hy)%list_elem_of_bind & Hx).
    apply list_elem_of_singleton in Hin. by simplify_eq.
  - intros (Hx & Hy & Hz). exists x. split; [|done].
    apply list_elem_of_bind. exists y. split; [|done].
    apply list_elem_of_bind. exists z. split; [|done].
    by apply list_elem_of_singleton.
Qed.

Lemma NoDup_product3 xs ys zs :
  NoDup xs → NoDup ys → NoDup zs → NoDup (Py.product3 xs ys zs).
Proof.
  intros Hx Hy Hz. unfold Py.product3.
  apply NoDup_bind; [| |done].
  - intros x1 x2 c _ _
      (?&(?&?%list_elem_of_singleton&?)%list_elem_of_bind&?)%list_elem_of_bind
      (?&(?&?%list_elem_of_singleton&?)%list_elem_of_bind&?)%list_elem_of_bind.
    congruence.
  - intros x _. apply NoDup_bind; [| |done].
    + intros y1 y2 c _ _
        (?&?%list_elem_of_singleton&?)%list_elem_of_bind
        (?&?%list_elem_of_singleton&?)%list_elem_of_bind.
      congruence.
    + intros y _. apply NoDup_bind; [| |done].
      * intros z1 z2 c _ _ ?%list_elem_of_singleton ?%list_elem_of_singleton.
        congruence.
      * intros. apply NoDup_singleton.
Qed.

Lemma length_product3 xs ys zs :
  length (Py.product3 xs ys zs) = (length xs * (length ys * length zs))%nat.
Proof.
  unfold Py.product3.
  induction xs as [|x xs IHx]; csimpl; [done|].
  rewrite length_app, IHx. f_equal.
  clear. induction ys as [|y ys IHy]; csimpl; [done|].
  rewrite length_app, IHy. f_equal.
  clear. induction zs as [|z zs IHz]; csimpl; [done|]. by rewrite IHz.
Qed.

Lemma product3_fmap (f g h : Z → Z) xs ys zs :
  Py.product3 (f <$> xs) (g <$> ys) (h <$> zs)
  = (λ c : Z * Z * Z, (f c.1.1, g c.1.2, h c.2)) <$> Py.product3 xs ys zs.
Proof.
  unfold Py.product3.
  induction xs as [|x xs IHx]; csimpl; [done|].
  rewrite fmap_app, IHx. f_equal.
  clear. induction ys as [|y ys IHy]; csimpl; [done|].
  rewrite fmap_app, IHy. f_equal.
  clear. induction zs as [|z zs IHz]; csimpl; [done|]. by rewrite IHz.
Qed.

Lemma filter_fmap_list {A B} (f : A → B) (P : B → Prop) `{!∀ x, Decision (P x)}
    (l : list A) :
  filter P (f <$> l) = f <$> filter (P ∘ f) l.
Proof.
  induction l as [|a l IH]; [done|]. csimpl.
  rewrite !filter_cons. simpl. case_decide; csimpl; by rewrite IH.
Qed.

End PyFacts.

Section DictFacts.
Context `{Countable K}.

Lemma dict_of_enumerate_snoc (l : list K) x :
  Py.dict_of_enumerate (l ++ [x]) = <[x := length l]> (Py.dict_of_enumerate l).
Proof.
  unfold Py.dict_of_enumerate, Py.enumerate.
  rewrite imap_app, foldl_app. simpl. by rewrite Nat.add_0_r.
Qed.

(** Without duplicates among the keys the dictionary is the inverse of the
    list lookup. *)
Lemma dict_of_enumerate_lookup (l : list K) c i :
  NoDup l → Py.dict_of_enumerate l !! c = Some i ↔ l !! i = Some c.
Proof.
  induction l as [|x l IH] using rev_ind; intros Hnd.
  - unfold Py.dict_of_enumerate. simpl. by rewrite lookup_empty, lookup_nil.
  - apply NoDup_app in Hnd as (Hl & Hx & _).
    rewrite dict_of_enumerate_snoc.
    destruct (decide (x = c)) as [->|Hne].
    + rewrite lookup_insert_eq. split.
      * intros [= <-]. by rewrite lookup_app_r, Nat.sub_diag.
      * intros Hi. f_equal.
        destruct (decide (i < length l)%nat) as [Hlt|Hge].
        -- rewrite lookup_app_l in Hi by done.
           exfalso. eapply Hx; [|apply list_elem_of_singleton; done].
           by eapply list_elem_of_lookup_2.
        -- apply lookup_lt_Some in Hi. rewrite length_app in Hi. simpl in Hi. lia.
    + rewrite lookup_insert_ne by done. rewrite IH by done. split.
      * intros Hi. rewrite lookup_app_l; [done|]. by eapply lookup_lt_Some.
      * intros Hi. destruct (decide (i < length l)%nat) as [Hlt|Hge].
        -- by rewrite lookup_app_l in Hi.
        -- rewrite lookup_app_r in Hi by lia.
           apply list_lookup_singleton_Some in Hi as [_ ?]. done.
Qed.

Lemma dict_of_enumerate_bijection (l : list K) :
  NoDup l → Py.index_bijection l (Py.dict_of_enumerate l) (length l).
Proof.
  intros Hnd. repeat split.
  - intros [i Hi]%list_elem_of_lookup. exists i. by apply dict_of_enumerate_lookup.
  - intros [i Hi]. apply dict_of_enumerate_lookup in Hi; [|done].
    by eapply list_elem_of_lookup_2.
  - intros c i Hi%dict_of_enumerate_lookup; [|done]. by eapply lookup_lt_Some.
  - intros i [c Hc]%lookup_lt_is_Some. exists c. by apply dict_of_enumerate_lookup.
  - intros c c' i Hc%dict_of_enumerate_lookup Hc'%dict_of_enumerate_lookup; [|done..].
    congruence.
Qed.

End DictFacts.

(** ** The 3D toric code *)

Section ToricFacts.
Import ToricCode3D.

Lemma toric_qubit_coordinates_NoDup self : NoDup (qubit_coordinates self).
Proof.
  destruct self as [[[Lx Ly] Lz]]. unfold qubit_coordinates. simpl.
  rewrite !NoDup_app. split_and!; try (apply NoDup_product3; by apply NoDup_range3).
  - intros [[x y] z] Hx [Hy|Hz]%elem_of_app.
    + apply elem_of_product3 in Hx as ([? _]%elem_of_range_odd & _ & _).
      apply elem_of_product3 in Hy as ([? _]%elem_of_range_even & _ & _). lia.
    + apply elem_of_product3 in Hx as ([? _]%elem_of_range_odd & _ & _).
      apply elem_of_product3 in Hz as ([? _]%elem_of_range_even & _ & _). lia.
  - intros [[x y] z] Hy Hz.
    apply elem_of_product3 in Hy as (_ & [? _]%elem_of_range_odd & _).
    apply elem_of_product3 in Hz as (_ & [? _]%elem_of_range_even & _). lia.
Qed.

Lemma toric_qubit_coordinates_length Lx Ly Lz :
  0 ≤ Lx → 0 ≤ Ly → 0 ≤ Lz →
  length (qubit_coordinates {| size := (Lx, Ly, Lz) |}) = Z.to_nat (3 * Lx * Ly * Lz).
Proof.
  intros. unfold qubit_coordinates. simpl.
  rewrite !length_app, !length_product3, !length_range3, !range_len_odd, !range_len_even.
  nia.
Qed.

End ToricFacts.

Section NumpyFacts.

Lemma int64_small z : - 2 ^ 63 ≤ z < 2 ^ 63 → Np.int64 z = z.
Proof. intros. unfold Np.int64. rewrite Z.mod_small; lia. Qed.

Lemma int64_mod z : Np.int64 z `mod` 2 ^ 64 = z `mod` 2 ^ 64.
Proof.
  unfold Np.int64. rewrite Zminus_mod_idemp_l. f_equal. lia.
Qed.

Lemma int64_congr a b : a `mod` 2 ^ 64 = b `mod` 2 ^ 64 → Np.int64 a = Np.int64 b.
Proof.
  intros Hab. unfold Np.int64.
  by rewrite <- (Zplus_mod_idemp_l a), Hab, Zplus_mod_idemp_l.
Qed.

Lemma int64_mul_idemp_l a b : Np.int64 (Np.int64 a * b) = Np.int64 (a * b).
Proof.
  apply int64_congr. by rewrite <- Zmult_mod_idemp_l, int64_mod, Zmult_mod_idemp_l.
Qed.

Lemma int64_mul_idemp_r a b : Np.int64 (a * Np.int64 b) = Np.int64 (a * b).
Proof. by rewrite (Z.mul_comm a), int64_mul_idemp_l, Z.mul_comm. Qed.

Lemma product_eq_int64 (t : list Z) : Np.product t = Np.int64 (foldl Z.mul 1 t).
Proof.
  unfold Np.product. induction t as [|x t IH] using rev_ind; [done|].
  by rewrite !foldl_app, IH; simpl; rewrite int64_mul_idemp_l.
Qed.

Lemma product_no_overflow (t : list Z) :
  - 2 ^ 63 ≤ foldl Z.mul 1 t < 2 ^ 63 → Np.product t = foldl Z.mul 1 t.
Proof. intros. by rewrite product_eq_int64, int64_small. Qed.

End NumpyFacts.

Section ToricClaims.
Import ToricCode3D.

(** C4 (as amended).  For every lattice size with [Lx, Ly, Lz >= 1] the
    qubit dictionary of the 3D toric code is a bijection from the enumerated
    qubit coordinates onto [0, 3*Lx*Ly*Lz): no collisions and no gaps.
    [n_k_d] reports [n = 3*Lx*Ly*Lz] and [k = 3] whenever that count fits in
    numpy's signed 64-bit integer; for [Lx = Ly = Lz = 2] it reports 24 and 3. *)
Theorem toric_qubit_index_bijection (Lx Ly Lz : Z) :
  1 ≤ Lx → 1 ≤ Ly → 1 ≤ Lz →
  let self := {| size := (Lx, Ly, Lz) |} in
  Py.index_bijection (qubit_coordinates self) (_create_qubit_indices self)
    (Z.to_nat (3 * Lx * Ly * Lz))
  ∧ (3 * Lx * Ly * Lz < 2 ^ 63 →
     n_k_d self = (3 * Lx * Ly * Lz, 3, Z.min Lx (Z.min Ly Lz)))
  ∧ n_k_d {| size := (2, 2, 2) |} = (24, 3, 2).
Proof.
  intros Hx Hy Hz self. split_and!.
  - rewrite <- (toric_qubit_coordinates_length Lx Ly Lz) by lia.
    apply dict_of_enumerate_bijection, toric_qubit_coordinates_NoDup.
  - intros Hfit. unfold n_k_d, Np.mul. simpl size. cbv iota beta.
    rewrite product_eq_int64, int64_mul_idemp_r. simpl foldl.
    replace (3 * (1 * Lx * Ly * Lz)) with (3 * Lx * Ly * Lz) by lia.
    rewrite int64_small; [done|]. nia.
  - done.
Qed.

Lemma toric_qubit_index_bijection_witness :
  Py.index_bijection (qubit_coordinates {| size := (2, 2, 2) |})
    (_create_qubit_indices {| size := (2, 2, 2) |}) 24
  ∧ n_k_d {| size := (2, 2, 2) |} = (24, 3, 2).
Proof.
  destruct (toric_qubit_index_bijection 2 2 2) as (Hb & Hn & _); [lia..|].
  split; [exact Hb|]. apply Hn. lia.
Defined.

(** C4 as stated fails: at [Lx = Ly = Lz = 2^21] the product overflows the
    64-bit integer numpy computes it in, and [n_k_d[0]] is [-2^63]. *)
Lemma toric_n_k_d_overflow :
  let L := 2 ^ 21 in
  1 ≤ L
  ∧ (n_k_d {| size := (L, L, L) |}).1.1 = - 2 ^ 63
  ∧ (n_k_d {| size := (L, L, L) |}).1.1 ≠ 3 * L * L * L.
Proof. by vm_compute. Qed.

End ToricClaims.

(** ** The two rhombic codes *)

Section RhombicClaims.

Lemma size_dict_of_enumerate `{Countable K} (l : list K) :
  NoDup l → size (Py.dict_of_enumerate l) = length l.
Proof.
  induction l as [|x l IH] using rev_ind; intros Hnd; [done|].
  apply NoDup_app in Hnd as (Hl & Hx & _).
  assert (Py.dict_of_enumerate l !! x = None) as Hfresh.
  { apply eq_None_not_Some. intros [i Hi].
    apply dict_of_enumerate_lookup in Hi; [|done].
    eapply Hx; [by eapply list_elem_of_lookup_2|by apply list_elem_of_singleton]. }
  rewrite dict_of_enumerate_snoc, map_size_insert_None, IH, length_app by done.
  simpl. lia.
Qed.

#[local] Instance doubled_inj : Inj (=) (=) IndexedRhombicCode.doubled.
Proof.
  intros [[a b] c] [[a' b'] c']. unfold IndexedRhombicCode.doubled. simpl.
  intros [= ? ? ?]. repeat f_equal; lia.
Qed.

Lemma doubled_parity (c : Z * Z * Z) :
  ((2 * c.1.1 + 1) + (2 * c.1.2 + 1) + (2 * c.2 + 1)) `mod` 4 = 1
  ↔ (c.1.1 + c.1.2 + c.2) `mod` 2 = 1.
Proof.
  pose proof (Z.div_mod (c.1.1 + c.1.2 + c.2) 2).
  pose proof (Z.mod_pos_bound (c.1.1 + c.1.2 + c.2) 2).
  pose proof (Z.div_mod ((2 * c.1.1 + 1) + (2 * c.1.2 + 1) + (2 * c.2 + 1)) 4).
  pose proof (Z.mod_pos_bound ((2 * c.1.1 + 1) + (2 * c.1.2 + 1) + (2 * c.2 + 1)) 4).
  lia.
Qed.

(** The indexed enumeration is the image of the direct one, in the same
    order. *)
Lemma face_coordinates_as_cube_positions Lx Ly Lz :
  IndexedRhombicCode.face_coordinates {| IndexedRhombicCode.size := (Lx, Ly, Lz) |}
  = IndexedRhombicCode.doubled
      <$> RhombicCode.cube_X_positions (RhombicCode.__init__ Lx (Some Ly) (Some Lz)).
Proof.
  unfold IndexedRhombicCode.face_coordinates, RhombicCode.cube_X_positions. simpl.
  rewrite !range3_odd_as_range, product3_fmap, filter_fmap_list.
  f_equal. apply list_filter_iff. intros c. simpl. apply doubled_parity.
Qed.

Lemma face_coordinates_NoDup self : NoDup (IndexedRhombicCode.face_coordinates self).
Proof.
  destruct self as [[[Lx Ly] Lz]]. unfold IndexedRhombicCode.face_coordinates. simpl.
  apply NoDup_filter, NoDup_product3; by apply NoDup_range3.
Qed.

(** C5.  For every lattice size, [(a, b, c) -> (2a+1, 2b+1, 2c+1)] is a
    bijection from the cube positions the direct implementation selects with
    [(a + b + c) % 2 == 1] onto the doubled coordinates the indexed
    implementation selects with [(x + y + z) % 4 == 1]: it is injective, maps
    the first enumeration onto the second (even in the same order), the
    coordinates reached are exactly the odd triples in range with
    [(x + y + z) % 4 == 1], and the two implementations enumerate the same
    number of cube stabilizers. *)
Theorem rhombic_cube_enumerations_agree (Lx Ly Lz : Z) :
  let direct := RhombicCode.__init__ Lx (Some Ly) (Some Lz) in
  let indexed := {| IndexedRhombicCode.size := (Lx, Ly, Lz) |} in
  Inj (=) (=) IndexedRhombicCode.doubled
  ∧ IndexedRhombicCode.doubled <$> RhombicCode.cube_X_positions direct
    = IndexedRhombicCode.face_coordinates indexed
  ∧ (∀ d, d ∈ IndexedRhombicCode.face_coordinates indexed
        ↔ ∃ c, c ∈ RhombicCode.cube_X_positions direct
               ∧ d = IndexedRhombicCode.doubled c)
  ∧ (∀ x y z, (x, y, z) ∈ IndexedRhombicCode.face_coordinates indexed
        ↔ (x `mod` 2 = 1 ∧ 0 < x < 2 * Lx) ∧ (y `mod` 2 = 1 ∧ 0 < y < 2 * Ly)
          ∧ (z `mod` 2 = 1 ∧ 0 < z < 2 * Lz) ∧ (x + y + z) `mod` 4 = 1)
  ∧ (∀ (bsf : Type) (cube : RhombicCode.t → Z * Z * Z → bsf),
        length (RhombicCode.get_cube_X_stabilizers cube direct)
        = size (IndexedRhombicCode._create_face_indices indexed)).
Proof.
  intros direct indexed. split_and!.
  - apply _.
  - symmetry. apply face_coordinates_as_cube_positions.
  - intros d. unfold indexed. rewrite face_coordinates_as_cube_positions.
    rewrite list_elem_of_fmap. split; intros (c & ? & ?); eauto.
  - intros x y z. unfold indexed, IndexedRhombicCode.face_coordinates. simpl.
    rewrite list_elem_of_filter, elem_of_product3, !elem_of_range_odd. simpl.
    tauto.
  - intros bsf cube. unfold RhombicCode.get_cube_X_stabilizers,
      IndexedRhombicCode._create_face_indices.
    rewrite size_dict_of_enumerate by apply face_coordinates_NoDup.
    unfold indexed. by rewrite face_coordinates_as_cube_positions, !length_fmap.
Qed.

(** C10 (as amended).  The direct rhombic code built from [L_x] alone has
    size [(L_x, L_x, L_x)], built from all three dimensions it has size
    [(L_x, L_y, L_z)]; an omitted dimension defaults to [L_x].  Its qubit
    count [n_k_d[0]] is [3 * L_x^3], respectively [3 * L_x * L_y * L_z],
    whenever that product fits in numpy's signed 64-bit integer. *)
Theorem rhombic_init_defaults (L_x L_y L_z : Z) :
  let cubic := RhombicCode.__init__ L_x None None in
  let full := RhombicCode.__init__ L_x (Some L_y) (Some L_z) in
  RhombicCode.size cubic = (L_x, L_x, L_x)
  ∧ RhombicCode.size full = (L_x, L_y, L_z)
  ∧ (∀ oy oz, RhombicCode.size (RhombicCode.__init__ L_x oy oz)
              = (L_x, default L_x oy, default L_x oz))
  ∧ (- 2 ^ 63 ≤ 3 * L_x ^ 3 < 2 ^ 63 →
     (RhombicCode.n_k_d cubic).1.1 = 3 * L_x ^ 3)
  ∧ (- 2 ^ 63 ≤ 3 * L_x * L_y * L_z < 2 ^ 63 →
     (RhombicCode.n_k_d full).1.1 = 3 * L_x * L_y * L_z).
Proof.
  intros cubic full. split_and!; try done.
  - intros Hfit. unfold RhombicCode.n_k_d. simpl.
    rewrite product_no_overflow; simpl; lia.
  - intros Hfit. unfold RhombicCode.n_k_d. simpl.
    rewrite product_no_overflow; simpl; lia.
Qed.

Lemma rhombic_init_defaults_witness :
  (RhombicCode.n_k_d (RhombicCode.__init__ 2 None None)).1.1 = 3 * 2 ^ 3
  ∧ (RhombicCode.n_k_d (RhombicCode.__init__ 2 (Some 3) (Some 4))).1.1 = 3 * 2 * 3 * 4.
Proof.
  pose proof (rhombic_init_defaults 2 3 4) as H. cbv zeta in H.
  destruct H as (_ & _ & _ & Hc & Hf).
  split; [apply Hc|apply Hf]; lia.
Defined.

(** C10 as stated fails: [RhombicCode(2**21)] stores its shape without
    building anything, and its qubit count overflows to [-2^63]. *)
Lemma rhombic_n_k_d_overflow :
  let L := 2 ^ 21 in
  (RhombicCode.n_k_d (RhombicCode.__init__ L None None)).1.1 = - 2 ^ 63
  ∧ (RhombicCode.n_k_d (RhombicCode.__init__ L None None)).1.1 ≠ 3 * L ^ 3.
Proof. by vm_compute. Qed.

End RhombicClaims.

(** ** The Pauli error models *)

Ltac py_simpl :=
  repeat (unfold mbind, Py.result_bind, Py.bind, Py.ok, Py.raise, Py.getitem, Py.setitem in *;
          simpl in *).

Ltac bind_step :=
  unfold mbind, Py.result_bind, Py.bind, Py.ok, Py.raise; cbv beta iota.

Section ResultFacts.

Lemma mapM_ok_fmap {A B} (f : A → Py.result B) (g : A → B) (l : list A) :
  (∀ x, x ∈ l → f x = Py.ok (g x)) → Py.mapM f l = Py.ok (g <$> l).
Proof.
  induction l as [|x l IH]; intros Hf; [done|]. simpl.
  rewrite (Hf x) by apply list_elem_of_here.
  rewrite IH by (intros; apply Hf; by apply list_elem_of_further). done.
Qed.

Lemma lookup_scale_ones c n i :
  (i < n)%nat → Np.scale c (Np.ones n) !! i = Some c.
Proof.
  intros Hi. unfold Np.scale, Np.ones.
  rewrite list_lookup_fmap, lookup_replicate_2 by done. simpl. f_equal. lra.
Qed.

Lemma lookup_scale c (a : list R) i :
  Np.scale c a !! i = (λ v, c * v)%R <$> a !! i.
Proof. unfold Np.scale. by rewrite list_lookup_fmap. Qed.

Lemma lookup_fmap_seq {A} (f : nat → A) n i :
  (i < n)%nat → (f <$> seq 0 n) !! i = Some (f i).
Proof. intros. by rewrite list_lookup_fmap, lookup_seq_lt. Qed.

End ResultFacts.

Section DeformationLoop.
Context {loc : Type} (code : StabilizerCode.t loc) (the_axis : Z).

Lemma deformation_loop_spec (l : list loc) : ∀ (k : nat) (flags flags' : list bool),
  Py.foldM (DeformedXZZXErrorModel.deformation_turn code the_axis) flags (imap (λ i x, ((k + i)%nat, x)) l) = Py.ok flags' →
  length flags' = length flags
  ∧ (∀ i location, l !! i = Some location →
       StabilizerCode.axis code location = Py.ok the_axis →
       flags' !! (k + i)%nat = Some true)
  ∧ (∀ j, ¬ (∃ i location, j = (k + i)%nat ∧ l !! i = Some location
                ∧ StabilizerCode.axis code location = Py.ok the_axis) →
       flags' !! j = flags !! j).
Proof.
  induction l as [|x l IH]; intros k flags flags' Hrun.
  - simpl in Hrun. injection Hrun as <-. split_and!; [done| |done].
    intros i location Hi. by rewrite lookup_nil in Hi.
  - rewrite imap_cons in Hrun. simpl in Hrun.
    rewrite (imap_ext _ (λ i x, ((S k + i)%nat, x))) in Hrun
      by (intros; simpl; f_equal; lia).
    unfold mbind at 1, Py.result_bind at 1, Py.bind at 1 in Hrun.
    destruct (StabilizerCode.axis code x) as [e|a] eqn:Hax;
      [py_simpl; discriminate|].
    unfold mbind, Py.result_bind in Hrun. simpl in Hrun.
    destruct (decide (a = the_axis)) as [->|Hne].
    + unfold Py.setitem in Hrun.
      destruct (decide (k + 0 < length flags)%nat) as [Hk|]; [|py_simpl; discriminate].
      simpl in Hrun. apply (IH (S k)) in Hrun as (Hlen & Hset & Hkeep).
      rewrite length_insert in Hlen. split_and!; [done| |].
      * intros [|i] location Hi Hloc.
        -- rewrite Hkeep.
           ++ by apply list_lookup_insert_eq.
           ++ intros (i & ? & ? & _). lia.
        -- replace (k + S i)%nat with (S k + i)%nat by lia. by eapply Hset.
      * intros j Hj. rewrite Hkeep.
        -- apply list_lookup_insert_ne. intros <-. apply Hj.
           exists 0%nat, x. by rewrite Nat.add_0_r in *.
        -- intros (i & location & -> & Hi & Hloc). apply Hj.
           exists (S i), location. split_and!; [lia|done..].
    + simpl in Hrun. apply (IH (S k)) in Hrun as (Hlen & Hset & Hkeep).
      split_and!; [done| |].
      * intros [|i] location Hi Hloc.
        -- simpl in Hi. injection Hi as <-. rewrite Hax in Hloc.
           injection Hloc as ->. done.
        -- replace (k + S i)%nat with (S k + i)%nat by lia. by eapply Hset.
      * intros j Hj. apply Hkeep.
        intros (i & location & -> & Hi & Hloc). apply Hj.
        exists (S i), location. split_and!; [lia|done..].
Qed.

Lemma deformation_loop_succeeds (l : list loc) : ∀ (k : nat) (flags : list bool),
  Forall (λ location, Py.is_ok (StabilizerCode.axis code location)) l →
  (k + length l ≤ length flags)%nat →
  ∃ flags', Py.foldM (DeformedXZZXErrorModel.deformation_turn code the_axis) flags (imap (λ i x, ((k + i)%nat, x)) l)
            = Py.ok flags'.
Proof.
  induction l as [|x l IH]; intros k flags Hax Hlen.
  - by exists flags.
  - apply Forall_cons in Hax as [Hx Hax]. simpl in Hlen.
    rewrite imap_cons. simpl.
    rewrite (imap_ext _ (λ i x, ((S k + i)%nat, x))) by (intros; simpl; f_equal; lia).
    destruct (StabilizerCode.axis code x) as [e|a] eqn:Heq; [done|].
    unfold mbind, Py.result_bind. simpl.
    destruct (decide (a = the_axis)).
    + unfold Py.setitem. rewrite decide_True by lia. simpl.
      apply (IH (S k)); [done|]. rewrite length_insert. lia.
    + simpl. apply (IH (S k)); [done|lia].
Qed.

End DeformationLoop.

Section ErrorModelFacts.
Context {loc : Type}.
Implicit Types (code : StabilizerCode.t loc) (self : PauliErrorModel.t).
Local Open Scope R_scope.

Lemma get_deformation_indices_spec code the_axis flags :
  DeformedXZZXErrorModel.deformed_axis code !! StabilizerCode.id code = Some the_axis →
  DeformedXZZXErrorModel._get_deformation_indices code = Py.ok flags →
  length flags = StabilizerCode.n code
  ∧ ∀ i, (i < StabilizerCode.n code)%nat →
      (DeformedXZZXErrorModel.deformed_qubit code the_axis i → flags !! i = Some true)
      ∧ (¬ DeformedXZZXErrorModel.deformed_qubit code the_axis i → flags !! i = Some false).
Proof.
  intros Hreg. unfold DeformedXZZXErrorModel._get_deformation_indices. rewrite Hreg.
  intros Hrun.
  apply (deformation_loop_spec code the_axis _ 0) in Hrun as (Hlen & Hset & Hkeep).
  rewrite length_replicate in Hlen. split; [done|].
  intros i Hi. split.
  - intros (location & Hloc & Hax). by apply (Hset i location).
  - intros Hnot. rewrite Hkeep.
    + by apply lookup_replicate_2.
    + intros (i' & location & -> & Hloc & Hax). apply Hnot. by exists location.
Qed.

Lemma get_deformation_indices_succeeds code the_axis :
  StabilizerCode.wf code →
  DeformedXZZXErrorModel.deformed_axis code !! StabilizerCode.id code = Some the_axis →
  ∃ flags, DeformedXZZXErrorModel._get_deformation_indices code = Py.ok flags.
Proof.
  intros [Hlen Hax] Hreg.
  unfold DeformedXZZXErrorModel._get_deformation_indices. rewrite Hreg.
  apply (deformation_loop_succeeds code the_axis _ 0); [done|].
  rewrite length_replicate. simpl. lia.
Qed.

(** Once the flags are there, the distribution is built without raising. *)
Lemma deformed_distribution_of_flags self code probability flags :
  DeformedXZZXErrorModel._get_deformation_indices code = Py.ok flags →
  length flags = StabilizerCode.n code →
  let '(r_x, r_y, r_z) := PauliErrorModel.direction self in
  let n := StabilizerCode.n code in
  let flag i := default false (flags !! i) in
  DeformedXZZXErrorModel.probability_distribution self code probability
  = Py.ok ((λ _ : nat, 1 - probability) <$> seq 0 n,
           Np.scale probability ((λ i, if flag i then r_z else r_x) <$> seq 0 n),
           Np.scale probability ((λ _ : nat, r_y) <$> seq 0 n),
           Np.scale probability ((λ i, if flag i then r_x else r_z) <$> seq 0 n)).
Proof.
  intros Hflags Hlen. unfold DeformedXZZXErrorModel.probability_distribution.
  destruct (PauliErrorModel.direction self) as [[r_x r_y] r_z]. rewrite Hflags.
  assert (∀ a b : R, ∀ i, i ∈ seq 0 (StabilizerCode.n code) →
    (d ← Py.getitem flags i; Py.ok (if d : bool then a else b))
    = Py.ok (if default false (flags !! i) then a else b)) as Hget.
  { intros a b i [_ Hi]%elem_of_seq. unfold Py.getitem.
    destruct (lookup_lt_is_Some_2 flags i) as [d ->]; [lia|done]. }
  unfold mbind at 1, Py.result_bind at 1. simpl.
  rewrite (mapM_ok_fmap _ _ _ (Hget r_z r_x)).
  unfold mbind at 1, Py.result_bind at 1. simpl.
  by rewrite (mapM_ok_fmap _ _ _ (Hget r_x r_z)).
Qed.

(** C1.  For the XZZX-deformed model and a code with a registered deformed
    axis, [probability_distribution(code, probability)] returns, at every
    qubit [i] whose coordinate is classified on that axis,
    [p_X[i] = r_z * probability], [p_Z[i] = r_x * probability] and
    [p_Y[i] = r_y * probability]; at every other qubit it returns the
    entries of the undeformed base distribution
    ([p_X[i] = r_x * probability], [p_Z[i] = r_z * probability]). *)
Theorem deformed_xzzx_swaps_x_and_z self code (probability : R) (the_axis : Z) :
  StabilizerCode.wf code →
  DeformedXZZXErrorModel.deformed_axis code !! StabilizerCode.id code = Some the_axis →
  let '(r_x, r_y, r_z) := PauliErrorModel.direction self in
  let '(b_i, b_x, b_y, b_z) :=
    PauliErrorModel.probability_distribution self code probability in
  ∃ p_i p_x p_y p_z,
    DeformedXZZXErrorModel.probability_distribution self code probability
    = Py.ok (p_i, p_x, p_y, p_z)
    ∧ ∀ i, (i < StabilizerCode.n code)%nat →
        (DeformedXZZXErrorModel.deformed_qubit code the_axis i →
           p_x !! i = Some (r_z * probability)
           ∧ p_z !! i = Some (r_x * probability)
           ∧ p_y !! i = Some (r_y * probability)
           ∧ p_i !! i = Some (1 - probability))
        ∧ (¬ DeformedXZZXErrorModel.deformed_qubit code the_axis i →
           (p_i !! i = b_i !! i ∧ p_x !! i = b_x !! i
            ∧ p_y !! i = b_y !! i ∧ p_z !! i = b_z !! i)
           ∧ p_x !! i = Some (r_x * probability)
           ∧ p_z !! i = Some (r_z * probability)
           ∧ p_y !! i = Some (r_y * probability)
           ∧ p_i !! i = Some (1 - probability)).
Proof.
  intros Hwf Hreg.
  destruct (get_deformation_indices_succeeds code the_axis Hwf Hreg) as [flags Hflags].
  destruct (get_deformation_indices_spec code the_axis flags Hreg Hflags) as [Hlen Hspec].
  pose proof (deformed_distribution_of_flags self code probability flags Hflags Hlen) as Hpd.
  unfold PauliErrorModel.probability_distribution.
  destruct (PauliErrorModel.direction self) as [[r_x r_y] r_z].
  eexists _, _, _, _. split; [exact Hpd|].
  intros i Hi. destruct (Hspec i Hi) as [Hyes Hno].
  rewrite !lookup_scale_ones, !lookup_scale, !lookup_fmap_seq by done. simpl.
  split; intros Hd.
  - rewrite (Hyes Hd). simpl. split_and!; f_equal; lra.
  - rewrite (Hno Hd). simpl. split_and!; f_equal; lra.
Qed.


Lemma deformed_axis_keys code (name : string) :
  name ∈ DeformedXZZXErrorModel.registered_ids
  ↔ is_Some (DeformedXZZXErrorModel.deformed_axis code !! name).
Proof.
  rewrite <- elem_of_dom.
  unfold DeformedXZZXErrorModel.deformed_axis, Py.dict_of_items. simpl.
  rewrite !dom_insert_L, dom_empty_L.
  unfold DeformedXZZXErrorModel.registered_ids.
  rewrite !elem_of_union, !elem_of_singleton, elem_of_empty, !elem_of_cons, elem_of_nil.
  tauto.
Qed.

Lemma get_deformation_indices_length code flags :
  DeformedXZZXErrorModel._get_deformation_indices code = Py.ok flags →
  length flags = StabilizerCode.n code.
Proof.
  intros Hrun.
  destruct (DeformedXZZXErrorModel.deformed_axis code !! StabilizerCode.id code)
    as [the_axis|] eqn:Hreg.
  - by destruct (get_deformation_indices_spec code the_axis flags Hreg Hrun).
  - unfold DeformedXZZXErrorModel._get_deformation_indices in Hrun.
    by rewrite Hreg in Hrun.
Qed.

Lemma isclose_spec (a b : R) :
  Np.isclose a b = true ↔ Rabs (a - b) <= Np.atol + Np.rtol * Rabs b.
Proof. unfold Np.isclose. apply bool_decide_eq_true. Qed.


(** C3 (as amended).  Constructing a [PauliErrorModel] fails with a
    validation error ([ValueError]) exactly when [np.isclose] rejects the sum,
    that is when [|r_x + r_y + r_z - 1|] exceeds numpy's default tolerance
    [atol + rtol * |1| = 1e-8 + 1e-5]; when it succeeds, the stored direction
    is exactly the supplied triple, neither clamped nor normalized.  The
    deformed model is constructed the same way. *)
Theorem pauli_init_validates (r_x r_y r_z : R) :
  (PauliErrorModel.__init__ r_x r_y r_z = Py.raise Py.ValueError
   ↔ ¬ Rabs (r_x + r_y + r_z - 1) <= 1e-8 + 1e-5 * Rabs 1)
  ∧ (Rabs (r_x + r_y + r_z - 1) <= 1e-8 + 1e-5 * Rabs 1 →
     PauliErrorModel.__init__ r_x r_y r_z
     = Py.ok {| PauliErrorModel._direction := (r_x, r_y, r_z) |})
  ∧ (∀ self, PauliErrorModel.__init__ r_x r_y r_z = Py.ok self →
       PauliErrorModel.direction self = (r_x, r_y, r_z))
  ∧ DeformedXZZXErrorModel.__init__ r_x r_y r_z = PauliErrorModel.__init__ r_x r_y r_z.
Proof.
  unfold DeformedXZZXErrorModel.__init__, PauliErrorModel.__init__.
  pose proof (isclose_spec (r_x + r_y + r_z) 1) as Hclose.
  unfold Np.atol, Np.rtol in Hclose.
  destruct (Np.isclose (r_x + r_y + r_z) 1); simpl; split_and!; try done.
  - split; [done|]. intros Hno. destruct Hno. by apply Hclose.
  - by intros self [= <-].
  - split; [|done]. intros _ Hle. apply Hclose in Hle. done.
  - intros Hle. apply Hclose in Hle. done.
Qed.

(** C9.  For a code whose identity is not among the registered ones the
    deformation lookup, and with it [probability_distribution], raises
    [NotImplementedError] and returns no distribution; for every registered
    code (one coordinate per qubit, each with an axis) both return. *)
Theorem deformation_lookup_registry self code (probability : R) :
  (StabilizerCode.id code ∉ DeformedXZZXErrorModel.registered_ids →
     DeformedXZZXErrorModel._get_deformation_indices code
     = Py.raise Py.NotImplementedError
     ∧ DeformedXZZXErrorModel.probability_distribution self code probability
       = Py.raise Py.NotImplementedError)
  ∧ (StabilizerCode.id code ∈ DeformedXZZXErrorModel.registered_ids →
     StabilizerCode.wf code →
     (∃ is_deformed, DeformedXZZXErrorModel._get_deformation_indices code
                     = Py.ok is_deformed
                     ∧ length is_deformed = StabilizerCode.n code)
     ∧ ∃ dist, DeformedXZZXErrorModel.probability_distribution self code probability
               = Py.ok dist).
Proof.
  split.
  - intros Hid. rewrite deformed_axis_keys, <- eq_None_not_Some in Hid.
    assert (DeformedXZZXErrorModel._get_deformation_indices code
            = Py.raise Py.NotImplementedError) as Hraise.
    { unfold DeformedXZZXErrorModel._get_deformation_indices. by rewrite Hid. }
    split; [done|].
    unfold DeformedXZZXErrorModel.probability_distribution.
    destruct (PauliErrorModel.direction self) as [[r_x r_y] r_z].
    by rewrite Hraise.
  - intros [the_axis Hreg]%(deformed_axis_keys code) Hwf.
    destruct (get_deformation_indices_succeeds code the_axis Hwf Hreg) as [flags Hflags].
    pose proof (get_deformation_indices_length code flags Hflags) as Hlen.
    split; [by exists flags|].
    pose proof (deformed_distribution_of_flags self code probability flags Hflags Hlen)
      as Hpd.
    destruct (PauliErrorModel.direction self) as [[r_x r_y] r_z].
    eexists. exact Hpd.
Qed.

End ErrorModelFacts.

(** The example code object satisfies the invariant of the interface. *)
Lemma sample_code_wf : StabilizerCode.wf SampleCode.toric3d.
Proof. split; [done|]. by repeat constructor. Qed.

Section ErrorModelWitnesses.
Local Open Scope R_scope.

(** C1, at the 3D toric code of size 1x1x1: its third qubit, [(0, 0, 1)],
    lies on the z axis and is deformed. *)
Lemma deformed_xzzx_swaps_x_and_z_witness :
  let code := SampleCode.toric3d in
  let self := {| PauliErrorModel._direction := (0.5, 0.25, 0.25) |} in
  StabilizerCode.wf code
  ∧ DeformedXZZXErrorModel.deformed_axis code !! StabilizerCode.id code = Some 2%Z
  ∧ DeformedXZZXErrorModel.deformed_qubit code 2 2
  ∧ ∃ p_i p_x p_y p_z,
      DeformedXZZXErrorModel.probability_distribution self code 0.1
      = Py.ok (p_i, p_x, p_y, p_z)
      ∧ p_x !! 2%nat = Some (0.25 * 0.1) ∧ p_z !! 2%nat = Some (0.5 * 0.1).
Proof.
  intros code self.
  assert (StabilizerCode.wf code) as Hwf.
  { split; [done|]. repeat constructor. }
  assert (DeformedXZZXErrorModel.deformed_axis code !! StabilizerCode.id code = Some 2%Z)
    as Hreg by (by vm_compute).
  assert (DeformedXZZXErrorModel.deformed_qubit code 2 2) as Hdef.
  { exists (0, 0, 1)%Z. split; by vm_compute. }
  split_and!; [done..|].
  pose proof (deformed_xzzx_swaps_x_and_z self code 0.1 2%Z Hwf Hreg) as H.
  simpl in H. destruct H as (p_i & p_x & p_y & p_z & Hpd & Hall).
  exists p_i, p_x, p_y, p_z. split; [exact Hpd|].
  destruct (Hall 2%nat) as [Hyes _]; [simpl; lia|].
  destruct (Hyes Hdef) as (? & ? & _). done.
Defined.


Lemma pauli_init_validates_witness :
  PauliErrorModel.__init__ 1 0 0 = Py.ok {| PauliErrorModel._direction := (1, 0, 0) |}.
Proof.
  destruct (pauli_init_validates 1 0 0) as (_ & Hok & _). apply Hok.
  unfold Rabs. repeat destruct Rcase_abs; lra.
Defined.

(** C3 as stated fails: the direction [(1.000001, 0, 0)] misses 1 by [1e-6],
    a thousand times the tolerance [1e-9], and is accepted as it is. *)
Lemma pauli_init_accepts_beyond_1e9 :
  ¬ Rabs (1.000001 + 0 + 0 - 1) <= 1e-9
  ∧ PauliErrorModel.__init__ 1.000001 0 0
    = Py.ok {| PauliErrorModel._direction := (1.000001, 0, 0) |}.
Proof.
  split.
  - unfold Rabs. destruct Rcase_abs; lra.
  - unfold PauliErrorModel.__init__.
    rewrite (proj2 (isclose_spec _ _)); [done|].
    unfold Np.atol, Np.rtol, Rabs. repeat destruct Rcase_abs; lra.
Qed.

Lemma deformation_lookup_registry_witness :
  let toric := SampleCode.toric3d in
  let other := {| StabilizerCode.id := "Color666Code"; StabilizerCode.n := 0;
                  StabilizerCode.qubit_coordinates := @nil (Z * Z * Z);
                  StabilizerCode.axis := ToricCode3D.axis {| ToricCode3D.size := (1, 1, 1)%Z |};
                  StabilizerCode.X_AXIS := 0; StabilizerCode.Y_AXIS := 1;
                  StabilizerCode.Z_AXIS := 2 |} in
  DeformedXZZXErrorModel._get_deformation_indices other = Py.raise Py.NotImplementedError
  ∧ ∃ is_deformed, DeformedXZZXErrorModel._get_deformation_indices toric
                   = Py.ok is_deformed.
Proof.
  intros toric other. split.
  - destruct (deformation_lookup_registry
                {| PauliErrorModel._direction := (1, 0, 0) |} other 0.1) as [Hno _].
    apply Hno. unfold DeformedXZZXErrorModel.registered_ids. simpl.
    rewrite !elem_of_cons, elem_of_nil. intros H. repeat destruct H as [H|H]; done.
  - destruct (deformation_lookup_registry
                {| PauliErrorModel._direction := (1, 0, 0) |} toric 0.1) as [_ Hyes].
    destruct Hyes as [(flags & Hflags & _) _].
    + unfold DeformedXZZXErrorModel.registered_ids. simpl. apply list_elem_of_here.
    + split; [done|]. repeat constructor.
    + by exists flags.
Defined.

End ErrorModelWitnesses.

(** ** The statistical analysis *)

Section NumericFacts.
Local Open Scope R_scope.

Lemma sum_replicate_from (acc x : R) (n : nat) :
  foldl Np.fadd (Some acc) (replicate n (Some x)) = Some (acc + INR n * x).
Proof.
  revert acc. induction n as [|n IH]; intros acc.
  - simpl. f_equal. lra.
  - rewrite S_INR. simpl replicate. simpl foldl.
    change (Np.fadd (Some acc) (Some x)) with (Some (acc + x)).
    rewrite IH. f_equal. lra.
Qed.

Lemma mean_replicate (x : R) (n : nat) :
  (0 < n)%nat → Np.mean (replicate n (Some x)) = Some x.
Proof.
  intros Hn. unfold Np.mean, Np.sum. rewrite sum_replicate_from, length_replicate.
  unfold Np.fdiv. simpl.
  assert (INR n ≠ 0) as Hne by (apply not_0_INR; lia).
  rewrite decide_False by done. f_equal. field. done.
Qed.

(** The standard deviation of [n] copies of one number is zero; of copies of
    NaN, or of nothing, it is NaN. *)
Lemma std_replicate (x : R) (n : nat) :
  (0 < n)%nat → Np.std (replicate n (Some x)) = Some 0.
Proof.
  intros Hn. unfold Np.std. rewrite mean_replicate by done.
  rewrite fmap_replicate. simpl. rewrite mean_replicate by done.
  unfold Np.fsqrt. simpl.
  replace (Rabs (x - x) * Rabs (x - x)) with 0
    by (rewrite Rminus_diag, Rabs_R0; lra).
  rewrite decide_True by lra. by rewrite sqrt_0.
Qed.

Lemma mean_replicate_nan (n : nat) : Np.mean (replicate n None) = None.
Proof.
  unfold Np.mean, Np.sum, Np.fdiv. destruct n as [|n]; simpl.
  - by rewrite decide_True.
  - assert (∀ l, foldl Np.fadd None l = None) as ->; [|done].
    induction l; [done|]. simpl. done.
Qed.

Lemma std_replicate_nan (n : nat) : Np.std (replicate n None) = None.
Proof.
  unfold Np.std. rewrite mean_replicate_nan, fmap_replicate. simpl.
  by rewrite mean_replicate_nan.
Qed.

Lemma std_nil : Np.std [] = None.
Proof. unfold Np.std, Np.mean, Np.sum, Np.fdiv. simpl. by rewrite decide_True. Qed.

Lemma fmul_nan_r (a : Np.float) : Np.fmul a None = None.
Proof. by destruct a. Qed.

(** The expression both places of [estimate_correlation_length] evaluate is
    the formula of the specification, and NaN where that divides by zero. *)
Lemma correlation_length_expression (Lx Ly : R) (s0 sk : Np.float) :
  Np.fmul
    (Np.fdiv (Some 1)
       (Np.fmul (Some 2)
          (Np.fsin (Np.fdiv (Np.fdiv (Np.fmul (Some 2) Np.pi) (Some (Rmax Lx Ly)))
                            (Some 2)))))
    (Np.fsqrt (Np.fabs (Np.fsub (Np.fdiv s0 sk) (Some 1))))
  = SimpleAnalysis.spec_correlation_length Lx Ly s0 sk.
Proof.
  unfold SimpleAnalysis.spec_correlation_length, SimpleAnalysis.spec_defined,
    SimpleAnalysis.spec_k_min.
  destruct s0 as [s0|], sk as [sk|];
    [|by rewrite fmul_nan_r..].
  simpl.
  destruct (decide (Rmax Lx Ly = 0)) as [Hm|Hm]; simpl.
  { rewrite decide_False by tauto. done. }
  rewrite (decide_False (P := 2 = 0)) by lra. simpl.
  destruct (decide (2 * sin (2 * PI / Rmax Lx Ly / 2) = 0)) as [Hs|Hs]; simpl.
  { rewrite decide_False; [done|]. intros (_ & Hsin & _). apply Hsin. lra. }
  destruct (decide (sk = 0)) as [Hk|Hk]; simpl.
  { rewrite decide_False by tauto. done. }
  rewrite (decide_True (P := 0 <= _)) by apply Rabs_pos.
  rewrite decide_True; [done|]. split_and!; [done| |done]. lra.
Qed.

Lemma sum_fmap_Some (column : list R) (acc : R) :
  foldl Np.fadd (Some acc) (Some <$> column) = Some (foldl Rplus acc column).
Proof.
  revert acc. induction column as [|x column IH]; intros acc; [done|].
  simpl. change (Np.fadd (Some acc) (Some x)) with (Some (acc + x)). apply IH.
Qed.

Lemma foldl_Rplus (values : list R) (acc : R) :
  foldl Rplus acc values = acc + foldr Rplus 0 values.
Proof.
  revert acc. induction values as [|x values IH]; intros acc; simpl; [lra|].
  rewrite IH. lra.
Qed.

(** numpy's mean of numbers is their mean, and NaN when there is none. *)
Lemma mean_numbers (values : list R) :
  values ≠ [] → Np.mean (Some <$> values) = Some (SimpleAnalysis.spec_mean values).
Proof.
  intros Hne. unfold Np.mean, Np.sum, SimpleAnalysis.spec_mean.
  rewrite sum_fmap_Some, length_fmap, foldl_Rplus. unfold Np.fdiv. simpl.
  rewrite decide_False by (apply not_0_INR; by destruct values).
  f_equal. by rewrite Rplus_0_l.
Qed.

Lemma mean_no_number : Np.mean [] = None.
Proof. unfold Np.mean, Np.sum, Np.fdiv. simpl. by rewrite decide_True. Qed.

Lemma spec_mean_constant (values : list R) (s : R) :
  values ≠ [] → (∀ x, x ∈ values → x = s) → SimpleAnalysis.spec_mean values = s.
Proof.
  intros Hne Hall. unfold SimpleAnalysis.spec_mean.
  assert (foldr Rplus 0 values = INR (length values) * s) as ->.
  { clear Hne. induction values as [|x values IH]; [simpl; lra|].
    rewrite (Hall x) by left. cbn [foldr length]. rewrite S_INR, IH; [lra|].
    intros y Hy. apply Hall. by right. }
  field. apply not_0_INR. by destruct values.
Qed.

Lemma sum_nonnegative (values : list R) :
  (∀ x, x ∈ values → 0 <= x) → 0 <= foldr Rplus 0 values.
Proof.
  induction values as [|x values IH]; intros Hall; simpl; [lra|].
  assert (0 <= x) by (apply Hall; left).
  assert (0 <= foldr Rplus 0 values) by (apply IH; intros y Hy; apply Hall; by right).
  lra.
Qed.

(** numpy's standard deviation of numbers is a number: the root of their
    mean squared deviation. *)
Lemma std_numbers (values : list R) :
  values ≠ [] → Np.std (Some <$> values) = Some (SimpleAnalysis.spec_std values).
Proof.
  intros Hne. unfold Np.std. rewrite mean_numbers by done.
  set (m := SimpleAnalysis.spec_mean values).
  rewrite <- list_fmap_compose.
  rewrite (list_fmap_ext _ (Some ∘ (λ v, (v - m) * (v - m))) values);
    [|intros i x _; simpl; f_equal;
      rewrite <- Rabs_mult; apply Rabs_pos_eq, (Rle_0_sqr (x - m))].
  rewrite list_fmap_compose, mean_numbers by (by destruct values).
  unfold Np.fsqrt. simpl. rewrite decide_True; [done|].
  unfold SimpleAnalysis.spec_mean. apply Rle_mult_inv_pos.
  - apply sum_nonnegative. intros x (y & -> & _)%list_elem_of_fmap. apply (Rle_0_sqr (y - m)).
  - rewrite length_fmap. apply lt_0_INR. destruct values; [done|simpl; lia].
Qed.

Lemma sum_nan (a : list Np.float) (acc : Np.float) :
  None ∈ a → foldl Np.fadd acc a = None.
Proof.
  assert (∀ l, foldl Np.fadd None l = None) as Hnan
    by (induction l; [done|]; simpl; done).
  revert acc. induction a as [|x a IH]; intros acc Hin; [by apply elem_of_nil in Hin|].
  simpl. apply elem_of_cons in Hin as [<-|Hin]; [|by apply IH].
  destruct acc; apply Hnan.
Qed.

(** One NaN among the samples makes the standard deviation NaN. *)
Lemma std_nan (a : list Np.float) : None ∈ a → Np.std a = None.
Proof.
  intros Hin. unfold Np.std. cbv zeta.
  assert (Np.mean a = None) as -> by (unfold Np.mean, Np.sum; by rewrite sum_nan).
  unfold Np.mean at 1, Np.sum. rewrite sum_nan; [done|].
  apply list_elem_of_fmap. by exists None.
Qed.

Lemma dropna_fmap {A} (f : A → Np.float) (l : list A) :
  SimpleAnalysis.dropna (f <$> l) = omap f l.
Proof.
  unfold SimpleAnalysis.dropna. induction l as [|x l IH]; [done|].
  csimpl. rewrite IH. by destruct (f x).
Qed.

(** pandas' mean of a column is the mean of its numbers, NaN when it has
    none. *)
Lemma pd_mean_numbers (column : list Np.float) :
  SimpleAnalysis.dropna column ≠ [] →
  SimpleAnalysis.pd_mean column
  = Some (SimpleAnalysis.spec_mean (SimpleAnalysis.dropna column)).
Proof. intros Hne. unfold SimpleAnalysis.pd_mean. by apply mean_numbers. Qed.

Lemma pd_mean_no_number (column : list Np.float) :
  SimpleAnalysis.dropna column = [] → SimpleAnalysis.pd_mean column = None.
Proof. intros Hnil. unfold SimpleAnalysis.pd_mean. rewrite Hnil. apply mean_no_number. Qed.

(** pandas' standard deviation of a column is NaN exactly when the column
    has fewer than two numbers. *)
Lemma pd_std_nan (column : list Np.float) :
  SimpleAnalysis.pd_std column = None ↔ (SimpleAnalysis.pd_count column ≤ 1)%nat.
Proof.
  unfold SimpleAnalysis.pd_std, SimpleAnalysis.pd_count. cbv zeta.
  case_decide as Hlen; [done|]. split; [|lia].
  rewrite mean_numbers by (intros Hnil; rewrite Hnil in Hlen; simpl in Hlen; lia). done.
Qed.


End NumericFacts.

Section LoopFacts.

Lemma mapM_lookup {A B} (f : A → Py.result B) (l : list A) (ys : list B) :
  Py.mapM f l = Py.ok ys →
  length ys = length l
  ∧ ∀ i x, l !! i = Some x → ∃ y, ys !! i = Some y ∧ f x = Py.ok y.
Proof.
  revert ys. induction l as [|x l IH]; intros ys Hrun; simpl in Hrun.
  - injection Hrun as <-. split; [done|]. intros i x Hi. by rewrite lookup_nil in Hi.
  - destruct (f x) as [e|y] eqn:Hfx; [py_simpl; discriminate|].
    destruct (Py.mapM f l) as [e|ys'] eqn:Hrest; [py_simpl; discriminate|].
    py_simpl. injection Hrun as <-.
    destruct (IH ys' eq_refl) as [Hlen Hall]. split; [simpl; lia|].
    intros [|i] x' Hi; simpl in Hi.
    + injection Hi as <-. by exists y.
    + by apply Hall.
Qed.

Lemma collect_lookup {RNG A B} (turn : RNG → A → Py.result (B * RNG))
    (l : list A) : ∀ (rng rng' : RNG) (ys : list B),
  SimpleAnalysis.collect turn rng l = Py.ok (ys, rng') →
  length ys = length l
  ∧ ∀ i x, l !! i = Some x →
      ∃ y g g', ys !! i = Some y ∧ turn g x = Py.ok (y, g').
Proof.
  induction l as [|x l IH]; intros rng rng' ys Hrun; simpl in Hrun.
  - injection Hrun as <- <-. split; [done|]. intros i x Hi. by rewrite lookup_nil in Hi.
  - destruct (turn rng x) as [e|[y g1]] eqn:Hturn; [py_simpl; discriminate|].
    py_simpl.
    destruct (SimpleAnalysis.collect turn g1 l) as [e|[ys' g2]] eqn:Hrest;
      [discriminate|].
    injection Hrun as <- <-.
    destruct (IH g1 g2 ys' Hrest) as [Hlen Hall]. split; [simpl; lia|].
    intros [|i] x' Hi; simpl in Hi.
    + injection Hi as <-. by exists y, rng, g1.
    + by apply Hall.
Qed.

(** A loop whose every turn returns the same value, whatever the state. *)
Lemma collect_constant {RNG A B} (turn : RNG → A → Py.result (B * RNG))
    (v : B) (l : list A) :
  (∀ g x, ∃ g', turn g x = Py.ok (v, g')) →
  ∀ rng, ∃ rng', SimpleAnalysis.collect turn rng l
                 = Py.ok (replicate (length l) v, rng').
Proof.
  intros Hturn. induction l as [|x l IH]; intros rng; simpl.
  - by exists rng.
  - destruct (Hturn rng x) as [g1 ->]. py_simpl.
    destruct (IH g1) as [g2 ->]. by exists g2.
Qed.

Lemma dict_of_items_fmap_lookup {V} (f : string → V) (names : list string)
    (name : string) (v : V) :
  Py.dict_of_items ((λ label, (label, f label)) <$> names) !! name = Some v →
  v = f name ∧ name ∈ names.
Proof.
  unfold Py.dict_of_items.
  induction names as [|x names IH] using rev_ind; simpl.
  - by rewrite lookup_empty.
  - rewrite fmap_app, foldl_app. simpl.
    destruct (decide (x = name)) as [->|Hne].
    + rewrite lookup_insert_eq. intros [= <-]. split; [done|].
      apply elem_of_app. right. apply list_elem_of_here.
    + rewrite lookup_insert_ne by done. intros [-> ?]%IH. split; [done|].
      apply elem_of_app. by left.
Qed.

End LoopFacts.

Section AnalysisFacts.
Import SimpleAnalysis.
Local Open Scope R_scope.

Context {params : Type} `{EqDecision params}.
Variables L_x L_y : params → R.
Context {RNG : Type}.
Variable default_rng : Z → RNG.
Variable rng_choice : RNG → list string → nat → Py.result (list string * RNG).
Variable sort_keys : list (params * R) → list (params * R).

Implicit Types (self : t (params := params)) (row : estimates_row (params := params)).

Lemma dict_of_items_fmap_is_Some {V} (f : string → V) (names : list string)
    (name : string) :
  name ∈ names → Py.dict_of_items ((λ label, (label, f label)) <$> names) !! name
                 = Some (f name).
Proof.
  unfold Py.dict_of_items.
  induction names as [|x names IH] using rev_ind; [by intros ?%elem_of_nil|].
  rewrite fmap_app, foldl_app. simpl. intros Hin.
  destruct (decide (x = name)) as [->|Hne].
  - by rewrite lookup_insert_eq.
  - rewrite lookup_insert_ne by done. apply IH.
    apply elem_of_app in Hin as [?|Hx%list_elem_of_singleton]; [done|congruence].
Qed.

(** What the bootstrap of one row computes from one resampled set of hashes. *)
Lemma resample_turn_spec row hashes frame (g g' : RNG) (j : nat) (v : Np.float) :
  resample_turn rng_choice (k_min_of L_x L_y row) hashes frame g j = Py.ok (v, g') →
  ∃ resampled_hashes rows,
    rng_choice g hashes (length hashes) = Py.ok (resampled_hashes, g')
    ∧ loc frame resampled_hashes = Py.ok rows
    ∧ v = spec_correlation_length (L_x (row_params row)) (L_y (row_params row))
            (pd_mean ((λ r, res_observable r "Susceptibility0") <$> rows))
            (pd_mean ((λ r, res_observable r "Susceptibilitykmin") <$> rows)).
Proof.
  unfold resample_turn. intros Hrun.
  destruct (rng_choice g hashes (length hashes)) as [e|[resampled g1]] eqn:Hchoice;
    [py_simpl; discriminate|].
  unfold mbind at 1, Py.result_bind at 1, Py.bind at 1 in Hrun.
  destruct (loc frame resampled) as [e|rows] eqn:Hloc; [py_simpl; discriminate|].
  unfold mbind, Py.result_bind, Py.bind, Py.ok in Hrun.
  exists resampled, rows. split_and!; [unfold Py.ok; congruence|done|].
  rewrite <- correlation_length_expression. unfold k_min_of in Hrun. congruence.
Qed.

Lemma row_turn_spec self n_resamp k_min (g g' : RNG) i row unc :
  k_min !! i = Some (k_min_of L_x L_y row) →
  row_turn rng_choice self n_resamp k_min g (i, row) = Py.ok (unc, g') →
  ∃ samples,
    length samples = n_resamp
    ∧ unc = Np.std samples
    ∧ ∀ j v, samples !! j = Some v →
        ∃ g1 g2 resampled_hashes rows,
          rng_choice g1 (hashes_of self row) (length (hashes_of self row))
          = Py.ok (resampled_hashes, g2)
          ∧ loc (filtered_results_of self row) resampled_hashes = Py.ok rows
          ∧ v = spec_correlation_length (L_x (row_params row)) (L_y (row_params row))
                  (pd_mean ((λ r, res_observable r "Susceptibility0") <$> rows))
                  (pd_mean ((λ r, res_observable r "Susceptibilitykmin") <$> rows)).
Proof.
  intros Hk. unfold row_turn, Py.getitem. rewrite Hk.
  unfold mbind at 1, Py.result_bind at 1, Py.bind at 1, Py.ok at 1.
  intros Hrun.
  destruct (collect _ g (seq 0 n_resamp)) as [e|[samples g1]] eqn:Hloop;
    [py_simpl; discriminate|].
  unfold mbind, Py.result_bind, Py.bind, Py.ok in Hrun.
  apply collect_lookup in Hloop as [Hlen Hall]. rewrite length_seq in Hlen.
  exists samples. split_and!; [done|congruence|].
  intros j v Hj.
  destruct (Hall j j) as (v' & g2 & g3 & Hv' & Hturn).
  { apply lookup_seq. split; [done|]. apply lookup_lt_Some in Hj. lia. }
  assert (v' = v) as -> by congruence.
  apply resample_turn_spec in Hturn as (resampled & rows & ? & ? & ?).
  by exists g2, g3, resampled, rows.
Qed.

(** [estimate_correlation_length] row by row. *)
Lemma estimate_correlation_length_rows self n_resamp self' :
  estimate_correlation_length L_x L_y default_rng rng_choice self n_resamp = Py.ok self' →
  observable_names self' = observable_names self
  ∧ results_df self' = results_df self
  ∧ inputs_df self' = inputs_df self
  ∧ length (estimates self') = length (estimates self)
  ∧ ∀ i row, estimates self !! i = Some row →
      ∃ point unc (g g' : RNG),
        point_estimate L_x L_y row = Py.ok point
        ∧ row_turn rng_choice self n_resamp (k_min_of L_x L_y <$> estimates self) g (i, row)
          = Py.ok (unc, g')
        ∧ estimates self' !! i = Some (set_correlation_length row (point, unc)).
Proof.
  unfold estimate_correlation_length. intros Hrun.
  destruct (Py.mapM (point_estimate L_x L_y) (estimates self)) as [e|points] eqn:Hpoints;
    [py_simpl; discriminate|].
  unfold mbind at 1, Py.result_bind at 1, Py.bind at 1 in Hrun.
  destruct (collect _ (default_rng 0%Z) (Py.enumerate (estimates self)))
    as [e|[uncs g1]] eqn:Hloop; [py_simpl; discriminate|].
  unfold mbind, Py.result_bind, Py.bind, Py.ok in Hrun.
  assert (self' = {| observable_names := observable_names self;
                     results_df := results_df self;
                     inputs_df := inputs_df self;
                     estimates := zip_with set_correlation_length (estimates self)
                                    (zip points uncs) |}) as -> by congruence.
  cbn [observable_names results_df inputs_df estimates].
  apply mapM_lookup in Hpoints as [Hlenp Hpoints].
  apply collect_lookup in Hloop as [Hlenu Hloop].
  unfold Py.enumerate in Hlenu, Hloop. rewrite length_imap in Hlenu.
  split_and!; [done..| |].
  - rewrite length_zip_with, length_zip. lia.
  - intros i row Hi.
    destruct (Hpoints i row Hi) as (point & Hpi & Hpoint).
    destruct (Hloop i (i, row)) as (unc & g & g' & Hui & Hturn).
    { by rewrite list_lookup_imap, Hi. }
    exists point, unc, g, g'. split_and!; [done..|].
    apply lookup_zip_with_Some. exists row, (point, unc). split_and!; [done..|].
    by apply lookup_zip_Some.
Qed.

Lemma mapM_succeeds {A B} (f : A → Py.result B) (l : list A) :
  Forall (λ x, Py.is_ok (f x)) l → ∃ ys, Py.mapM f l = Py.ok ys.
Proof.
  induction 1 as [|x l Hx _ [ys IH]]; [by exists []|]. simpl.
  destruct (f x) as [e|y]; [done|]. rewrite IH. by eexists.
Qed.

Lemma collect_succeeds {A B} (turn : RNG → A → Py.result (B * RNG)) (l : list A) :
  Forall (λ x, ∀ g, ∃ y g', turn g x = Py.ok (y, g')) l →
  ∀ g, ∃ ys g', collect turn g l = Py.ok (ys, g').
Proof.
  induction 1 as [|x l Hx _ IH]; intros g; [by exists [], g|]. simpl.
  destruct (Hx g) as (y & g1 & ->). py_simpl.
  destruct (IH g1) as (ys & g2 & ->). by eexists _, _.
Qed.

Lemma estimate_correlation_length_succeeds self n_resamp :
  Forall (λ row, Py.is_ok (point_estimate L_x L_y row)) (estimates self) →
  Forall (λ item, ∀ g : RNG, ∃ unc g',
            row_turn rng_choice self n_resamp (k_min_of L_x L_y <$> estimates self) g item
            = Py.ok (unc, g'))
         (Py.enumerate (estimates self)) →
  ∃ self', estimate_correlation_length L_x L_y default_rng rng_choice self n_resamp
           = Py.ok self'.
Proof.
  intros [points Hpoints]%mapM_succeeds Hturns.
  destruct (collect_succeeds _ _ Hturns (default_rng 0%Z)) as (uncs & g' & Hloop).
  unfold estimate_correlation_length. rewrite Hpoints.
  unfold mbind at 1, Py.result_bind at 1, Py.bind at 1, Py.ok at 1.
  rewrite Hloop. by eexists.
Qed.

Lemma loc_succeeds (frame : list result_row) (labels : list string) :
  Forall (λ h, filter (λ r, res_hash r = h) frame ≠ []) labels →
  ∃ rows, loc frame labels = Py.ok rows.
Proof.
  intros Hall. unfold loc.
  destruct (mapM_succeeds
              (λ label, match filter (λ r, res_hash r = label) frame with
                        | [] => Py.raise Py.KeyError
                        | rows => Py.ok rows
                        end) labels) as [rows ->].
  - eapply Forall_impl; [exact Hall|]. intros h Hh. simpl in Hh.
    by destruct (filter (λ r, res_hash r = h) frame).
  - by eexists.
Qed.

Lemma Forall_enumerate {A} (P : nat * A → Prop) (l : list A) :
  (∀ i x, l !! i = Some x → P (i, x)) → Forall P (Py.enumerate l).
Proof.
  intros HP. apply Forall_lookup. intros i [j x]. unfold Py.enumerate.
  rewrite list_lookup_imap. destruct (l !! i) as [y|] eqn:Hi; [|done].
  intros [= <- <-]. by apply HP.
Qed.

(** The bootstrap returns when the generator draws from the population it is
    given and every hash of a row has a result at the [tau] of the row. *)
Lemma estimate_correlation_length_total self n_resamp :
  (∀ (g : RNG) a, ∃ drawn g',
     rng_choice g a (length a) = Py.ok (drawn, g') ∧ ∀ h, h ∈ drawn → h ∈ a) →
  (∀ row, row ∈ estimates self →
     is_Some (row_observables row !! "Susceptibility0")
     ∧ is_Some (row_observables row !! "Susceptibilitykmin")
     ∧ ∀ h, h ∈ hashes_of self row →
         filter (λ r, res_hash r = h) (filtered_results_of self row) ≠ []) →
  ∃ self', estimate_correlation_length L_x L_y default_rng rng_choice self n_resamp
           = Py.ok self'.
Proof.
  intros Hrng Hrows. apply estimate_correlation_length_succeeds.
  - apply Forall_forall. intros row (Hs0 & Hsk & _)%Hrows.
    unfold point_estimate, estimate_column.
    destruct Hs0 as [e0 ->], Hsk as [ek ->]. done.
  - apply Forall_enumerate. intros i row Hi g.
    assert (row ∈ estimates self) as (_ & _ & Hres)%Hrows
      by (by eapply list_elem_of_lookup_2).
    unfold row_turn, Py.getitem. rewrite list_lookup_fmap, Hi. simpl.
    unfold mbind at 1, Py.result_bind at 1, Py.bind at 1, Py.ok at 1.
    edestruct (collect_succeeds
                 (resample_turn rng_choice (k_min_of L_x L_y row) (hashes_of self row)
                    (filtered_results_of self row))
                 (seq 0 n_resamp)) as (samples & g' & ->); [|by eexists _, _].
    apply Forall_forall. intros j _ g1. unfold resample_turn.
    destruct (Hrng g1 (hashes_of self row)) as (drawn & g2 & -> & Hdrawn).
    unfold mbind at 1, Py.result_bind at 1, Py.bind at 1, Py.ok at 1.
    destruct (loc_succeeds (filtered_results_of self row) drawn) as [rows ->].
    { apply Forall_forall. intros h Hh. by apply Hres, Hdrawn. }
    by eexists _, _.
Qed.

(** A comprehension whose body can only raise [e] raises [e] as soon as the
    body raises on one item. *)
Lemma mapM_raises {A B} (f : A → Py.result B) (e : Py.exn) (l : list A) (x : A) :
  (∀ y e', f y = Py.raise e' → e' = e) →
  x ∈ l → ¬ Py.is_ok (f x) → Py.mapM f l = Py.raise e.
Proof.
  intros Honly Hx Hbad. induction l as [|y l IH]; [by apply elem_of_nil in Hx|].
  simpl. destruct (f y) as [e'|b] eqn:Hy.
  - by rewrite (Honly y e' Hy).
  - apply elem_of_cons in Hx as [->|Hx]; [by rewrite Hy in Hbad|].
    unfold mbind, Py.result_bind, Py.bind. cbv beta iota. by rewrite (IH Hx).
Qed.

Lemma collect_raises_first {A B} (turn : RNG → A → Py.result (B * RNG)) (g : RNG)
    (x : A) (l : list A) (e : Py.exn) :
  turn g x = Py.raise e → collect turn g (x :: l) = Py.raise e.
Proof. intros Hturn. cbn [collect]. by rewrite Hturn. Qed.

Lemma point_estimate_raises row (e : Py.exn) :
  point_estimate L_x L_y row = Py.raise e → e = Py.KeyError.
Proof.
  unfold point_estimate, estimate_column.
  destruct (row_observables row !! "Susceptibility0"); [|by intros [= <-]].
  destruct (row_observables row !! "Susceptibilitykmin"); [done|by intros [= <-]].
Qed.

Lemma loc_raises (frame : list result_row) (labels : list string) (h : string) :
  h ∈ labels → filter (λ r, res_hash r = h) frame = [] →
  loc frame labels = Py.raise Py.KeyError.
Proof.
  intros Hh Hnone. unfold loc.
  rewrite (mapM_raises _ Py.KeyError labels h); [done| |done|rewrite Hnone; by intros []].
  intros y e'. destruct (filter (λ r, res_hash r = y) frame); [|done].
  unfold Py.raise. by intros [= <-].
Qed.

(** [frame.loc[labels]], when it returns, is the rows of each label in turn,
    and every label has a row. *)
Lemma loc_spec (frame : list result_row) (labels : list string) rows :
  loc frame labels = Py.ok rows →
  rows = labels ≫= (λ h, filter (λ r, res_hash r = h) frame)
  ∧ ∀ h, h ∈ labels → filter (λ r, res_hash r = h) frame ≠ [].
Proof.
  unfold loc. intros Hrun.
  destruct (Py.mapM _ labels) as [e|groups] eqn:Hmap; [py_simpl; discriminate|].
  unfold mbind, Py.result_bind, Py.bind, Py.ok in Hrun. injection Hrun as <-.
  revert groups Hmap. induction labels as [|h labels IH]; intros groups Hmap.
  - injection Hmap as <-. split; [done|]. by intros h ?%elem_of_nil.
  - cbn [Py.mapM] in Hmap.
    destruct (filter (λ r, res_hash r = h) frame) as [|r group] eqn:Hh;
      [py_simpl; discriminate|].
    unfold mbind at 1, Py.result_bind at 1, Py.bind at 1, Py.ok at 1 in Hmap.
    destruct (Py.mapM _ labels) as [e|groups'] eqn:Hrest; [py_simpl; discriminate|].
    unfold mbind, Py.result_bind, Py.bind, Py.ok in Hmap. injection Hmap as <-.
    destruct (IH groups' eq_refl) as [Heq Hne]. split.
    + csimpl. by rewrite Hh, Heq.
    + intros h' [->|Hin]%elem_of_cons; [by rewrite Hh|by apply Hne].
Qed.

(** The bootstrap raises [KeyError] when the first draw of the first row
    holds a hash that has no result at the [tau] of the row. *)
Lemma first_draw_key_error self (n_resamp : nat) row rest drawn (g' : RNG) (h : string) :
  estimates self = row :: rest →
  (∀ row', row' ∈ estimates self →
     is_Some (row_observables row' !! "Susceptibility0")
     ∧ is_Some (row_observables row' !! "Susceptibilitykmin")) →
  (0 < n_resamp)%nat →
  rng_choice (default_rng 0) (hashes_of self row) (length (hashes_of self row))
  = Py.ok (drawn, g') →
  h ∈ drawn →
  filter (λ r, res_hash r = h) (filtered_results_of self row) = [] →
  estimate_correlation_length L_x L_y default_rng rng_choice self n_resamp
  = Py.raise Py.KeyError.
Proof.
  intros Hest Hcolumns Hn Hdraw Hh Hnone.
  unfold estimate_correlation_length.
  destruct (mapM_succeeds (point_estimate L_x L_y) (estimates self)) as [points ->].
  { apply Forall_forall. intros row' [[e0 H0] [ek Hk]]%Hcolumns.
    unfold point_estimate, estimate_column. by rewrite H0, Hk. }
  assert (resample_turn rng_choice (k_min_of L_x L_y row) (hashes_of self row)
            (filtered_results_of self row) (default_rng 0) 0%nat
          = Py.raise Py.KeyError) as Hturn.
  { unfold resample_turn. rewrite Hdraw. bind_step.
    by rewrite (loc_raises _ drawn h Hh Hnone). }
  assert (row_turn rng_choice self n_resamp (k_min_of L_x L_y <$> row :: rest)
            (default_rng 0) (0%nat, row)
          = Py.raise Py.KeyError) as Hrow.
  { unfold row_turn, Py.getitem. cbn [fmap list_fmap lookup list_lookup].
    destruct n_resamp as [|n]; [lia|]. cbn [seq]. bind_step.
    rewrite (collect_raises_first _ _ _ _ _ Hturn). by bind_step. }
  rewrite Hest. unfold Py.enumerate. rewrite imap_cons. bind_step.
  rewrite (collect_raises_first _ _ _ _ _ Hrow). by bind_step.
Qed.

(** The formula at two numbers and at a NaN. *)
Lemma correlation_length_value (Lx Ly s0 sk : R) :
  spec_defined Lx Ly sk →
  spec_correlation_length Lx Ly (Some s0) (Some sk)
  = Some (spec_CorrelationLength (spec_k_min Lx Ly) s0 sk).
Proof. intros Hdef. unfold spec_correlation_length. simpl. by rewrite decide_True. Qed.

Lemma correlation_length_nan (Lx Ly : R) (s0 sk : Np.float) :
  s0 = None ∨ sk = None → spec_correlation_length Lx Ly s0 sk = None.
Proof. intros [-> | ->]; [done|]. by destruct s0. Qed.

(** What [estimate_correlation_length] stores in a row: the point estimate
    is the formula at the two susceptibility estimates of the row, and the
    uncertainty is the standard deviation of [n_resamp] samples, each of
    them the formula at the means of the two susceptibilities over the
    results of the hashes of one draw. *)
Lemma bootstrap_samples self n_resamp self' i row :
  estimate_correlation_length L_x L_y default_rng rng_choice self n_resamp = Py.ok self' →
  estimates self !! i = Some row →
  let Lx := L_x (row_params row) in
  let Ly := L_y (row_params row) in
  let hashes := hashes_of self row in
  let frame := filtered_results_of self row in
  ∃ e0 ek samples,
    row_observables row !! "Susceptibility0" = Some e0
    ∧ row_observables row !! "Susceptibilitykmin" = Some ek
    ∧ estimates self' !! i
      = Some (set_correlation_length row
                (spec_correlation_length Lx Ly (_estimate e0) (_estimate ek),
                 Np.std samples))
    ∧ length samples = n_resamp
    ∧ ∀ j v, samples !! j = Some v →
        ∃ (g g' : RNG) resampled_hashes,
          rng_choice g hashes (length hashes) = Py.ok (resampled_hashes, g')
          ∧ (∀ h, h ∈ resampled_hashes → ∃ r, r ∈ frame ∧ res_hash r = h)
          ∧ let rows := resampled_hashes ≫= (λ h, filter (λ r, res_hash r = h) frame) in
            v = spec_correlation_length Lx Ly
                  (pd_mean ((λ r, res_observable r "Susceptibility0") <$> rows))
                  (pd_mean ((λ r, res_observable r "Susceptibilitykmin") <$> rows)).
Proof.
  intros Hrun Hi Lx Ly hashes frame.
  destruct (estimate_correlation_length_rows self n_resamp self' Hrun)
    as (_ & _ & _ & _ & Hrows).
  destruct (Hrows i row Hi) as (point & unc & g & g' & Hpoint & Hturn & Hi').
  apply row_turn_spec in Hturn as (samples & Hlen & -> & Hsamples);
    [|by rewrite list_lookup_fmap, Hi].
  unfold point_estimate, estimate_column in Hpoint.
  destruct (row_observables row !! "Susceptibility0") as [e0|];
    [|py_simpl; discriminate].
  unfold mbind at 1, Py.result_bind at 1, Py.bind at 1, Py.ok at 1 in Hpoint.
  destruct (row_observables row !! "Susceptibilitykmin") as [ek|];
    [|py_simpl; discriminate].
  unfold mbind, Py.result_bind, Py.bind, Py.ok in Hpoint.
  unfold k_min_of in Hpoint. rewrite correlation_length_expression in Hpoint.
  injection Hpoint as <-.
  exists e0, ek, samples. split_and!; [done..|].
  intros j v Hv.
  destruct (Hsamples j v Hv) as (g1 & g2 & resampled & rows & Hchoice & Hloc & ->).
  apply loc_spec in Hloc as [-> Hfound].
  exists g1, g2, resampled. split_and!; [done| |done].
  intros h Hh. destruct (filter (λ r, res_hash r = h) frame) as [|r rest] eqn:Hfilter.
  - by destruct (Hfound h Hh).
  - exists r.
    assert (r ∈ filter (λ r, res_hash r = h) frame) as Hr by (rewrite Hfilter; left).
    by apply list_elem_of_filter in Hr as [? ?].
Qed.

(** C6.  For every estimates row, [estimate_correlation_length] computes
    [k_min = 2*pi / max(L_x, L_y)] and the point estimate
    [CorrelationLength = 1/(2*sin(k_min/2)) * sqrt(|Susceptibility0_estimate /
    Susceptibilitykmin_estimate - 1|)] from the two estimates stored in the
    row (NaN when one of them is NaN); the bootstrap takes [n_resamp]
    samples, each of them the same formula at the disorder means of the two
    susceptibilities over the results of one resampled set of hashes (the
    rows of the raw results at the [tau] of the row, for each drawn hash in
    turn; NaN when no cell of a susceptibility holds a number), and reports
    their standard deviation.  The values are stated where none of the
    three divisors of the formula vanishes.  The function returns whenever
    the two susceptibility columns exist, the generator draws from the
    hashes it is given and each of them has a result at the [tau] of its
    row. *)
Theorem correlation_length_formula self n_resamp :
  (∀ self',
     estimate_correlation_length L_x L_y default_rng rng_choice self n_resamp
     = Py.ok self' →
     length (estimates self') = length (estimates self)
     ∧ ∀ i row, estimates self !! i = Some row →
       let Lx := L_x (row_params row) in
       let Ly := L_y (row_params row) in
       let hashes :=
         in_hash <$> filter (λ inp, in_params inp = row_params row) (inputs_df self) in
       let frame :=
         filter (λ r, res_hash r ∈ hashes ∧ res_tau r = row_tau row) (results_df self) in
       ∃ row' e0 ek samples,
         estimates self' !! i = Some row'
         ∧ (row_params row', row_tau row', row_observables row')
           = (row_params row, row_tau row, row_observables row)
         ∧ (Rmax Lx Ly ≠ 0 → k_min_of L_x L_y row = Some (spec_k_min Lx Ly))
         ∧ row_observables row !! "Susceptibility0" = Some e0
         ∧ row_observables row !! "Susceptibilitykmin" = Some ek
         ∧ (∀ s0 sk, _estimate e0 = Some s0 → _estimate ek = Some sk →
              spec_defined Lx Ly sk →
              CorrelationLength_estimate row'
              = Some (Some (spec_CorrelationLength (spec_k_min Lx Ly) s0 sk)))
         ∧ (_estimate e0 = None ∨ _estimate ek = None →
            CorrelationLength_estimate row' = Some None)
         ∧ length samples = n_resamp
         ∧ (∀ j v, samples !! j = Some v →
              ∃ (g g' : RNG) resampled_hashes,
                rng_choice g hashes (length hashes) = Py.ok (resampled_hashes, g')
                ∧ (∀ h, h ∈ resampled_hashes → ∃ r, r ∈ frame ∧ res_hash r = h)
                ∧ let rows :=
                    resampled_hashes ≫= (λ h, filter (λ r, res_hash r = h) frame) in
                  let values0 := omap (λ r, res_observable r "Susceptibility0") rows in
                  let valuesk := omap (λ r, res_observable r "Susceptibilitykmin") rows in
                  (values0 ≠ [] → valuesk ≠ [] →
                   spec_defined Lx Ly (spec_mean valuesk) →
                   v = Some (spec_CorrelationLength (spec_k_min Lx Ly)
                               (spec_mean values0) (spec_mean valuesk)))
                  ∧ (values0 = [] ∨ valuesk = [] → v = None))
         ∧ CorrelationLength_uncertainty row' = Some (Np.std samples)
         ∧ (∀ values, samples = Some <$> values → values ≠ [] →
              CorrelationLength_uncertainty row' = Some (Some (spec_std values)))
         ∧ (None ∈ samples ∨ samples = [] →
            CorrelationLength_uncertainty row' = Some None))
  ∧ ((∀ (g : RNG) a, ∃ drawn g',
        rng_choice g a (length a) = Py.ok (drawn, g') ∧ ∀ h, h ∈ drawn → h ∈ a) →
     (∀ row, row ∈ estimates self →
        is_Some (row_observables row !! "Susceptibility0")
        ∧ is_Some (row_observables row !! "Susceptibilitykmin")
        ∧ ∀ h, h ∈ hashes_of self row →
            filter (λ r, res_hash r = h) (filtered_results_of self row) ≠ []) →
     ∃ self', estimate_correlation_length L_x L_y default_rng rng_choice self n_resamp
              = Py.ok self').
Proof.
  split; [|apply estimate_correlation_length_total].
  intros self' Hrun.
  split; [by destruct (estimate_correlation_length_rows self n_resamp self' Hrun)
            as (_ & _ & _ & ? & _)|].
  intros i row Hi Lx Ly hashes frame.
  destruct (bootstrap_samples self n_resamp self' i row Hrun Hi)
    as (e0 & ek & samples & H0 & Hk & Hi' & Hlen & Hsamples).
  eexists _, e0, ek, samples. split; [exact Hi'|].
  cbn [set_correlation_length row_params row_tau row_observables
       CorrelationLength_estimate CorrelationLength_uncertainty fst snd].
  split_and!; try done.
  - intros Hmax. unfold k_min_of, Np.fdiv, Np.fmul, Np.pi, spec_k_min. simpl.
    by rewrite decide_False.
  - intros s0 sk -> -> Hdef. f_equal. by apply correlation_length_value.
  - intros Hnan. f_equal. by apply correlation_length_nan.
  - intros j v Hv.
    destruct (Hsamples j v Hv) as (g & g' & resampled & Hchoice & Hfound & Hvalue).
    exists g, g', resampled. split; [exact Hchoice|]. split; [exact Hfound|].
    cbv zeta.
    set (rows := resampled ≫= (λ h, filter (λ r, res_hash r = h) frame)).
    change (v = spec_correlation_length Lx Ly
                  (pd_mean ((λ r, res_observable r "Susceptibility0") <$> rows))
                  (pd_mean ((λ r, res_observable r "Susceptibilitykmin") <$> rows)))
      in Hvalue.
    subst v. unfold pd_mean. rewrite !dropna_fmap. split.
    + intros Hne0 Hnek Hdef. rewrite !mean_numbers by done.
      by apply correlation_length_value.
    + intros Hnil. apply correlation_length_nan.
      destruct Hnil as [-> | ->]; [left|right]; apply mean_no_number.
  - intros values -> Hne. f_equal. by apply std_numbers.
  - intros [Hnan| ->]; f_equal; [by apply std_nan|apply std_nil].
Qed.

(** The cells of the results the bootstrap of a row reads are cells of the
    group of the row. *)
Lemma frame_cell_in_group self row (label : string) r (x : R) :
  r ∈ filtered_results_of self row →
  res_observable r label = Some x →
  x ∈ dropna (group_column (merge (inputs_df self) (results_df self)) label
                (row_params row, row_tau row)).
Proof.
  unfold filtered_results_of, hashes_of.
  intros [[Hhash Htau] Hr]%list_elem_of_filter Hcell.
  apply list_elem_of_fmap in Hhash as (inp & Hh & [Hp Hinp]%list_elem_of_filter).
  unfold group_column. rewrite dropna_fmap. apply list_elem_of_omap.
  exists (inp, r). split; [|done].
  apply list_elem_of_filter. split; [unfold group_key; simpl; congruence|].
  unfold merge. apply list_elem_of_bind. exists inp. split; [|done].
  apply list_elem_of_bind. exists r. split; [left|].
  by apply list_elem_of_filter.
Qed.

(** In a column with at most one number, the numbers of any cells taken
    from the column have the mean of the column. *)
Lemma degenerate_mean (column cells : list Np.float) :
  (pd_count column ≤ 1)%nat →
  (∀ x, x ∈ dropna cells → x ∈ dropna column) →
  dropna cells ≠ [] →
  ∃ s, (∀ x, x ∈ dropna cells → x = s)
       ∧ pd_mean column = Some s ∧ pd_mean cells = Some s.
Proof.
  unfold pd_count. intros Hcount Hsub Hne.
  assert (∃ s, dropna column = [s]) as [s Hcol].
  { destruct (dropna cells) as [|c cs]; [done|].
    destruct (dropna column) as [|s [|]]; [|by exists s|simpl in Hcount; lia].
    specialize (Hsub c). rewrite elem_of_nil in Hsub. destruct Hsub. left. }
  exists s. rewrite Hcol in Hsub.
  assert (∀ x, x ∈ dropna cells → x = s) as Hall
    by (by intros x ?%Hsub%list_elem_of_singleton).
  split_and!; [done|..].
  - rewrite pd_mean_numbers by (by rewrite Hcol). rewrite Hcol. f_equal.
    apply spec_mean_constant; [done|]. by intros x ->%list_elem_of_singleton.
  - rewrite pd_mean_numbers by done. f_equal. by apply spec_mean_constant.
Qed.

(** The bootstrap on a group with at most one disorder realization: every
    sample that is a number is the point estimate. *)
Lemma degenerate_bootstrap self (n_resamp : nat) self' (i : nat) row e0 ek :
  estimate_correlation_length L_x L_y default_rng rng_choice
    (estimate_observables sort_keys self) n_resamp = Py.ok self' →
  estimates (estimate_observables sort_keys self) !! i = Some row →
  row_observables row !! "Susceptibility0" = Some e0 →
  row_observables row !! "Susceptibilitykmin" = Some ek →
  (_n_disorders e0 ≤ 1)%nat → (_n_disorders ek ≤ 1)%nat →
  let Lx := L_x (row_params row) in
  let Ly := L_y (row_params row) in
  let hashes :=
    in_hash <$> filter (λ inp, in_params inp = row_params row) (inputs_df self) in
  let frame :=
    filter (λ r, res_hash r ∈ hashes ∧ res_tau r = row_tau row) (results_df self) in
  ∃ row' samples,
    estimates self' !! i = Some row'
    ∧ length samples = n_resamp
    ∧ CorrelationLength_uncertainty row' = Some (Np.std samples)
    ∧ (∀ j v, samples !! j = Some v →
         ∃ (g g' : RNG) resampled_hashes,
           rng_choice g hashes (length hashes) = Py.ok (resampled_hashes, g')
           ∧ (∀ h, h ∈ resampled_hashes → ∃ r, r ∈ frame ∧ res_hash r = h)
           ∧ let rows :=
               resampled_hashes ≫= (λ h, filter (λ r, res_hash r = h) frame) in
             let values0 := omap (λ r, res_observable r "Susceptibility0") rows in
             let valuesk := omap (λ r, res_observable r "Susceptibilitykmin") rows in
             (values0 = [] ∨ valuesk = [] → v = None)
             ∧ (values0 ≠ [] → valuesk ≠ [] →
                Some v = CorrelationLength_estimate row')
             ∧ (∀ s0 sk, s0 ∈ values0 → sk ∈ valuesk → spec_defined Lx Ly sk →
                  v = Some (spec_CorrelationLength (spec_k_min Lx Ly) s0 sk)))
    ∧ (None ∈ samples ∨ n_resamp = 0%nat →
       CorrelationLength_uncertainty row' = Some None)
    ∧ (None ∉ samples → (0 < n_resamp)%nat →
       ∃ x u, CorrelationLength_estimate row' = Some (Some x)
              ∧ samples = replicate n_resamp (Some x)
              ∧ CorrelationLength_uncertainty row' = Some (Some u)).
Proof.
  intros Hrun Hi H0 Hk Hn0 Hnk Lx Ly hashes frame.
  destruct (bootstrap_samples _ n_resamp self' i row Hrun Hi)
    as (e0' & ek' & samples & H0' & Hk' & Hi' & Hlen & Hsamples).
  rewrite H0 in H0'. injection H0' as <-. rewrite Hk in Hk'. injection Hk' as <-.
  fold Lx Ly in Hi'.
  change (hashes_of (estimate_observables sort_keys self) row) with hashes in Hsamples.
  change (filtered_results_of (estimate_observables sort_keys self) row)
    with frame in Hsamples.
  (* the row is the row of a group: its estimates are the means of the group *)
  set (df := merge (inputs_df self) (results_df self)).
  set (key := (row_params row, row_tau row)).
  assert (_estimate e0 = pd_mean (group_column df "Susceptibility0" key)
          ∧ _n_disorders e0 = pd_count (group_column df "Susceptibility0" key)
          ∧ _estimate ek = pd_mean (group_column df "Susceptibilitykmin" key)
          ∧ _n_disorders ek = pd_count (group_column df "Susceptibilitykmin" key))
    as (He0 & Hc0 & Hek & Hck).
  { unfold estimate_observables in Hi. cbn [estimates] in Hi.
    rewrite list_lookup_fmap in Hi.
    destruct (sort_keys _ !! i) as [[p tau]|]; [|done]. injection Hi as <-.
    cbn [row_observables] in H0, Hk.
    apply dict_of_items_fmap_lookup in H0 as [-> _].
    apply dict_of_items_fmap_lookup in Hk as [-> _]. done. }
  rewrite Hc0 in Hn0. rewrite Hck in Hnk.
  assert (∀ label r x, r ∈ frame → res_observable r label = Some x →
            x ∈ dropna (group_column df label key)) as Hcells.
  { intros label r x Hr Hx.
    by apply (frame_cell_in_group (estimate_observables sort_keys self) row label r x). }
  assert (∀ label resampled x,
            x ∈ dropna ((λ r, res_observable r label)
                        <$> (resampled ≫= (λ h, filter (λ r, res_hash r = h) frame))) →
            x ∈ dropna (group_column df label key)) as Hsub.
  { intros label resampled x. rewrite dropna_fmap.
    intros (r & Hr & Hx)%list_elem_of_omap. apply (Hcells label r x); [|done].
    apply list_elem_of_bind in Hr as (h & Hr & _).
    by apply list_elem_of_filter in Hr as [_ ?]. }
  set (point := spec_correlation_length Lx Ly (_estimate e0) (_estimate ek)) in *.
  assert (∀ j v, samples !! j = Some v →
         ∃ (g g' : RNG) resampled_hashes,
           rng_choice g hashes (length hashes) = Py.ok (resampled_hashes, g')
           ∧ (∀ h, h ∈ resampled_hashes → ∃ r, r ∈ frame ∧ res_hash r = h)
           ∧ let rows :=
               resampled_hashes ≫= (λ h, filter (λ r, res_hash r = h) frame) in
             let values0 := omap (λ r, res_observable r "Susceptibility0") rows in
             let valuesk := omap (λ r, res_observable r "Susceptibilitykmin") rows in
             (values0 = [] ∨ valuesk = [] → v = None)
             ∧ (values0 ≠ [] → valuesk ≠ [] → v = point)
             ∧ (∀ s0 sk, s0 ∈ values0 → sk ∈ valuesk → spec_defined Lx Ly sk →
                  v = Some (spec_CorrelationLength (spec_k_min Lx Ly) s0 sk)))
    as Hdescr.
  { intros j v Hv.
    destruct (Hsamples j v Hv) as (g & g' & resampled & Hchoice & Hfound & Hvalue).
    exists g, g', resampled. split; [exact Hchoice|]. split; [exact Hfound|].
    cbv zeta in Hvalue. cbv zeta. subst v.
    set (rows := resampled ≫= (λ h, filter (λ r, res_hash r = h) frame)).
    rewrite <- !dropna_fmap.
    set (cells0 := (λ r, res_observable r "Susceptibility0") <$> rows).
    set (cellsk := (λ r, res_observable r "Susceptibilitykmin") <$> rows).
    split_and!.
    - intros Hnil. apply correlation_length_nan.
      destruct Hnil as [Hnil|Hnil]; [left|right]; by apply pd_mean_no_number.
    - intros Hne0 Hnek.
      destruct (degenerate_mean _ cells0 Hn0 (Hsub _ resampled) Hne0)
        as (s & _ & Hcol0 & ->).
      destruct (degenerate_mean _ cellsk Hnk (Hsub _ resampled) Hnek)
        as (k & _ & Hcolk & ->).
      unfold point. by rewrite He0, Hek, Hcol0, Hcolk.
    - intros s0 sk Hs0 Hsk Hdef.
      destruct (degenerate_mean _ cells0 Hn0 (Hsub _ resampled)) as (s & Hall0 & _ & ->);
        [by intros Hnil; rewrite Hnil in Hs0; apply elem_of_nil in Hs0|].
      destruct (degenerate_mean _ cellsk Hnk (Hsub _ resampled)) as (k & Hallk & _ & ->);
        [by intros Hnil; rewrite Hnil in Hsk; apply elem_of_nil in Hsk|].
      rewrite <- (Hall0 s0 Hs0), <- (Hallk sk Hsk).
      by apply correlation_length_value. }
  eexists _, samples. split; [exact Hi'|].
  cbn [set_correlation_length CorrelationLength_estimate
       CorrelationLength_uncertainty fst snd].
  split_and!; [done|done| | |].
  - intros j v Hv.
    destruct (Hdescr j v Hv) as (g & g' & resampled & Hchoice & Hfound & Hd).
    exists g, g', resampled. split; [exact Hchoice|]. split; [exact Hfound|].
    cbv zeta in Hd. cbv zeta.
    destruct Hd as (Hnan & Hpoint & Hraw). split_and!; [done| |done].
    intros Hne0 Hnek. f_equal. by apply Hpoint.
  - intros [Hnan| ->]; f_equal; [by apply std_nan|].
    destruct samples; [apply std_nil|done].
  - intros Hnum Hpos.
    assert (∀ v, v ∈ samples → v = point) as Hall.
    { intros v [j Hv]%list_elem_of_lookup.
      destruct (Hdescr j v Hv) as (g & g' & resampled & _ & _ & Hd). cbv zeta in Hd.
      destruct Hd as (Hnan & Hpoint & _).
      destruct (omap (λ r, res_observable r "Susceptibility0") _) as [|a0 l0] eqn:E0.
      { destruct Hnum. rewrite <- (Hnan (or_introl eq_refl)).
        by eapply list_elem_of_lookup_2. }
      destruct (omap (λ r, res_observable r "Susceptibilitykmin") _) as [|ak lk] eqn:Ek.
      { destruct Hnum. rewrite <- (Hnan (or_intror eq_refl)).
        by eapply list_elem_of_lookup_2. }
      by apply Hpoint. }
    assert (samples = replicate n_resamp point) as Hsame.
    { rewrite <- Hlen. apply list_eq. intros j.
      destruct (samples !! j) as [v|] eqn:Hv.
      - rewrite (Hall v) by (by eapply list_elem_of_lookup_2).
        symmetry. apply lookup_replicate_2. by eapply lookup_lt_Some.
      - symmetry. apply lookup_replicate_None. by apply lookup_ge_None. }
    destruct point as [x|] eqn:Hx.
    + exists x, 0. split_and!; [done|done|]. rewrite Hsame. f_equal.
      by apply std_replicate.
    + destruct Hnum. rewrite Hsame. apply elem_of_replicate. split; [done|lia].
Qed.

(** C8 (as amended).  For a parameter group with zero or one disorder
    realization ([n_disorders] at most 1) [estimate_observables] reports the
    standard deviation of every observable as NaN instead of raising.
    [estimate_correlation_length] does not always complete on such a group:
    it raises [KeyError] when a draw of the bootstrap holds a hash of
    matching parameters that has no result at the [tau] of the row (here for
    the first draw of the first row), and it completes when the generator
    draws from the hashes it is given and each of them has a result there.
    When it completes, every hash it has drawn has a result, and every
    bootstrap sample of a row whose two susceptibilities have [n_disorders]
    at most 1 is NaN (no drawn result holds a number for one of the
    susceptibilities) or is the point estimate of the row, the formula at
    the one number of each susceptibility; the uncertainty it stores is the
    standard deviation of these samples: NaN when a sample is NaN or nothing
    is resampled, and otherwise the standard deviation of [n_resamp] copies
    of the point estimate, a number and not NaN. *)
Theorem degenerate_group_uncertainty self :
  (∀ row label e,
     row ∈ estimates (estimate_observables sort_keys self) →
     row_observables row !! label = Some e →
     (_n_disorders e ≤ 1)%nat → _uncertainty e = None)
  ∧ (∀ (n_resamp : nat) row rest drawn (g' : RNG) (h : string),
       let analysed := estimate_observables sort_keys self in
       estimates analysed = row :: rest →
       "Susceptibility0" ∈ observable_names self →
       "Susceptibilitykmin" ∈ observable_names self →
       (0 < n_resamp)%nat →
       rng_choice (default_rng 0) (hashes_of analysed row)
         (length (hashes_of analysed row))
       = Py.ok (drawn, g') →
       h ∈ drawn →
       filter (λ r, res_hash r = h) (filtered_results_of analysed row) = [] →
       estimate_correlation_length L_x L_y default_rng rng_choice analysed n_resamp
       = Py.raise Py.KeyError)
  ∧ (∀ (n_resamp : nat),
       let analysed := estimate_observables sort_keys self in
       (∀ (g : RNG) a, ∃ drawn g',
          rng_choice g a (length a) = Py.ok (drawn, g') ∧ ∀ h, h ∈ drawn → h ∈ a) →
       "Susceptibility0" ∈ observable_names self →
       "Susceptibilitykmin" ∈ observable_names self →
       (∀ row h, row ∈ estimates analysed → h ∈ hashes_of analysed row →
          filter (λ r, res_hash r = h) (filtered_results_of analysed row) ≠ []) →
       ∃ self',
         estimate_correlation_length L_x L_y default_rng rng_choice analysed n_resamp
         = Py.ok self')
  ∧ (∀ (n_resamp : nat) self' (i : nat) row e0 ek,
       estimate_correlation_length L_x L_y default_rng rng_choice
         (estimate_observables sort_keys self) n_resamp = Py.ok self' →
       estimates (estimate_observables sort_keys self) !! i = Some row →
       row_observables row !! "Susceptibility0" = Some e0 →
       row_observables row !! "Susceptibilitykmin" = Some ek →
       (_n_disorders e0 ≤ 1)%nat → (_n_disorders ek ≤ 1)%nat →
       let Lx := L_x (row_params row) in
       let Ly := L_y (row_params row) in
       let hashes :=
         in_hash <$> filter (λ inp, in_params inp = row_params row) (inputs_df self) in
       let frame :=
         filter (λ r, res_hash r ∈ hashes ∧ res_tau r = row_tau row) (results_df self) in
       ∃ row' samples,
         estimates self' !! i = Some row'
         ∧ length samples = n_resamp
         ∧ CorrelationLength_uncertainty row' = Some (Np.std samples)
         ∧ (∀ j v, samples !! j = Some v →
              ∃ (g g' : RNG) resampled_hashes,
                rng_choice g hashes (length hashes) = Py.ok (resampled_hashes, g')
                ∧ (∀ h, h ∈ resampled_hashes → ∃ r, r ∈ frame ∧ res_hash r = h)
                ∧ let rows :=
                    resampled_hashes ≫= (λ h, filter (λ r, res_hash r = h) frame) in
                  let values0 := omap (λ r, res_observable r "Susceptibility0") rows in
                  let valuesk := omap (λ r, res_observable r "Susceptibilitykmin") rows in
                  (values0 = [] ∨ valuesk = [] → v = None)
                  ∧ (values0 ≠ [] → valuesk ≠ [] →
                     Some v = CorrelationLength_estimate row')
                  ∧ (∀ s0 sk, s0 ∈ values0 → sk ∈ valuesk → spec_defined Lx Ly sk →
                       v = Some (spec_CorrelationLength (spec_k_min Lx Ly) s0 sk)))
         ∧ (None ∈ samples ∨ n_resamp = 0%nat →
            CorrelationLength_uncertainty row' = Some None)
         ∧ (None ∉ samples → (0 < n_resamp)%nat →
            ∃ x u, CorrelationLength_estimate row' = Some (Some x)
                   ∧ samples = replicate n_resamp (Some x)
                   ∧ CorrelationLength_uncertainty row' = Some (Some u))).
Proof.
  assert (∀ row, row ∈ estimates (estimate_observables sort_keys self) →
            "Susceptibility0" ∈ observable_names self →
            "Susceptibilitykmin" ∈ observable_names self →
            is_Some (row_observables row !! "Susceptibility0")
            ∧ is_Some (row_observables row !! "Susceptibilitykmin")) as Hcolumns.
  { intros row Hrow H0 Hk. unfold estimate_observables in Hrow. cbn [estimates] in Hrow.
    apply list_elem_of_fmap in Hrow as (key & -> & _). cbn [row_observables].
    split; eexists; by apply dict_of_items_fmap_is_Some. }
  split_and!.
  - intros row label e Hrow He Hn.
    unfold estimate_observables in Hrow. cbn [estimates] in Hrow.
    apply list_elem_of_fmap in Hrow as (key & -> & _). cbn [row_observables] in He.
    apply dict_of_items_fmap_lookup in He as [-> _].
    cbn [_n_disorders _uncertainty] in *. by apply pd_std_nan.
  - intros n_resamp row rest drawn g' h analysed Hest H0 Hk Hn Hdraw Hh Hnone.
    apply (first_draw_key_error analysed n_resamp row rest drawn g' h); try done.
    intros row' Hrow'. by apply Hcolumns.
  - intros n_resamp analysed Hrng H0 Hk Hresults.
    apply estimate_correlation_length_total; [exact Hrng|].
    intros row Hrow. destruct (Hcolumns row Hrow H0 Hk) as [? ?].
    split_and!; [done..|]. intros h Hh. by apply Hresults.
  - apply degenerate_bootstrap.
Qed.


(** Running the function again on the object it has updated: the two new
    columns are not read, only overwritten. *)
Lemma mapM_zip_with_l {A B C} (f : A → Py.result B) (h : A → C → A)
    (l : list A) (k : list C) :
  (∀ x y, f (h x y) = f x) → length l = length k →
  Py.mapM f (zip_with h l k) = Py.mapM f l.
Proof.
  intros Hf. revert k. induction l as [|x l IH]; intros [|y k] Hlen; try done.
  simpl in *. rewrite Hf, IH by lia. done.
Qed.

Lemma fmap_zip_with_l {A B C} (f : A → B) (h : A → C → A) (l : list A) (k : list C) :
  (∀ x y, f (h x y) = f x) → length l = length k →
  f <$> zip_with h l k = f <$> l.
Proof.
  intros Hf. revert k. induction l as [|x l IH]; intros [|y k] Hlen; try done.
  simpl in *. rewrite Hf. f_equal. apply IH. lia.
Qed.

Lemma collect_enumerate_zip_with_l {A B C}
    (turn turn' : RNG → nat * A → Py.result (B * RNG)) (h : A → C → A)
    (l : list A) (k : list C) :
  (∀ g i x y, turn' g (i, h x y) = turn g (i, x)) → length l = length k →
  ∀ (n : nat) g,
    collect turn' g (imap (λ i x, ((n + i)%nat, x)) (zip_with h l k))
    = collect turn g (imap (λ i x, ((n + i)%nat, x)) l).
Proof.
  intros Hturn. revert k. induction l as [|x l IH]; intros [|y k] Hlen n g; try done.
  simpl in Hlen. simpl zip_with. rewrite !imap_cons. simpl. rewrite Hturn.
  destruct (turn g ((n + 0)%nat, x)) as [e|[v g1]]; [done|]. py_simpl.
  rewrite (imap_ext _ (λ i x, ((S n + i)%nat, x)) (zip_with h l k))
    by (intros; simpl; f_equal; lia).
  rewrite (IH k) by lia.
  by rewrite (imap_ext ((λ i x, ((n + i)%nat, x)) ∘ S) (λ i x, ((S n + i)%nat, x)) l)
    by (intros; simpl; f_equal; lia).
Qed.

Lemma collect_enumerate_zip_with {A B C}
    (turn turn' : RNG → nat * A → Py.result (B * RNG)) (h : A → C → A)
    (l : list A) (k : list C) (g : RNG) :
  (∀ g i x y, turn' g (i, h x y) = turn g (i, x)) → length l = length k →
  collect turn' g (Py.enumerate (zip_with h l k)) = collect turn g (Py.enumerate l).
Proof.
  intros Hturn Hlen. apply (collect_enumerate_zip_with_l turn turn' h l k Hturn Hlen 0).
Qed.

Lemma zip_with_zip_with_l {A C} (h : A → C → A) (l : list A) (k k' : list C) :
  (∀ x y y', h (h x y) y' = h x y') → length l = length k →
  zip_with h (zip_with h l k) k' = zip_with h l k'.
Proof.
  intros Hh. revert k k'.
  induction l as [|x l IH]; intros [|y k] [|y' k'] Hlen; try done.
  simpl in *. rewrite Hh. f_equal. apply IH. lia.
Qed.

Lemma estimate_correlation_length_rerun self n_resamp self' :
  estimate_correlation_length L_x L_y default_rng rng_choice self n_resamp = Py.ok self' →
  estimate_correlation_length L_x L_y default_rng rng_choice self' n_resamp = Py.ok self'.
Proof.
  unfold estimate_correlation_length at 1. intros Hrun.
  destruct (Py.mapM (point_estimate L_x L_y) (estimates self)) as [e|points] eqn:Hpoints;
    [py_simpl; discriminate|].
  unfold mbind at 1, Py.result_bind at 1, Py.bind at 1 in Hrun.
  destruct (collect _ (default_rng 0%Z) (Py.enumerate (estimates self)))
    as [e|[uncs g1]] eqn:Hloop; [py_simpl; discriminate|].
  unfold mbind, Py.result_bind, Py.bind, Py.ok in Hrun.
  assert (self' = {| observable_names := observable_names self;
                     results_df := results_df self;
                     inputs_df := inputs_df self;
                     estimates := zip_with set_correlation_length (estimates self)
                                    (zip points uncs) |}) as -> by congruence.
  clear Hrun.
  assert (length (estimates self) = length (zip points uncs)) as Hlen.
  { apply mapM_lookup in Hpoints as [Hlenp _].
    apply collect_lookup in Hloop as [Hlenu _].
    unfold Py.enumerate in Hlenu. rewrite length_imap in Hlenu.
    rewrite length_zip. lia. }
  unfold estimate_correlation_length.
  cbn [observable_names results_df inputs_df estimates].
  rewrite (mapM_zip_with_l (point_estimate L_x L_y) set_correlation_length
             _ _ (λ x y, eq_refl) Hlen), Hpoints.
  unfold mbind at 1, Py.result_bind at 1, Py.bind at 1.
  rewrite (fmap_zip_with_l (k_min_of L_x L_y) set_correlation_length
             _ _ (λ x y, eq_refl) Hlen).
  rewrite (collect_enumerate_zip_with
             (row_turn rng_choice self n_resamp (k_min_of L_x L_y <$> estimates self))
             _ set_correlation_length _ _ _ (λ g i x y, eq_refl) Hlen).
  rewrite Hloop. unfold mbind, Py.result_bind, Py.bind, Py.ok.
  by rewrite (zip_with_zip_with_l set_correlation_length _ _ _ (λ x y y', eq_refl) Hlen).
Qed.

End AnalysisFacts.

Section Determinism.
Import SimpleAnalysis.
Local Open Scope R_scope.

Context {params : Type} `{EqDecision params}.
Variables L_x L_y : params → R.
Context {RNG : Type}.
Variable default_rng : Z → RNG.
Variable rng_choice_p : RNG → list R → Py.result (nat * RNG).
Variable rng_choice : RNG → list string → nat → Py.result (list string * RNG).
Context {loc : Type}.

(** C7.  Determinism as a two-run property.  [generate(code, p, rng)] run
    with a generator seeded with [seed] and run again with another generator
    seeded with [seed] returns the same error vector (and leaves the two
    generators in the same state), whatever the system entropy of either
    run, for the base and for the deformed model.
    [estimate_correlation_length] seeds its bootstrap generator with 0 on
    every call: run again on the object it has updated it returns the very
    same table, and its output is a function of the input, result and
    estimate tables alone. *)
Theorem two_run_determinism :
  (∀ (self : PauliErrorModel.t) (code : StabilizerCode.t loc) (p : R) (seed : Z)
     (fresh1 fresh2 : RNG),
     PauliErrorModel.generate rng_choice_p self code p (Some (default_rng seed)) fresh1
     = PauliErrorModel.generate rng_choice_p self code p (Some (default_rng seed)) fresh2
     ∧ DeformedXZZXErrorModel.generate rng_choice_p self code p
         (Some (default_rng seed)) fresh1
       = DeformedXZZXErrorModel.generate rng_choice_p self code p
           (Some (default_rng seed)) fresh2)
  ∧ (∀ (self self' : t (params := params)) (n_resamp : nat),
       estimate_correlation_length L_x L_y default_rng rng_choice self n_resamp
       = Py.ok self' →
       estimate_correlation_length L_x L_y default_rng rng_choice self' n_resamp
       = Py.ok self')
  ∧ (∀ (self1 self2 : t (params := params)) (n_resamp : nat),
       results_df self1 = results_df self2 →
       inputs_df self1 = inputs_df self2 →
       estimates self1 = estimates self2 →
       match estimate_correlation_length L_x L_y default_rng rng_choice self1 n_resamp,
             estimate_correlation_length L_x L_y default_rng rng_choice self2 n_resamp
       with
       | inr out1, inr out2 => estimates out1 = estimates out2
       | inl e1, inl e2 => e1 = e2
       | _, _ => False
       end).
Proof.
  split_and!.
  - done.
  - intros self self' n_resamp. apply estimate_correlation_length_rerun.
  - intros [names1 res1 in1 est1] [names2 res2 in2 est2] n_resamp. simpl.
    intros <- <- <-. unfold estimate_correlation_length.
    cbn [observable_names results_df inputs_df estimates].
    change (row_turn rng_choice
              {| observable_names := names2; results_df := res1;
                 inputs_df := in1; estimates := est1 |})
      with (row_turn rng_choice
              {| observable_names := names1; results_df := res1;
                 inputs_df := in1; estimates := est1 |}).
    destruct (Py.mapM (point_estimate L_x L_y) est1) as [e|points]; [done|].
    unfold mbind, Py.result_bind, Py.bind.
    by destruct (collect _ _ _) as [e|[uncs g]].
Qed.

End Determinism.

(** ** The minimal data set *)

Section SampleFacts.
Import SimpleAnalysis.
Local Open Scope R_scope.

Lemma sample_group (label : string) :
  group_column (merge Sample.inputs Sample.results) label ((4, 4)%Z, 1)
  = [if decide (label = "Susceptibility0") then Some 2 else Some 1].
Proof.
  unfold group_column.
  change (merge Sample.inputs Sample.results) with
    [({| in_hash := "a"; in_params := (4, 4)%Z |} : input_row (params := Sample.params),
      {| res_hash := "a"; res_seed := 0; res_tau := 1;
         res_observable :=
           λ name, if decide (name = "Susceptibility0") then Some 2 else Some 1 |})].
  by rewrite filter_cons_True.
Qed.

Lemma sample_estimates : estimates Sample.analysed = [Sample.row].
Proof.
  unfold Sample.analysed, estimate_observables, Sample.sort_keys.
  cbn [estimates inputs_df results_df Sample.raw observable_names].
  change (group_key <$> merge Sample.inputs Sample.results)
    with [((4, 4)%Z, 1) : Sample.params * R].
  change (remove_dups [((4, 4)%Z, 1) : Sample.params * R])
    with [((4, 4)%Z, 1) : Sample.params * R].
  cbn [fmap list_fmap fst snd]. by rewrite !sample_group.
Qed.

(** The realization without a result joins no row: the table is the same. *)
Lemma sample_estimates_two : estimates Sample.analysed_two = [Sample.row].
Proof.
  unfold Sample.analysed_two, estimate_observables, Sample.sort_keys.
  cbn [estimates inputs_df results_df Sample.raw_two observable_names].
  change (merge Sample.inputs_two Sample.results)
    with (merge Sample.inputs Sample.results).
  change (group_key <$> merge Sample.inputs Sample.results)
    with [((4, 4)%Z, 1) : Sample.params * R].
  change (remove_dups [((4, 4)%Z, 1) : Sample.params * R])
    with [((4, 4)%Z, 1) : Sample.params * R].
  cbn [fmap list_fmap fst snd]. by rewrite !sample_group.
Qed.

(** The stand-in generator draws from the population it is given. *)
Lemma sample_rng_draws (g : Sample.RNG) (a : list string) :
  ∃ drawn g',
    Sample.rng_choice g a (length a) = Py.ok (drawn, g') ∧ ∀ h, h ∈ drawn → h ∈ a.
Proof.
  destruct a as [|x a].
  - exists [], (S g). split; [done|]. by intros h ?%elem_of_nil.
  - eexists _, _. split; [reflexivity|].
    intros h ->%elem_of_replicate_inv. apply list_elem_of_In.
    destruct (nth_in_or_default (g `mod` length (x :: a)) (x :: a) x) as [?| ->];
      [done|by left].
Qed.

Lemma sample_hashes : hashes_of Sample.analysed Sample.row = ["a"].
Proof. reflexivity. Qed.

Lemma sample_hashes_two : hashes_of Sample.analysed_two Sample.row = ["b"; "a"].
Proof. reflexivity. Qed.

Lemma sample_frame (hashes : list string) :
  "a" ∈ hashes →
  filter (λ r, res_hash r ∈ hashes ∧ res_tau r = 1) Sample.results = Sample.results.
Proof. intros Hin. unfold Sample.results. by rewrite filter_cons_True. Qed.

Lemma sample_filtered_results :
  filtered_results_of Sample.analysed Sample.row = Sample.results.
Proof.
  unfold filtered_results_of. rewrite sample_hashes. apply sample_frame. left.
Qed.

Lemma sample_filtered_results_two :
  filtered_results_of Sample.analysed_two Sample.row = Sample.results.
Proof.
  unfold filtered_results_of. rewrite sample_hashes_two. apply sample_frame.
  right. left.
Qed.

Lemma sample_mean (x : R) : pd_mean [Some x] = Some x.
Proof.
  unfold pd_mean, Np.mean, Np.sum, Np.fdiv. simpl.
  rewrite decide_False by lra. f_equal. field.
Qed.

Lemma sample_defined : spec_defined (Sample.L_x (4, 4)%Z) (Sample.L_y (4, 4)%Z) 1.
Proof.
  unfold spec_defined, spec_k_min, Sample.L_x, Sample.L_y. simpl.
  rewrite Rmax_left by lra. split_and!; [lra| |lra].
  replace (2 * PI / 4 / 2) with (PI / 4) by field.
  rewrite sin_PI4. apply Rgt_not_eq. apply Rdiv_lt_0_compat; [lra|].
  apply sqrt_lt_R0. lra.
Qed.

(** Each observable of the row has one disorder realization and no
    standard deviation. *)
Lemma sample_row_observables (label : string) e :
  row_observables Sample.row !! label = Some e →
  _n_disorders e = 1%nat ∧ _uncertainty e = None.
Proof.
  unfold Sample.row, Py.dict_of_items. simpl.
  destruct (decide (label = "Susceptibilitykmin")) as [->|Hk].
  { rewrite lookup_insert_eq. by intros [= <-]. }
  rewrite lookup_insert_ne by done.
  destruct (decide (label = "Susceptibility0")) as [->|H0].
  { rewrite lookup_insert_eq. by intros [= <-]. }
  by rewrite lookup_insert_ne, lookup_empty.
Qed.

Lemma sample_runs (n_resamp : nat) :
  ∃ self',
    estimate_correlation_length Sample.L_x Sample.L_y Sample.default_rng
      Sample.rng_choice Sample.analysed n_resamp = Py.ok self'.
Proof.
  apply estimate_correlation_length_total; [apply sample_rng_draws|].
  rewrite sample_estimates. intros row ->%list_elem_of_singleton.
  split_and!; [by eexists..|].
  rewrite sample_hashes, sample_filtered_results.
  by intros h ->%list_elem_of_singleton.
Qed.

(** C8 as stated fails, in both of its parts.  The group of the minimal
    data set has one disorder realization ([n_disorders] is 1 and the
    uncertainty of each observable is NaN), yet the bootstrap uncertainty
    of its correlation length is a number, not NaN.  With a second
    realization of the same parameters that has no result, the group is the
    same, and the bootstrap, which draws that realization first, raises
    [KeyError]. *)
Lemma single_realization_bootstrap_not_nan :
  (∀ label e, row_observables Sample.row !! label = Some e →
     _n_disorders e = 1%nat ∧ _uncertainty e = None)
  ∧ (estimates Sample.analysed = [Sample.row]
     ∧ ∃ self' row' u,
         estimate_correlation_length Sample.L_x Sample.L_y Sample.default_rng
           Sample.rng_choice Sample.analysed 100 = Py.ok self'
         ∧ estimates self' !! 0%nat = Some row'
         ∧ CorrelationLength_uncertainty row' = Some (Some u)
         ∧ CorrelationLength_uncertainty row' ≠ Some None)
  ∧ (estimates Sample.analysed_two = [Sample.row]
     ∧ estimate_correlation_length Sample.L_x Sample.L_y Sample.default_rng
         Sample.rng_choice Sample.analysed_two 100 = Py.raise Py.KeyError).
Proof.
  split_and!.
  - apply sample_row_observables.
  - apply sample_estimates.
  - destruct (sample_runs 100) as [self' Hrun].
    edestruct (degenerate_bootstrap Sample.L_x Sample.L_y Sample.default_rng
                Sample.rng_choice Sample.sort_keys Sample.raw 100 self' 0 Sample.row)
      as (row' & samples & Hrow' & Hlen & _ & Hsamples & _ & Hnumber);
      [exact Hrun
      |change (estimates Sample.analysed !! 0%nat = Some Sample.row);
       by rewrite sample_estimates
      |reflexivity|reflexivity|simpl; lia..|].
    destruct Hnumber as (x & u & _ & _ & Hu); [|lia|].
    + intros [j Hj]%list_elem_of_lookup.
      destruct (Hsamples j None Hj) as (g & g' & drawn & Hdraw & _ & _ & _ & Hvalue).
      change (in_hash <$> filter _ (inputs_df Sample.raw)) with ["a"] in *.
      assert (drawn = ["a"]) as ->.
      { unfold Sample.rng_choice in Hdraw. cbn [length] in Hdraw.
        rewrite Nat.mod_1_r in Hdraw. by injection Hdraw as <-. }
      change (results_df Sample.raw) with Sample.results in Hvalue.
      change (row_tau Sample.row) with 1 in Hvalue.
      rewrite sample_frame in Hvalue by left.
      by specialize (Hvalue 2 1 ltac:(left) ltac:(left) sample_defined).
    + exists self', row', u. split_and!; [done..|]. rewrite Hu. by intros [=].
  - apply sample_estimates_two.
  - apply (first_draw_key_error Sample.L_x Sample.L_y Sample.default_rng
             Sample.rng_choice Sample.analysed_two 100 Sample.row [] ["b"; "b"]
             1%nat "b").
    + apply sample_estimates_two.
    + rewrite sample_estimates_two. intros row ->%list_elem_of_singleton.
      split; by eexists.
    + lia.
    + reflexivity.
    + left.
    + by rewrite sample_filtered_results_two.
Qed.

Lemma sample_spec_mean (x : R) : spec_mean [x] = x.
Proof. apply spec_mean_constant; [done|]. by intros y ->%list_elem_of_singleton. Qed.

Lemma correlation_length_formula_witness :
  ∃ self' row' samples,
    estimate_correlation_length Sample.L_x Sample.L_y Sample.default_rng
      Sample.rng_choice Sample.analysed 100 = Py.ok self'
    ∧ estimates self' !! 0%nat = Some row'
    ∧ CorrelationLength_estimate row'
      = Some (Some (spec_CorrelationLength (spec_k_min 4 4) 2 1))
    ∧ length samples = 100%nat
    ∧ CorrelationLength_uncertainty row' = Some (Np.std samples)
    ∧ ∀ v, v ∈ samples → v = Some (spec_CorrelationLength (spec_k_min 4 4) 2 1).
Proof.
  destruct (correlation_length_formula Sample.L_x Sample.L_y Sample.default_rng
              Sample.rng_choice Sample.analysed 100) as [Hrows _].
  destruct (sample_runs 100) as [self' Hrun].
  destruct (Hrows self' Hrun) as [_ Hrow].
  destruct (Hrow 0%nat Sample.row)
    as (row' & e0 & ek & samples & Hrow' & _ & _ & H0 & Hk & Hpoint & _
        & Hlen & Hsamples & Hunc & _).
  { by rewrite sample_estimates. }
  exists self', row', samples. split_and!; [done|done| |done|done|].
  - injection H0 as <-. injection Hk as <-.
    apply (Hpoint 2 1); [apply sample_mean..|apply sample_defined].
  - intros v [j Hj]%list_elem_of_lookup.
    destruct (Hsamples j v Hj) as (g & g' & drawn & Hdraw & _ & Hvalue & _).
    change (in_hash <$> filter _ (inputs_df Sample.analysed)) with ["a"]
      in Hdraw, Hvalue.
    assert (drawn = ["a"]) as ->.
    { unfold Sample.rng_choice in Hdraw. cbn [length] in Hdraw.
      rewrite Nat.mod_1_r in Hdraw. by injection Hdraw as <-. }
    change (results_df Sample.analysed) with Sample.results in Hvalue.
    change (row_tau Sample.row) with 1 in Hvalue.
    rewrite sample_frame in Hvalue by left.
    change (omap (λ r : result_row, res_observable r "Susceptibility0") _)
      with [2] in Hvalue.
    change (omap (λ r : result_row, res_observable r "Susceptibilitykmin") _)
      with [1] in Hvalue.
    rewrite !sample_spec_mean in Hvalue.
    apply Hvalue; [done..|apply sample_defined].
Defined.
Lemma degenerate_group_uncertainty_witness :
  (∀ label e, row_observables Sample.row !! label = Some e →
     (_n_disorders e ≤ 1)%nat → _uncertainty e = None)
  ∧ ∃ self' row' samples,
      estimate_correlation_length Sample.L_x Sample.L_y Sample.default_rng
        Sample.rng_choice Sample.analysed 100 = Py.ok self'
      ∧ estimates self' !! 0%nat = Some row'
      ∧ length samples = 100%nat
      ∧ CorrelationLength_uncertainty row' = Some (Np.std samples).
Proof.
  destruct (degenerate_group_uncertainty Sample.L_x Sample.L_y Sample.default_rng
              Sample.rng_choice Sample.sort_keys Sample.raw)
    as (Hobs & _ & _ & Hbootstrap).
  split.
  - intros label e. apply Hobs.
    change (estimate_observables Sample.sort_keys Sample.raw) with Sample.analysed.
    rewrite sample_estimates. apply list_elem_of_here.
  - destruct (sample_runs 100) as [self' Hrun].
    edestruct (Hbootstrap 100%nat self' 0%nat Sample.row)
      as (row' & samples & Hrow' & Hlen & Hunc & _);
      [exact Hrun
      |change (estimates Sample.analysed !! 0%nat = Some Sample.row);
       by rewrite sample_estimates
      |reflexivity|reflexivity|simpl; lia..|].
    by exists self', row', samples.
Defined.

End SampleFacts.

(* ===================================================================== *)
(** * Further properties of the code *)
(* ===================================================================== *)

(** ** More on ranges and counting *)

Section RangeFacts.

Lemma range_as_seq (L : Z) : Py.range L = Z.of_nat <$> seq 0 (Z.to_nat L).
Proof.
  unfold Py.range, Py.range3. rewrite range_len_unit.
  apply list_fmap_ext. intros _ i _. lia.
Qed.

Lemma range_snoc (n : nat) :
  Py.range (Z.of_nat (S n)) = Py.range (Z.of_nat n) ++ [Z.of_nat n].
Proof.
  rewrite !range_as_seq, !Nat2Z.id, seq_S, fmap_app. done.
Qed.

Lemma elem_of_range (L v : Z) : v ∈ Py.range L ↔ 0 ≤ v < L.
Proof.
  rewrite range_as_seq, list_elem_of_fmap. split.
  - intros (i & -> & Hi%elem_of_seq). lia.
  - intros Hv. exists (Z.to_nat v). split; [lia|]. apply elem_of_seq. lia.
Qed.

Lemma NoDup_range (L : Z) : NoDup (Py.range L).
Proof. by apply NoDup_range3. Qed.

Lemma length_range (L : Z) : length (Py.range L) = Z.to_nat L.
Proof. unfold Py.range. by rewrite length_range3, range_len_unit. Qed.

(** Counting by parity, one layer at a time: when the layer at [x] holds
    [(m + (x + q) mod 2) / 2] items, [n] layers hold [(n m + q mod 2) / 2]. *)
Lemma parity_count_step (p m n q : Z) :
  0 ≤ p → 0 ≤ m →
  p `mod` 2 = (n `mod` 2 * (m `mod` 2)) `mod` 2 →
  (p + q `mod` 2) `div` 2 + (m + (n + q) `mod` 2) `div` 2
  = (p + m + q `mod` 2) `div` 2.
Proof.
  intros Hp Hm Hpar.
  pose proof (Z.mod_pos_bound n 2). pose proof (Z.mod_pos_bound m 2).
  assert (n `mod` 2 = 0 ∨ n `mod` 2 = 1) as [Hn|Hn] by lia;
    assert (m `mod` 2 = 0 ∨ m `mod` 2 = 1) as [Hm2|Hm2] by lia;
    rewrite Hn, Hm2 in Hpar; simpl in Hpar; Z.div_mod_to_equations; lia.
Qed.

Lemma layer_count {A} (g : Z → list A) (m q : Z) :
  0 ≤ m →
  (∀ x, length (g x) = Z.to_nat ((m + (x + q) `mod` 2) `div` 2)) →
  ∀ n : nat,
    length (Py.range (Z.of_nat n) ≫= g)
    = Z.to_nat ((Z.of_nat n * m + q `mod` 2) `div` 2).
Proof.
  intros Hm Hg. induction n as [|n IH].
  - rewrite range_as_seq. simpl.
    rewrite Z.div_small; [done|]. pose proof (Z.mod_pos_bound q 2). lia.
  - rewrite range_snoc, bind_app, length_app, IH. csimpl.
    rewrite app_nil_r, Hg.
    replace (Z.of_nat (S n) * m) with (Z.of_nat n * m + m) by lia.
    rewrite <- (parity_count_step (Z.of_nat n * m) m (Z.of_nat n) q);
      [| nia | lia | apply Z.mul_mod; lia].
    pose proof (Z.mod_pos_bound q 2). pose proof (Z.mod_pos_bound (Z.of_nat n + q) 2).
    rewrite Z2Nat.inj_add; [done| |]; apply Z.div_pos; nia.
Qed.

Lemma filter_bind_list {A B} (P : B → Prop) `{!∀ x, Decision (P x)}
    (f : A → list B) (l : list A) :
  filter P (l ≫= f) = l ≫= (λ x, filter P (f x)).
Proof.
  induction l as [|x l IH]; [done|]. csimpl. by rewrite filter_app, IH.
Qed.

(** The number of locations two duplicate-free lists share is the length of
    any duplicate-free list of the shared locations. *)
Lemma shared_count {A} `{EqDecision A} (a b c : list A) :
  NoDup a → NoDup c →
  (∀ x, x ∈ a ∧ x ∈ b ↔ x ∈ c) →
  length (filter (λ x, x ∈ b) a) = length c.
Proof.
  intros Ha Hc Hshared. apply Permutation_length, NoDup_Permutation.
  - by apply NoDup_filter.
  - done.
  - intros x. rewrite list_elem_of_filter. specialize (Hshared x). tauto.
Qed.

End RangeFacts.

(** ** The 3D toric code, continued *)

Section ToricLatticeFacts.
Import ToricCode3D.

Lemma length_product3_ranges (a b c La Lb Lc : Z) :
  0 ≤ La → 0 ≤ Lb → 0 ≤ Lc →
  (a = 0 ∨ a = 1) → (b = 0 ∨ b = 1) → (c = 0 ∨ c = 1) →
  length (Py.product3 (Py.range3 a (2 * La) 2) (Py.range3 b (2 * Lb) 2)
            (Py.range3 c (2 * Lc) 2))
  = Z.to_nat (La * Lb * Lc).
Proof.
  intros ??? [-> | ->] [-> | ->] [-> | ->];
    rewrite length_product3, !length_range3, ?range_len_odd, ?range_len_even; nia.
Qed.

Lemma axis_of_x_edge self x y z :
  x `mod` 2 = 1 → y `mod` 2 = 0 → z `mod` 2 = 0 → axis self (x, y, z) = Py.ok X_AXIS.
Proof. intros. unfold axis. by rewrite bool_decide_eq_true_2. Qed.

Lemma axis_of_y_edge self x y z :
  x `mod` 2 = 0 → y `mod` 2 = 1 → z `mod` 2 = 0 → axis self (x, y, z) = Py.ok Y_AXIS.
Proof.
  intros. unfold axis.
  rewrite bool_decide_eq_false_2 by lia. by rewrite bool_decide_eq_true_2.
Qed.

Lemma axis_of_z_edge self x y z :
  x `mod` 2 = 0 → y `mod` 2 = 0 → z `mod` 2 = 1 → axis self (x, y, z) = Py.ok Z_AXIS.
Proof.
  intros. unfold axis.
  rewrite !bool_decide_eq_false_2 by lia. by rewrite bool_decide_eq_true_2.
Qed.

Lemma axis_of_no_edge self x y z :
  (x `mod` 2 + y `mod` 2 + z `mod` 2 ≠ 1) → axis self (x, y, z) = Py.raise Py.ValueError.
Proof.
  intros. unfold axis. by rewrite !bool_decide_eq_false_2 by lia.
Qed.

Lemma toric_vertex_coordinates_NoDup self : NoDup (ToricLattice.vertex_coordinates self).
Proof.
  destruct self as [[[Lx Ly] Lz]]. unfold ToricLattice.vertex_coordinates. simpl.
  apply NoDup_product3; by apply NoDup_range3.
Qed.

Lemma toric_face_coordinates_NoDup self : NoDup (ToricLattice.face_coordinates self).
Proof.
  destruct self as [[[Lx Ly] Lz]]. unfold ToricLattice.face_coordinates. simpl.
  rewrite !NoDup_app. split_and!; try (apply NoDup_product3; by apply NoDup_range3).
  - intros [[x y] z] Hx [Hy|Hz]%elem_of_app.
    + apply elem_of_product3 in Hx as ([? _]%elem_of_range_odd & _ & _).
      apply elem_of_product3 in Hy as ([? _]%elem_of_range_even & _ & _). lia.
    + apply elem_of_product3 in Hx as (_ & [? _]%elem_of_range_odd & _).
      apply elem_of_product3 in Hz as (_ & [? _]%elem_of_range_even & _). lia.
  - intros [[x y] z] Hy Hz.
    apply elem_of_product3 in Hy as ([? _]%elem_of_range_even & _ & _).
    apply elem_of_product3 in Hz as ([? _]%elem_of_range_odd & _ & _). lia.
Qed.

(** X1.  For every lattice size the vertex dictionary of the 3D toric code
    is a bijection from the enumerated vertex coordinates onto
    [0, Lx*Ly*Lz) and the face dictionary a bijection from the enumerated
    face coordinates onto [0, 3*Lx*Ly*Lz). *)
Theorem toric_vertex_face_index_bijections (Lx Ly Lz : Z) :
  0 ≤ Lx → 0 ≤ Ly → 0 ≤ Lz →
  let self := {| size := (Lx, Ly, Lz) |} in
  Py.index_bijection (ToricLattice.vertex_coordinates self)
    (ToricLattice._create_vertex_indices self) (Z.to_nat (Lx * Ly * Lz))
  ∧ Py.index_bijection (ToricLattice.face_coordinates self)
      (ToricLattice._create_face_indices self) (Z.to_nat (3 * Lx * Ly * Lz)).
Proof.
  intros Hx Hy Hz self. split.
  - replace (Z.to_nat (Lx * Ly * Lz))
      with (length (ToricLattice.vertex_coordinates self)).
    + apply dict_of_enumerate_bijection, toric_vertex_coordinates_NoDup.
    + unfold ToricLattice.vertex_coordinates. simpl.
      apply length_product3_ranges; auto.
  - replace (Z.to_nat (3 * Lx * Ly * Lz))
      with (length (ToricLattice.face_coordinates self)).
    + apply dict_of_enumerate_bijection, toric_face_coordinates_NoDup.
    + unfold ToricLattice.face_coordinates. simpl.
      rewrite !length_app, !length_product3_ranges by auto. nia.
Qed.

Lemma toric_vertex_face_index_bijections_witness :
  Py.index_bijection (ToricLattice.vertex_coordinates {| size := (2, 3, 4) |})
    (ToricLattice._create_vertex_indices {| size := (2, 3, 4) |}) 24
  ∧ Py.index_bijection (ToricLattice.face_coordinates {| size := (2, 3, 4) |})
      (ToricLattice._create_face_indices {| size := (2, 3, 4) |}) 72.
Proof. apply (toric_vertex_face_index_bijections 2 3 4); lia. Defined.

(** The qubit at index [i]: the first, second and third block of
    [Lx*Ly*Lz] indices hold the x, y and z edges. *)
Lemma toric_qubit_blocks (Lx Ly Lz : Z) (i : nat) location :
  0 ≤ Lx → 0 ≤ Ly → 0 ≤ Lz →
  let self := {| size := (Lx, Ly, Lz) |} in
  let N := Z.to_nat (Lx * Ly * Lz) in
  qubit_coordinates self !! i = Some location →
  (i < 3 * N)%nat
  ∧ axis self location
    = Py.ok (if decide (i < N)%nat then X_AXIS
             else if decide (i < 2 * N)%nat then Y_AXIS else Z_AXIS).
Proof.
  intros Hx Hy Hz self N. unfold qubit_coordinates. simpl.
  destruct location as [[x y] z].
  rewrite !lookup_app_Some, !length_product3_ranges by auto. fold N.
  intros [Hi|[? [Hi|[? Hi]]]];
    pose proof (lookup_lt_Some _ _ _ Hi) as Hlt;
    rewrite length_product3_ranges in Hlt by auto; fold N in Hlt;
    apply list_elem_of_lookup_2, elem_of_product3 in Hi as (Hxr & Hyr & Hzr).
  - apply elem_of_range_odd in Hxr. apply elem_of_range_even in Hyr, Hzr.
    split; [lia|]. rewrite decide_True by lia. apply axis_of_x_edge; tauto.
  - apply elem_of_range_odd in Hyr. apply elem_of_range_even in Hxr, Hzr.
    split; [lia|]. rewrite decide_False, decide_True by lia. apply axis_of_y_edge; tauto.
  - apply elem_of_range_odd in Hzr. apply elem_of_range_even in Hxr, Hyr.
    split; [lia|]. rewrite !decide_False by lia. apply axis_of_z_edge; tauto.
Qed.

(** X2.  [axis] classifies every enumerated qubit of the 3D toric code:
    the qubits of index below [N = Lx*Ly*Lz] are x edges, the next [N] are y
    edges and the last [N] are z edges.  On every vertex and face coordinate
    [axis] raises [ValueError], and no coordinate is both a vertex and a
    face. *)
Theorem toric_axis_classification (Lx Ly Lz : Z) :
  0 ≤ Lx → 0 ≤ Ly → 0 ≤ Lz →
  let self := {| size := (Lx, Ly, Lz) |} in
  let N := Z.to_nat (Lx * Ly * Lz) in
  (∀ (i : nat) location, qubit_coordinates self !! i = Some location →
     axis self location
     = Py.ok (if decide (i < N)%nat then X_AXIS
              else if decide (i < 2 * N)%nat then Y_AXIS else Z_AXIS))
  ∧ (∀ location,
       location ∈ ToricLattice.vertex_coordinates self
       ∨ location ∈ ToricLattice.face_coordinates self →
       axis self location = Py.raise Py.ValueError)
  ∧ (∀ location,
       ¬ (location ∈ ToricLattice.vertex_coordinates self
          ∧ location ∈ ToricLattice.face_coordinates self)).
Proof.
  intros Hx Hy Hz self N. split_and!.
  - intros i location Hi. by apply (toric_qubit_blocks Lx Ly Lz i location).
  - intros [[x y] z] Hloc. apply axis_of_no_edge. revert Hloc.
    unfold ToricLattice.vertex_coordinates, ToricLattice.face_coordinates. simpl.
    rewrite !elem_of_app, !elem_of_product3, !elem_of_range_odd, !elem_of_range_even.
    lia.
  - intros [[x y] z]. unfold ToricLattice.vertex_coordinates,
      ToricLattice.face_coordinates. simpl.
    rewrite !elem_of_app, !elem_of_product3, !elem_of_range_odd, !elem_of_range_even.
    lia.
Qed.

Lemma toric_axis_classification_witness :
  axis {| size := (2, 3, 4) |} (0, 0, 0) = Py.raise Py.ValueError
  ∧ ¬ ((0, 0, 0) ∈ ToricLattice.vertex_coordinates {| size := (2, 3, 4) |}
       ∧ (0, 0, 0) ∈ ToricLattice.face_coordinates {| size := (2, 3, 4) |}).
Proof.
  pose proof (toric_axis_classification 2 3 4) as H. cbv zeta in H.
  destruct H as (_ & Hno & Hdisjoint); [lia..|].
  split; [|apply Hdisjoint]. apply Hno. left. vm_compute. left.
Defined.

End ToricLatticeFacts.

(** ** Operators built site by site *)

Section OperatorFacts.
Context {loc : Type}.

Lemma sites_fmap {A} (P : string) (f : A → loc) (l : list A) :
  LogicalOperator.sites ((λ x, (P, f x)) <$> l) = f <$> l.
Proof. unfold LogicalOperator.sites. by rewrite <- list_fmap_compose. Qed.

Lemma sites_bind2 {A B} (g : A → B → list (string * loc)) (xs : list A) (ys : list B) :
  LogicalOperator.sites (x ← xs; y ← ys; g x y)
  = x ← xs; y ← ys; LogicalOperator.sites (g x y).
Proof.
  unfold LogicalOperator.sites.
  induction xs as [|x xs IH]; csimpl; [done|]. rewrite fmap_app, IH. f_equal.
  clear. induction ys as [|y ys IH]; csimpl; [done|]. by rewrite fmap_app, IH.
Qed.

Lemma elem_of_bind2 {A B} (h : A → B → list loc) (xs : list A) (ys : list B) v :
  v ∈ (x ← xs; y ← ys; h x y) ↔ ∃ x y, x ∈ xs ∧ y ∈ ys ∧ v ∈ h x y.
Proof.
  rewrite list_elem_of_bind. split.
  - intros (x & (y & ? & ?)%list_elem_of_bind & ?). by exists x, y.
  - intros (x & y & ? & ? & ?). exists x. split; [|done].
    apply list_elem_of_bind. by exists y.
Qed.

Lemma NoDup_bind2 {A B} (h : A → B → list loc) (xs : list A) (ys : list B) :
  NoDup xs → NoDup ys →
  (∀ x y, NoDup (h x y)) →
  (∀ x y x' y' v, v ∈ h x y → v ∈ h x' y' → x = x' ∧ y = y') →
  NoDup (x ← xs; y ← ys; h x y).
Proof.
  intros Hxs Hys Hh Hinj. apply NoDup_bind; [| |done].
  - intros x x' v _ _ (y & Hv & _)%list_elem_of_bind (y' & Hv' & _)%list_elem_of_bind.
    by destruct (Hinj x y x' y' v).
  - intros x _. apply NoDup_bind; [| |done].
    + intros y y' v _ _ Hv Hv'. by destruct (Hinj x y x y' v).
    + intros y _. apply Hh.
Qed.

Lemma length_bind2 {A B C} (h : A → B → list C) (k : nat) (xs : list A) (ys : list B) :
  (∀ x y, length (h x y) = k) →
  length (x ← xs; y ← ys; h x y) = (length xs * (length ys * k))%nat.
Proof.
  intros Hk. induction xs as [|x xs IH]; csimpl; [done|].
  rewrite length_app, IH. f_equal.
  clear IH. induction ys as [|y ys IH]; csimpl; [done|].
  by rewrite length_app, IH, Hk.
Qed.

End OperatorFacts.

(** ** The logical operators of the 3D toric code *)

Section ToricLogicals.
Import ToricCode3D.

Lemma toric_logical_x_site (Lx Ly Lz : Z) (i : nat) op (x y z : Z) :
  ToricLattice.logical_xs {| size := (Lx, Ly, Lz) |} !! i = Some op →
  (x, y, z) ∈ LogicalOperator.sites op
  ↔ match i with
    | 0%nat => (x `mod` 2 = 1 ∧ 0 < x < 2 * Lx) ∧ y = 0 ∧ z = 0
    | 1%nat => x = 0 ∧ (y `mod` 2 = 1 ∧ 0 < y < 2 * Ly) ∧ z = 0
    | _ => x = 0 ∧ y = 0 ∧ (z `mod` 2 = 1 ∧ 0 < z < 2 * Lz)
    end.
Proof.
  unfold ToricLattice.logical_xs. simpl.
  destruct i as [|[|[|i]]]; simpl; intros Hop; [| | |done]; injection Hop as <-;
    rewrite sites_fmap, list_elem_of_fmap; setoid_rewrite elem_of_range_odd.
  - split; [intros (v & [= -> -> ->] & Hv); tauto|intros (Hx & -> & ->); by exists x].
  - split; [intros (v & [= -> -> ->] & Hv); tauto|intros (-> & Hy & ->); by exists y].
  - split; [intros (v & [= -> -> ->] & Hv); tauto|intros (-> & -> & Hz); by exists z].
Qed.

Lemma toric_logical_z_site (Lx Ly Lz : Z) (i : nat) op (x y z : Z) :
  ToricLattice.logical_zs {| size := (Lx, Ly, Lz) |} !! i = Some op →
  (x, y, z) ∈ LogicalOperator.sites op
  ↔ match i with
    | 0%nat => x = 1 ∧ (y `mod` 2 = 0 ∧ 0 ≤ y < 2 * Ly) ∧ (z `mod` 2 = 0 ∧ 0 ≤ z < 2 * Lz)
    | 1%nat => (x `mod` 2 = 0 ∧ 0 ≤ x < 2 * Lx) ∧ y = 1 ∧ (z `mod` 2 = 0 ∧ 0 ≤ z < 2 * Lz)
    | _ => (x `mod` 2 = 0 ∧ 0 ≤ x < 2 * Lx) ∧ (y `mod` 2 = 0 ∧ 0 ≤ y < 2 * Ly) ∧ z = 1
    end.
Proof.
  unfold ToricLattice.logical_zs. simpl.
  destruct i as [|[|[|i]]]; simpl; intros Hop; [| | |done]; injection Hop as <-;
    rewrite sites_bind2, elem_of_bind2; setoid_rewrite elem_of_range_even;
    setoid_rewrite list_elem_of_singleton.
  - split; [intros (a & b & ? & ? & [= -> -> ->]); tauto
           |intros (-> & ? & ?); by exists y, z].
  - split; [intros (a & b & ? & ? & [= -> -> ->]); tauto
           |intros (? & -> & ?); by exists z, x].
  - split; [intros (a & b & ? & ? & [= -> -> ->]); tauto
           |intros (? & ? & ->); by exists x, y].
Qed.

Lemma toric_logical_site_is_qubit (Lx Ly Lz x y z : Z) :
  (x `mod` 2 + y `mod` 2 + z `mod` 2 = 1) →
  0 ≤ x < 2 * Lx → 0 ≤ y < 2 * Ly → 0 ≤ z < 2 * Lz →
  (x, y, z) ∈ qubit_coordinates {| size := (Lx, Ly, Lz) |}.
Proof.
  intros Hpar Hx Hy Hz. unfold qubit_coordinates. simpl.
  rewrite !elem_of_app, !elem_of_product3, !elem_of_range_odd, !elem_of_range_even.
  pose proof (Z.mod_pos_bound x 2). pose proof (Z.mod_pos_bound y 2).
  pose proof (Z.mod_pos_bound z 2).
  assert (x `mod` 2 = 1 → x ≠ 0) by (by intros ? ->).
  assert (y `mod` 2 = 1 → y ≠ 0) by (by intros ? ->).
  assert (z `mod` 2 = 1 → z ≠ 0) by (by intros ? ->).
  lia.
Qed.

(** X3.  The logical operators of the 3D toric code.  Every site of the
    three logical X and the three logical Z operators is a qubit of the code
    and is visited once; the X operators have weights [Lx], [Ly], [Lz] and
    the Z operators weights [Ly*Lz], [Lz*Lx], [Lx*Ly]; logical X number [i]
    and logical Z number [j] share exactly one qubit when [i = j] and none
    otherwise, so each logical X anticommutes with its partner only. *)
Theorem toric_logical_operators (Lx Ly Lz : Z) :
  1 ≤ Lx → 1 ≤ Ly → 1 ≤ Lz →
  let self := {| size := (Lx, Ly, Lz) |} in
  (∀ op, op ∈ ToricLattice.logical_xs self ∨ op ∈ ToricLattice.logical_zs self →
     NoDup (LogicalOperator.sites op)
     ∧ ∀ location, location ∈ LogicalOperator.sites op →
         location ∈ qubit_coordinates self)
  ∧ length <$> ToricLattice.logical_xs self
    = [Z.to_nat Lx; Z.to_nat Ly; Z.to_nat Lz]
  ∧ length <$> ToricLattice.logical_zs self
    = [Z.to_nat (Ly * Lz); Z.to_nat (Lz * Lx); Z.to_nat (Lx * Ly)]
  ∧ ∀ (i j : nat) a b,
      ToricLattice.logical_xs self !! i = Some a →
      ToricLattice.logical_zs self !! j = Some b →
      LogicalOperator.overlap a b = if decide (i = j) then 1%nat else 0%nat.
Proof.
  intros Hx Hy Hz self. split_and!.
  - intros op [Hop|Hop]; apply list_elem_of_lookup in Hop as [i Hi]; split.
    + revert Hi. unfold self, ToricLattice.logical_xs. simpl.
      destruct i as [|[|[|i]]]; simpl; intros Hop; [| | |done]; injection Hop as <-;
        rewrite sites_fmap; (apply NoDup_fmap_2_strong; [|by apply NoDup_range3]);
        by intros ???? [= ->].
    + intros [[x y] z] Hsite.
      apply (toric_logical_x_site Lx Ly Lz i op x y z Hi) in Hsite.
      apply toric_logical_site_is_qubit; destruct i as [|[|i]];
        destruct_and!; subst; change (0 `mod` 2) with 0; change (1 `mod` 2) with 1; lia.
    + revert Hi. unfold self, ToricLattice.logical_zs. simpl.
      destruct i as [|[|[|i]]]; simpl; intros Hop; [| | |done]; injection Hop as <-;
        rewrite sites_bind2;
        (apply NoDup_bind2; [by apply NoDup_range3..|intros; apply NoDup_singleton|]);
        intros ????? ->%list_elem_of_singleton [= -> ->]%list_elem_of_singleton; done.
    + intros [[x y] z] Hsite.
      apply (toric_logical_z_site Lx Ly Lz i op x y z Hi) in Hsite.
      apply toric_logical_site_is_qubit; destruct i as [|[|i]];
        destruct_and!; subst; change (0 `mod` 2) with 0; change (1 `mod` 2) with 1; lia.
  - unfold self, ToricLattice.logical_xs. simpl.
    by rewrite !length_fmap, !length_range3, !range_len_odd.
  - unfold self, ToricLattice.logical_zs. simpl.
    rewrite !(length_bind2 _ 1) by done.
    rewrite !length_range3, !range_len_even. repeat f_equal; nia.
  - intros i j a b Ha Hb. unfold LogicalOperator.overlap.
    assert (NoDup (LogicalOperator.sites a)) as Hnd.
    { revert Ha. unfold self, ToricLattice.logical_xs. simpl.
      destruct i as [|[|[|i]]]; simpl; intros Hop; [| | |done]; injection Hop as <-;
        rewrite sites_fmap; (apply NoDup_fmap_2_strong; [|by apply NoDup_range3]);
        by intros ???? [= ->]. }
    assert (i < 3 ∧ j < 3)%nat as [Hi3 Hj3].
    { split; [apply lookup_lt_Some in Ha; exact Ha|apply lookup_lt_Some in Hb; exact Hb]. }
    destruct (decide (i = j)) as [->|Hne].
    + rewrite (shared_count _ _
                 [match j with
                  | 0%nat => (1, 0, 0) | 1%nat => (0, 1, 0) | _ => (0, 0, 1)
                  end]); [done|done|apply NoDup_singleton|].
      intros [[x y] z].
      rewrite (toric_logical_x_site Lx Ly Lz j a x y z Ha),
        (toric_logical_z_site Lx Ly Lz j b x y z Hb), list_elem_of_singleton.
      destruct j as [|[|j]];
        (split; [intros ?; repeat f_equal; lia
                |intros [= -> -> ->];
                 change (0 `mod` 2) with 0; change (1 `mod` 2) with 1; lia]).
    + rewrite (shared_count _ _ []); [done|done|constructor|].
      intros [[x y] z].
      rewrite (toric_logical_x_site Lx Ly Lz i a x y z Ha),
        (toric_logical_z_site Lx Ly Lz j b x y z Hb), elem_of_nil.
      destruct i as [|[|i]], j as [|[|j]]; lia.
Qed.

Lemma toric_logical_operators_witness :
  length <$> ToricLattice.logical_xs {| size := (2, 3, 4) |} = [2; 3; 4]%nat
  ∧ length <$> ToricLattice.logical_zs {| size := (2, 3, 4) |} = [12; 8; 6]%nat.
Proof.
  destruct (toric_logical_operators 2 3 4) as (_ & Hxs & Hzs & _); [lia..|].
  split; [exact Hxs|exact Hzs].
Defined.

End ToricLogicals.

(** ** The XZZX deformation of the 3D toric code *)

Section ToricDeformation.
Import ToricCode3D.

Lemma toric_qubit_count (Lx Ly Lz : Z) :
  0 ≤ Lx → 0 ≤ Ly → 0 ≤ Lz →
  length (qubit_coordinates {| size := (Lx, Ly, Lz) |})
  = (3 * Z.to_nat (Lx * Ly * Lz))%nat.
Proof.
  intros. unfold qubit_coordinates. simpl.
  rewrite !length_app, !length_product3_ranges by auto. lia.
Qed.

Lemma fmap_seq_blocks {A} (flags : list bool) (a b : A) (m k : nat) :
  flags = replicate m false ++ replicate k true →
  (λ i, if default false (flags !! i) then a else b) <$> seq 0 (m + k)
  = replicate m b ++ replicate k a.
Proof.
  intros ->. apply list_eq. intros i.
  destruct (decide (i < m + k)%nat) as [Hi|Hi].
  - rewrite lookup_fmap_seq by done.
    destruct (decide (i < m)%nat) as [Him|Him].
    + rewrite !lookup_app_l by (rewrite length_replicate; lia).
      by rewrite !lookup_replicate_2.
    + rewrite !lookup_app_r by (rewrite length_replicate; lia).
      rewrite !length_replicate. by rewrite !lookup_replicate_2 by lia.
  - rewrite !lookup_ge_None_2; [done|..].
    + rewrite length_app, !length_replicate. lia.
    + rewrite length_fmap, length_seq. lia.
Qed.

(** X4.  The deformation lookup on a code object that presents the 3D toric
    code of src/ ([n] is [n_k_d[0]], which does not overflow, and the qubit
    coordinates, [axis] and the axis labels are those of [ToricCode3D]).
    Under the class name of src/, [ToricCode3D], which is no key of the
    registry, the lookup raises [NotImplementedError].  Under a registered
    identity the flags are constant on the three blocks of [N = Lx*Ly*Lz]
    qubits: a block is flagged exactly when its axis is the registered one.
    Under the identity [Toric3DCode] these are the last third of the qubits,
    the z edges, and the deformed distribution keeps [(r_x, r_z)] on the
    first [2*N] qubits and exchanges the two rates on the last [N]. *)
Theorem toric_deformation_indices (Lx Ly Lz : Z) (code : StabilizerCode.t (Z * Z * Z)) :
  0 ≤ Lx → 0 ≤ Ly → 0 ≤ Lz → 3 * (Lx * Ly * Lz) < 2 ^ 63 →
  let toric := {| size := (Lx, Ly, Lz) |} in
  let N := Z.to_nat (Lx * Ly * Lz) in
  Z.of_nat (StabilizerCode.n code) = (n_k_d toric).1.1 →
  StabilizerCode.qubit_coordinates code = qubit_coordinates toric →
  StabilizerCode.axis code = axis toric →
  (StabilizerCode.X_AXIS code, StabilizerCode.Y_AXIS code, StabilizerCode.Z_AXIS code)
  = (X_AXIS, Y_AXIS, Z_AXIS) →
  (StabilizerCode.id code = "ToricCode3D" →
   DeformedXZZXErrorModel._get_deformation_indices code
   = Py.raise Py.NotImplementedError)
  ∧ (∀ the_axis,
       DeformedXZZXErrorModel.deformed_axis code !! StabilizerCode.id code
       = Some the_axis →
       DeformedXZZXErrorModel._get_deformation_indices code
       = Py.ok (replicate N (bool_decide (the_axis = X_AXIS))
                ++ replicate N (bool_decide (the_axis = Y_AXIS))
                ++ replicate N (bool_decide (the_axis = Z_AXIS))))
  ∧ (StabilizerCode.id code = "Toric3DCode" →
     DeformedXZZXErrorModel._get_deformation_indices code
     = Py.ok (replicate (2 * N) false ++ replicate N true)
     ∧ ∀ self (probability : R),
         let '(r_x, r_y, r_z) := PauliErrorModel.direction self in
         DeformedXZZXErrorModel.probability_distribution self code probability
         = Py.ok (replicate (3 * N) (1 - probability)%R,
                  Np.scale probability (replicate (2 * N) r_x ++ replicate N r_z),
                  Np.scale probability (replicate (3 * N) r_y),
                  Np.scale probability (replicate (2 * N) r_z ++ replicate N r_x))).
Proof.
  intros Hx Hy Hz Hfit toric N Hcount Hcoords Haxis Hlabels.
  injection Hlabels as HX HY HZ.
  assert (StabilizerCode.n code = (3 * N)%nat) as Hn.
  { unfold n_k_d, toric, Np.mul in Hcount. cbn [size fst] in Hcount.
    assert (0 ≤ Lx * Ly * Lz) by nia.
    rewrite product_no_overflow in Hcount by (simpl; lia).
    simpl in Hcount. rewrite int64_small in Hcount by lia. lia. }
  assert (StabilizerCode.wf code) as Hwf.
  { split.
    - rewrite Hcoords, Hn. by apply toric_qubit_count.
    - rewrite Hcoords, Haxis. apply Forall_lookup. intros i location Hi.
      pose proof (toric_qubit_blocks Lx Ly Lz i location Hx Hy Hz) as H.
      cbv zeta in H. destruct (H Hi) as [_ Hax]. unfold toric. by rewrite Hax. }
  assert (∀ the_axis,
            DeformedXZZXErrorModel.deformed_axis code !! StabilizerCode.id code
            = Some the_axis →
            DeformedXZZXErrorModel._get_deformation_indices code
            = Py.ok (replicate N (bool_decide (the_axis = X_AXIS))
                     ++ replicate N (bool_decide (the_axis = Y_AXIS))
                     ++ replicate N (bool_decide (the_axis = Z_AXIS)))) as Hblocks.
  { intros the_axis Hreg.
    destruct (get_deformation_indices_succeeds code the_axis Hwf Hreg) as [flags Hflags].
    destruct (get_deformation_indices_spec code the_axis flags Hreg Hflags)
      as [Hlen Hspec].
    rewrite Hflags. f_equal. apply list_eq. intros i.
    destruct (decide (i < 3 * N)%nat) as [Hi|Hi].
    - destruct (lookup_lt_is_Some_2 (qubit_coordinates toric) i) as [location Hloc].
      { unfold toric. rewrite toric_qubit_count by done. exact Hi. }
      pose proof (toric_qubit_blocks Lx Ly Lz i location Hx Hy Hz) as Hblock.
      cbv zeta in Hblock. destruct (Hblock Hloc) as [_ Hax]. fold N in Hax.
      destruct (Hspec i) as [Hyes Hno]; [lia|].
      assert (∀ b : bool,
                (b = true ↔ (if decide (i < N)%nat then X_AXIS
                             else if decide (i < 2 * N)%nat then Y_AXIS else Z_AXIS)
                            = the_axis) →
                flags !! i = Some b) as Hflag.
      { intros [] Hb.
        - apply Hyes. exists location. rewrite Hcoords, Haxis. split; [done|].
          fold toric in Hax. rewrite Hax. f_equal. by apply Hb.
        - apply Hno. intros (location' & Hloc' & Hax').
          rewrite Hcoords in Hloc'. rewrite Hloc in Hloc'. injection Hloc' as <-.
          rewrite Haxis in Hax'. fold toric in Hax. rewrite Hax in Hax'.
          injection Hax' as Hax'. by apply Hb in Hax'. }
      destruct (decide (i < N)%nat) as [H1|H1].
      + rewrite lookup_app_l by (rewrite length_replicate; lia).
        rewrite lookup_replicate_2 by done. apply Hflag.
        rewrite bool_decide_eq_true. split; congruence.
      + rewrite lookup_app_r by (rewrite length_replicate; lia).
        rewrite length_replicate.
        destruct (decide (i < 2 * N)%nat) as [H2|H2].
        * rewrite lookup_app_l by (rewrite length_replicate; lia).
          rewrite lookup_replicate_2 by lia. apply Hflag.
          rewrite bool_decide_eq_true. split; congruence.
        * rewrite lookup_app_r by (rewrite length_replicate; lia).
          rewrite length_replicate, lookup_replicate_2 by lia. apply Hflag.
          rewrite bool_decide_eq_true. split; congruence.
    - rewrite !lookup_ge_None_2; [done|rewrite !length_app, !length_replicate; lia|lia]. }
  split_and!.
  - intros Hid. unfold DeformedXZZXErrorModel._get_deformation_indices. rewrite Hid.
    by vm_compute.
  - exact Hblocks.
  - intros Hid.
    assert (DeformedXZZXErrorModel._get_deformation_indices code
            = Py.ok (replicate (2 * N) false ++ replicate N true)) as Hflags.
    { rewrite (Hblocks Z_AXIS).
      - replace (2 * N)%nat with (N + N)%nat by lia.
        by rewrite replicate_add, <- app_assoc.
      - rewrite Hid, <- HZ. by vm_compute. }
    split; [exact Hflags|]. intros self probability.
    assert (length (replicate (2 * N) false ++ replicate N true)
            = StabilizerCode.n code) as Hlen
      by (rewrite length_app, !length_replicate; lia).
    pose proof (deformed_distribution_of_flags self code probability _ Hflags Hlen) as Hpd.
    destruct (PauliErrorModel.direction self) as [[r_x r_y] r_z].
    cbv zeta in Hpd. rewrite Hpd, Hn.
    replace (3 * N)%nat with (2 * N + N)%nat by lia.
    rewrite !(fmap_seq_blocks _ _ _ (2 * N) N eq_refl).
    repeat f_equal; apply list_eq; intros i;
      (destruct (decide (i < 2 * N + N)%nat);
       [by rewrite lookup_fmap_seq, lookup_replicate_2
       |by rewrite !lookup_ge_None_2
          by (rewrite ?length_fmap, ?length_seq, ?length_replicate; lia)]).
Qed.

Lemma toric_deformation_indices_witness :
  let code := {| StabilizerCode.id := "Toric3DCode";
                 StabilizerCode.n := 6;
                 StabilizerCode.qubit_coordinates :=
                   qubit_coordinates {| size := (1, 1, 2) |};
                 StabilizerCode.axis := axis {| size := (1, 1, 2) |};
                 StabilizerCode.X_AXIS := X_AXIS;
                 StabilizerCode.Y_AXIS := Y_AXIS;
                 StabilizerCode.Z_AXIS := Z_AXIS |} in
  DeformedXZZXErrorModel._get_deformation_indices code
  = Py.ok [false; false; false; false; true; true].
Proof.
  intros code.
  pose proof (toric_deformation_indices 1 1 2 code) as H. cbv zeta in H.
  destruct H as (_ & _ & Hflags); [lia..|done|done|done|done|].
  by destruct (Hflags eq_refl) as [-> _].
Defined.

End ToricDeformation.

(** ** The rhombic dodecahedron code: counting stabilizers *)

Section RhombicLatticeFacts.

Lemma length_bind_const {A B} (f : A → list B) (k : nat) (l : list A) :
  (∀ x, length (f x) = k) → length (l ≫= f) = (length l * k)%nat.
Proof.
  intros Hk. induction l as [|x l IH]; csimpl; [done|].
  by rewrite length_app, IH, Hk.
Qed.

Lemma odd_cell_count (x y z : Z) :
  length (filter (λ c : Z * Z * Z, (c.1.1 + c.1.2 + c.2) `mod` 2 = 1) [(x, y, z)])
  = Z.to_nat ((1 + (z + (x + y)) `mod` 2) `div` 2).
Proof.
  rewrite filter_cons, filter_nil. simpl.
  pose proof (Z.mod_pos_bound (x + y + z) 2).
  replace (z + (x + y)) with (x + y + z) by lia.
  case_decide as Hodd.
  - by rewrite Hodd.
  - assert ((x + y + z) `mod` 2 = 0) as -> by lia. done.
Qed.

(** Of the positions of an [a x b x c] box, [floor(a b c / 2)] have an odd
    coordinate sum. *)
Lemma odd_position_count (a b c : nat) :
  length (filter (λ c : Z * Z * Z, (c.1.1 + c.1.2 + c.2) `mod` 2 = 1)
            (Py.product3 (Py.range (Z.of_nat a)) (Py.range (Z.of_nat b))
               (Py.range (Z.of_nat c))))
  = Z.to_nat ((Z.of_nat a * Z.of_nat b * Z.of_nat c) `div` 2).
Proof.
  unfold Py.product3. rewrite filter_bind_list.
  rewrite (layer_count _ (Z.of_nat b * Z.of_nat c) 0); [|lia|].
  { change (0 `mod` 2) with 0. do 2 f_equal. lia. }
  intros x. rewrite filter_bind_list, Z.add_0_r.
  rewrite (layer_count _ (Z.of_nat c) x); [done|lia|].
  intros y. rewrite filter_bind_list.
  rewrite (layer_count _ 1 (y + x)); [do 2 f_equal; lia|lia|].
  intros z. rewrite odd_cell_count. do 4 f_equal. lia.
Qed.

Lemma cube_X_positions_count (Lx Ly Lz : Z) :
  0 ≤ Lx → 0 ≤ Ly → 0 ≤ Lz →
  length (RhombicCode.cube_X_positions (RhombicCode.__init__ Lx (Some Ly) (Some Lz)))
  = Z.to_nat ((Lx * Ly * Lz) `div` 2).
Proof.
  intros Hx Hy Hz. unfold RhombicCode.cube_X_positions. simpl.
  rewrite <- (Z2Nat.id Lx Hx), <- (Z2Nat.id Ly Hy), <- (Z2Nat.id Lz Hz) at 1.
  rewrite odd_position_count. by rewrite !Z2Nat.id.
Qed.

Lemma product3_bind {B} (f : Z * Z * Z → list B) (xs ys zs : list Z) :
  Py.product3 xs ys zs ≫= f = x ← xs; y ← ys; z ← zs; f (x, y, z).
Proof.
  unfold Py.product3.
  induction xs as [|x xs IHx]; csimpl; [done|]. rewrite bind_app, IHx. f_equal.
  clear. induction ys as [|y ys IHy]; csimpl; [done|]. rewrite bind_app, IHy. f_equal.
  clear. induction zs as [|z zs IHz]; csimpl; [done|]. by rewrite IHz.
Qed.

Lemma rhombic_vertex_coordinates_as_product (Lx Ly Lz : Z) :
  IndexedRhombicLattice.vertex_coordinates {| IndexedRhombicCode.size := (Lx, Ly, Lz) |}
  = Py.product3 (Py.range3 0 (2 * Lx) 2) (Py.range3 0 (2 * Ly) 2) (Py.range3 0 (2 * Lz) 2)
    ≫= (λ c, (λ axis, (axis, c.1.1, c.1.2, c.2)) <$> Py.range 4).
Proof.
  unfold IndexedRhombicLattice.vertex_coordinates. simpl.
  rewrite product3_bind. simpl. done.
Qed.

Lemma elem_of_rhombic_vertex_coordinates (Lx Ly Lz axis x y z : Z) :
  (axis, x, y, z)
    ∈ IndexedRhombicLattice.vertex_coordinates {| IndexedRhombicCode.size := (Lx, Ly, Lz) |}
  ↔ 0 ≤ axis < 4 ∧ (x `mod` 2 = 0 ∧ 0 ≤ x < 2 * Lx) ∧ (y `mod` 2 = 0 ∧ 0 ≤ y < 2 * Ly)
    ∧ (z `mod` 2 = 0 ∧ 0 ≤ z < 2 * Lz).
Proof.
  rewrite rhombic_vertex_coordinates_as_product, list_elem_of_bind. split.
  - intros ([[x' y'] z'] & Hv & Hc). cbv beta in Hv.
    apply list_elem_of_fmap in Hv as (axis' & [= -> -> -> ->] & Haxis%elem_of_range).
    apply elem_of_product3 in Hc. rewrite !elem_of_range_even in Hc. tauto.
  - intros (Haxis & Hx & Hy & Hz). exists (x, y, z). split.
    + cbv beta. apply list_elem_of_fmap. exists axis. split; [done|].
      by apply elem_of_range.
    + apply elem_of_product3. by rewrite !elem_of_range_even.
Qed.

Lemma rhombic_vertex_coordinates_NoDup self :
  NoDup (IndexedRhombicLattice.vertex_coordinates self).
Proof.
  destruct self as [[[Lx Ly] Lz]]. rewrite rhombic_vertex_coordinates_as_product.
  apply NoDup_bind.
  - intros [[x y] z] [[x' y'] z'] v _ _ (a & -> & _)%list_elem_of_fmap
      (a' & [= -> -> -> ->] & _)%list_elem_of_fmap. done.
  - intros [[x y] z] _. apply NoDup_fmap_2; [|apply NoDup_range].
    by intros a a' [= ->].
  - apply NoDup_product3; by apply NoDup_range3.
Qed.

Lemma rhombic_vertex_coordinates_length (Lx Ly Lz : Z) :
  0 ≤ Lx → 0 ≤ Ly → 0 ≤ Lz →
  length (IndexedRhombicLattice.vertex_coordinates
            {| IndexedRhombicCode.size := (Lx, Ly, Lz) |})
  = Z.to_nat (4 * Lx * Ly * Lz).
Proof.
  intros Hx Hy Hz. rewrite rhombic_vertex_coordinates_as_product.
  rewrite (length_bind_const _ 4%nat)
    by (intros; by rewrite length_fmap, length_range).
  rewrite length_product3_ranges by auto. nia.
Qed.

End RhombicLatticeFacts.

(** ** The rhombic dodecahedron code: the two implementations *)

Section RhombicEnumerations.

Lemma range3_even_as_range L :
  Py.range3 0 (2 * L) 2 = (λ a, 2 * a) <$> Py.range L.
Proof.
  unfold Py.range, Py.range3. rewrite range_len_even, range_len_unit.
  rewrite <- list_fmap_compose. apply list_fmap_ext. intros _ i _. simpl. lia.
Qed.

Lemma bind_singleton_fmap {A B} (g : A → B) (l : list A) :
  l ≫= (λ x, [g x]) = g <$> l.
Proof. induction l as [|x l IH]; csimpl; [done|]. by rewrite IH. Qed.

(** Lookup in a concatenation of blocks of equal length. *)
Lemma lookup_bind_const {A B} (f : A → list B) (m : nat) (l : list A) :
  (∀ x, length (f x) = m) →
  ∀ k a : nat, (a < m)%nat →
    (l ≫= f) !! (k * m + a)%nat = l !! k ≫= (λ x, f x !! a).
Proof.
  intros Hm. induction l as [|x l IH]; intros k a Ha; csimpl.
  - by rewrite !lookup_nil.
  - destruct k as [|k]; simpl.
    + rewrite lookup_app_l by (rewrite Hm; lia). done.
    + rewrite lookup_app_r by (rewrite Hm; lia). rewrite Hm.
      replace (m + k * m + a - m)%nat with (k * m + a)%nat by lia. by apply IH.
Qed.

Lemma triangle_Z_positions_as_blocks (Lx Ly Lz : Z) :
  RhombicOperators.triangle_Z_positions (RhombicCode.__init__ Lx (Some Ly) (Some Lz))
  = Py.range 4
    ≫= (λ axis, (λ c : Z * Z * Z, (axis, c.1.1, c.1.2, c.2))
                  <$> Py.product3 (Py.range Lx) (Py.range Ly) (Py.range Lz)).
Proof.
  unfold RhombicOperators.triangle_Z_positions.
  change (RhombicCode.size _) with (Lx, Ly, Lz). cbv beta iota.
  apply list_bind_ext; [|done]. intros axis.
  rewrite <- bind_singleton_fmap, product3_bind. done.
Qed.

Lemma rhombic_vertex_coordinates_as_blocks (Lx Ly Lz : Z) :
  IndexedRhombicLattice.vertex_coordinates {| IndexedRhombicCode.size := (Lx, Ly, Lz) |}
  = Py.product3 (Py.range Lx) (Py.range Ly) (Py.range Lz)
    ≫= (λ c, (λ axis, (axis, 2 * c.1.1, 2 * c.1.2, 2 * c.2)) <$> Py.range 4).
Proof.
  rewrite rhombic_vertex_coordinates_as_product, !range3_even_as_range.
  rewrite product3_fmap, list_fmap_bind. done.
Qed.

Lemma elem_of_triangle_Z_positions (Lx Ly Lz axis x y z : Z) :
  (axis, x, y, z)
    ∈ RhombicOperators.triangle_Z_positions (RhombicCode.__init__ Lx (Some Ly) (Some Lz))
  ↔ 0 ≤ axis < 4 ∧ 0 ≤ x < Lx ∧ 0 ≤ y < Ly ∧ 0 ≤ z < Lz.
Proof.
  rewrite triangle_Z_positions_as_blocks, list_elem_of_bind. split.
  - intros (axis' & Hv & Haxis%elem_of_range). cbv beta in Hv.
    apply list_elem_of_fmap in Hv as ([[x' y'] z'] & [= -> -> -> ->] & Hc).
    apply elem_of_product3 in Hc. rewrite !elem_of_range in Hc. simpl. tauto.
  - intros (Haxis & Hx & Hy & Hz). exists axis. split; [|by apply elem_of_range].
    cbv beta. apply list_elem_of_fmap. exists (x, y, z). split; [done|].
    apply elem_of_product3. by rewrite !elem_of_range.
Qed.

Lemma triangle_Z_positions_NoDup (Lx Ly Lz : Z) :
  NoDup (RhombicOperators.triangle_Z_positions
           (RhombicCode.__init__ Lx (Some Ly) (Some Lz))).
Proof.
  rewrite triangle_Z_positions_as_blocks. apply NoDup_bind.
  - intros a a' v _ _ ([[x y] z] & -> & _)%list_elem_of_fmap
      ([[x' y'] z'] & [= -> _ _ _] & _)%list_elem_of_fmap. done.
  - intros a _. apply NoDup_fmap_2; [|apply NoDup_product3; apply NoDup_range].
    intros [[x y] z] [[x' y'] z']. simpl. by intros [= -> -> ->].
  - apply NoDup_range.
Qed.

#[local] Instance doubled_vertex_inj : Inj (=) (=) IndexedRhombicLattice.doubled_vertex.
Proof.
  intros [[[a x] y] z] [[[a' x'] y'] z']. simpl. intros [= -> ? ? ?].
  repeat f_equal; lia.
Qed.

Lemma length_product3_unit_ranges (Lx Ly Lz : Z) :
  0 ≤ Lx → 0 ≤ Ly → 0 ≤ Lz →
  length (Py.product3 (Py.range Lx) (Py.range Ly) (Py.range Lz))
  = Z.to_nat (Lx * Ly * Lz).
Proof. intros. rewrite length_product3, !length_range. nia. Qed.

End RhombicEnumerations.

Section RhombicStabilizers.

(** X5.  The three dictionaries of the indexed rhombic code are bijections
    onto an initial segment of the indices: the qubits onto
    [0, 3*Lx*Ly*Lz), the vertices (triangle stabilizers, four per lattice
    site) onto [0, 4*Lx*Ly*Lz) and the faces (cube stabilizers, the sites of
    one parity) onto [0, floor(Lx*Ly*Lz / 2)).  The direct implementation
    builds the same number [floor(Lx*Ly*Lz / 2)] of cube stabilizers. *)
Theorem rhombic_index_bijections (Lx Ly Lz : Z) :
  0 ≤ Lx → 0 ≤ Ly → 0 ≤ Lz →
  let self := {| IndexedRhombicCode.size := (Lx, Ly, Lz) |} in
  Py.index_bijection (IndexedRhombicLattice.qubit_coordinates self)
    (IndexedRhombicLattice._create_qubit_indices self) (Z.to_nat (3 * Lx * Ly * Lz))
  ∧ Py.index_bijection (IndexedRhombicLattice.vertex_coordinates self)
      (IndexedRhombicLattice._create_vertex_indices self) (Z.to_nat (4 * Lx * Ly * Lz))
  ∧ Py.index_bijection (IndexedRhombicCode.face_coordinates self)
      (IndexedRhombicCode._create_face_indices self)
      (Z.to_nat ((Lx * Ly * Lz) `div` 2))
  ∧ ∀ (bsf : Type) (cube : RhombicCode.t → Z * Z * Z → bsf),
      length (RhombicCode.get_cube_X_stabilizers cube
                (RhombicCode.__init__ Lx (Some Ly) (Some Lz)))
      = Z.to_nat ((Lx * Ly * Lz) `div` 2).
Proof.
  intros Hx Hy Hz self. split_and!.
  - rewrite <- (toric_qubit_coordinates_length Lx Ly Lz) by done.
    apply (dict_of_enumerate_bijection
             (ToricCode3D.qubit_coordinates {| ToricCode3D.size := (Lx, Ly, Lz) |})).
    apply toric_qubit_coordinates_NoDup.
  - rewrite <- (rhombic_vertex_coordinates_length Lx Ly Lz) by done.
    apply dict_of_enumerate_bijection, rhombic_vertex_coordinates_NoDup.
  - rewrite <- (cube_X_positions_count Lx Ly Lz) by done.
    rewrite <- (length_fmap IndexedRhombicCode.doubled).
    rewrite <- face_coordinates_as_cube_positions.
    apply dict_of_enumerate_bijection, face_coordinates_NoDup.
  - intros bsf cube. unfold RhombicCode.get_cube_X_stabilizers.
    rewrite length_fmap. by apply cube_X_positions_count.
Qed.

Lemma rhombic_index_bijections_witness :
  Py.index_bijection
    (IndexedRhombicCode.face_coordinates {| IndexedRhombicCode.size := (3, 3, 3) |})
    (IndexedRhombicCode._create_face_indices {| IndexedRhombicCode.size := (3, 3, 3) |})
    13.
Proof. apply (rhombic_index_bijections 3 3 3); lia. Defined.

(** X6.  The two implementations of the rhombic code enumerate the same
    triangle stabilizers, up to doubling the vertex coordinate: the direct
    list holds each [(axis, position)] once, its image under
    [(axis, a, b, c) -> (axis, 2a, 2b, 2c)] is a rearrangement of the indexed
    list, and there are [4*Lx*Ly*Lz] of them.  The order differs: the
    triangle of axis [a] at the [k]-th lattice site has index
    [a * Lx*Ly*Lz + k] in the direct implementation (axis-major) and
    [4 * k + a] in the indexed one (site-major). *)
Theorem rhombic_triangle_enumerations_agree (Lx Ly Lz : Z) :
  0 ≤ Lx → 0 ≤ Ly → 0 ≤ Lz →
  let direct := RhombicCode.__init__ Lx (Some Ly) (Some Lz) in
  let indexed := {| IndexedRhombicCode.size := (Lx, Ly, Lz) |} in
  let N := Z.to_nat (Lx * Ly * Lz) in
  NoDup (RhombicOperators.triangle_Z_positions direct)
  ∧ IndexedRhombicLattice.doubled_vertex <$> RhombicOperators.triangle_Z_positions direct
    ≡ₚ IndexedRhombicLattice.vertex_coordinates indexed
  ∧ (∀ (bsf : Type) (triangle : RhombicCode.t → Z * Z * Z * Z → bsf),
       length (RhombicOperators.get_triangle_Z_stabilizers triangle direct)
       = Z.to_nat (4 * Lx * Ly * Lz))
  ∧ (∀ k a : nat, (k < N)%nat → (a < 4)%nat →
       IndexedRhombicLattice.vertex_coordinates indexed !! (k * 4 + a)%nat
       = IndexedRhombicLattice.doubled_vertex
           <$> RhombicOperators.triangle_Z_positions direct !! (a * N + k)%nat).
Proof.
  intros Hx Hy Hz direct indexed N.
  assert (IndexedRhombicLattice.doubled_vertex
            <$> RhombicOperators.triangle_Z_positions direct
          ≡ₚ IndexedRhombicLattice.vertex_coordinates indexed) as Hperm.
  { apply NoDup_Permutation.
    - apply NoDup_fmap_2; [apply doubled_vertex_inj|apply triangle_Z_positions_NoDup].
    - apply rhombic_vertex_coordinates_NoDup.
    - intros [[[a x] y] z]. unfold indexed, direct.
      rewrite elem_of_rhombic_vertex_coordinates, list_elem_of_fmap. split.
      + intros ([[[a' x'] y'] z'] & [= -> -> -> ->] & Hv).
        apply elem_of_triangle_Z_positions in Hv.
        rewrite !(Z.mul_comm 2), !Z.mod_mul by done. lia.
      + intros (Ha & [Hx2 Hxr] & [Hy2 Hyr] & [Hz2 Hzr]).
        exists (a, x `div` 2, y `div` 2, z `div` 2). split.
        * simpl. pose proof (Z.div_mod x 2). pose proof (Z.div_mod y 2).
          pose proof (Z.div_mod z 2). repeat f_equal; lia.
        * apply elem_of_triangle_Z_positions.
          pose proof (Z.div_mod x 2). pose proof (Z.div_mod y 2).
          pose proof (Z.div_mod z 2). lia. }
  split_and!.
  - apply triangle_Z_positions_NoDup.
  - exact Hperm.
  - intros bsf triangle. unfold RhombicOperators.get_triangle_Z_stabilizers.
    rewrite length_fmap, <- (length_fmap IndexedRhombicLattice.doubled_vertex).
    rewrite (Permutation_length Hperm).
    by apply rhombic_vertex_coordinates_length.
  - intros k a Hk Ha. unfold indexed, direct.
    rewrite rhombic_vertex_coordinates_as_blocks, triangle_Z_positions_as_blocks.
    rewrite (lookup_bind_const _ 4)
      by (done || intros; by rewrite length_fmap, length_range).
    rewrite (lookup_bind_const _ N)
      by (done || intros; by rewrite length_fmap, length_product3_unit_ranges).
    destruct (lookup_lt_is_Some_2
                (Py.product3 (Py.range Lx) (Py.range Ly) (Py.range Lz)) k)
      as [[[x y] z] Hc]; [by rewrite length_product3_unit_ranges|].
    assert (Py.range 4 !! a = Some (Z.of_nat a)) as Hrange.
    { apply lookup_range3. rewrite range_len_unit. lia. }
    rewrite Hc, Hrange. cbn -[Py.range Py.product3 Z.mul].
    rewrite !list_lookup_fmap, Hc, Hrange. done.
Qed.

Lemma rhombic_triangle_enumerations_agree_witness :
  IndexedRhombicLattice.vertex_coordinates {| IndexedRhombicCode.size := (1, 1, 2) |}
    !! 5%nat
  = IndexedRhombicLattice.doubled_vertex
      <$> RhombicOperators.triangle_Z_positions
            (RhombicCode.__init__ 1 (Some 1) (Some 2)) !! 3%nat.
Proof.
  pose proof (rhombic_triangle_enumerations_agree 1 1 2) as H. cbv zeta in H.
  destruct H as (_ & _ & _ & Hindex); [lia..|].
  apply (Hindex 1%nat 1%nat); simpl; lia.
Defined.

End RhombicStabilizers.

(** ** The logical operators of the rhombic code *)

Section RhombicLogicals.
Context {loc : Type}.

(** A sheet of sites: two nested loops that visit [f a b] when [P a b]. *)
Lemma elem_of_sheet (P : Z → Z → Prop) `{!∀ a b, Decision (P a b)}
    (pauli : string) (f : Z → Z → loc) (La Lb : Z) (v : loc) :
  v ∈ LogicalOperator.sites
        (a ← Py.range La; b ← Py.range Lb;
         if decide (P a b) then [(pauli, f a b)] else [])
  ↔ ∃ a b, 0 ≤ a < La ∧ 0 ≤ b < Lb ∧ P a b ∧ v = f a b.
Proof.
  rewrite sites_bind2, elem_of_bind2. setoid_rewrite elem_of_range. split.
  - intros (a & b & Ha & Hb & Hv). exists a, b. case_decide.
    + apply list_elem_of_singleton in Hv. tauto.
    + by apply elem_of_nil in Hv.
  - intros (a & b & Ha & Hb & HP & ->). exists a, b. rewrite decide_True by done.
    do 2 (split; [done|]). by apply list_elem_of_singleton.
Qed.

Lemma NoDup_sheet (P : Z → Z → Prop) `{!∀ a b, Decision (P a b)}
    (pauli : string) (f : Z → Z → loc) (La Lb : Z) :
  (∀ a b a' b', f a b = f a' b' → a = a' ∧ b = b') →
  NoDup (LogicalOperator.sites
           (a ← Py.range La; b ← Py.range Lb;
            if decide (P a b) then [(pauli, f a b)] else [])).
Proof.
  intros Hinj. rewrite sites_bind2. apply NoDup_bind2; [apply NoDup_range..| |].
  - intros a b. case_decide; [apply NoDup_singleton|constructor].
  - intros a b a' b' v. repeat case_decide; try (by intros ?%elem_of_nil);
      try (by intros _ ?%elem_of_nil).
    intros ->%list_elem_of_singleton ?%list_elem_of_singleton. by apply Hinj.
Qed.

(** Half of the sites of an even-by-even sheet have an odd coordinate sum. *)
Lemma length_odd_sheet (pauli : string) (f : Z → Z → loc) (La Lb : Z) :
  0 ≤ La → 0 ≤ Lb →
  length (a ← Py.range (2 * La); b ← Py.range (2 * Lb);
          if decide ((a + b) `mod` 2 = 1) then [(pauli, f a b)] else [])
  = Z.to_nat (2 * La * Lb).
Proof.
  intros Ha Hb. rewrite (length_bind_const _ (Z.to_nat Lb)).
  - rewrite length_range. nia.
  - intros a. rewrite <- (Z2Nat.id (2 * Lb)) by lia.
    rewrite (layer_count _ 1 a); [|lia|].
    + rewrite Z2Nat.id by lia. f_equal.
      pose proof (Z.mod_pos_bound a 2). Z.div_mod_to_equations. lia.
    + intros b. pose proof (Z.mod_pos_bound (a + b) 2).
      replace (b + a) with (a + b) by lia. case_decide as Hodd.
      * by rewrite Hodd.
      * assert ((a + b) `mod` 2 = 0) as -> by lia. done.
Qed.

End RhombicLogicals.

(** ** The logical operators of the indexed rhombic code *)

Section IndexedRhombicLogicals.

Lemma rhombic_logical_x_site (Lx Ly Lz : Z) (i : nat) op (x y z : Z) :
  IndexedRhombicLattice.logical_xs {| IndexedRhombicCode.size := (Lx, Ly, Lz) |} !! i
  = Some op →
  (x, y, z) ∈ LogicalOperator.sites op
  ↔ match i with
    | 0%nat => (0 ≤ x < 2 * Lx ∧ 0 ≤ y < 2 * Ly ∧ (x + y) `mod` 2 = 1) ∧ z = 0
    | 1%nat => (0 ≤ x < 2 * Lx ∧ 0 ≤ z < 2 * Lz ∧ (x + z) `mod` 2 = 1) ∧ y = 0
    | _ => (0 ≤ y < 2 * Ly ∧ 0 ≤ z < 2 * Lz ∧ (y + z) `mod` 2 = 1) ∧ x = 0
    end.
Proof.
  unfold IndexedRhombicLattice.logical_xs.
  change (IndexedRhombicCode.size _) with (Lx, Ly, Lz). cbv beta iota.
  destruct i as [|[|[|i]]]; cbn [lookup list_lookup]; intros Hop; [| | |done];
    injection Hop as <-.
  - etrans; [apply (elem_of_sheet (λ a b, (a + b) `mod` 2 = 1) "X" (λ a b, (a, b, 0)))|].
    split; [intros (a & b & ? & ? & ? & [= -> -> ->]); tauto
           |intros ((? & ? & ?) & ->); by exists x, y].
  - etrans; [apply (elem_of_sheet (λ a b, (a + b) `mod` 2 = 1) "X" (λ a b, (a, 0, b)))|].
    split; [intros (a & b & ? & ? & ? & [= -> -> ->]); tauto
           |intros ((? & ? & ?) & ->); by exists x, z].
  - etrans; [apply (elem_of_sheet (λ a b, (a + b) `mod` 2 = 1) "X" (λ a b, (0, a, b)))|].
    split; [intros (a & b & ? & ? & ? & [= -> -> ->]); tauto
           |intros ((? & ? & ?) & ->); by exists y, z].
Qed.

Lemma rhombic_logical_z_site (Lx Ly Lz : Z) (i : nat) op (x y z : Z) :
  IndexedRhombicLattice.logical_zs {| IndexedRhombicCode.size := (Lx, Ly, Lz) |} !! i
  = Some op →
  (x, y, z) ∈ LogicalOperator.sites op
  ↔ match i with
    | 0%nat => (x `mod` 2 = 0 ∧ 0 ≤ x < 2 * Lx) ∧ y = 1 ∧ z = 0
    | 1%nat => x = 1 ∧ (y `mod` 2 = 0 ∧ 0 ≤ y < 2 * Ly) ∧ z = 0
    | _ => x = 0 ∧ y = 1 ∧ (z `mod` 2 = 0 ∧ 0 ≤ z < 2 * Lz)
    end.
Proof.
  unfold IndexedRhombicLattice.logical_zs.
  change (IndexedRhombicCode.size _) with (Lx, Ly, Lz). cbv beta iota.
  destruct i as [|[|[|i]]]; cbn [lookup list_lookup]; intros Hop; [| | |done];
    injection Hop as <-;
    rewrite sites_fmap, list_elem_of_fmap; setoid_rewrite elem_of_range_even.
  - split; [intros (v & [= -> -> ->] & Hv); tauto|intros (Hx & -> & ->); by exists x].
  - split; [intros (v & [= -> -> ->] & Hv); tauto|intros (-> & Hy & ->); by exists y].
  - split; [intros (v & [= -> -> ->] & Hv); tauto|intros (-> & -> & Hz); by exists z].
Qed.

Lemma rhombic_logical_x_NoDup (Lx Ly Lz : Z) op :
  op ∈ IndexedRhombicLattice.logical_xs {| IndexedRhombicCode.size := (Lx, Ly, Lz) |} →
  NoDup (LogicalOperator.sites op).
Proof.
  unfold IndexedRhombicLattice.logical_xs.
  change (IndexedRhombicCode.size _) with (Lx, Ly, Lz). cbv beta iota.
  rewrite !elem_of_cons, elem_of_nil.
  intros [->|[->|[->|[]]]]; apply NoDup_sheet; by intros ???? [= -> ->].
Qed.

Lemma rhombic_logical_z_NoDup (Lx Ly Lz : Z) op :
  op ∈ IndexedRhombicLattice.logical_zs {| IndexedRhombicCode.size := (Lx, Ly, Lz) |} →
  NoDup (LogicalOperator.sites op).
Proof.
  unfold IndexedRhombicLattice.logical_zs.
  change (IndexedRhombicCode.size _) with (Lx, Ly, Lz). cbv beta iota.
  rewrite !elem_of_cons, elem_of_nil.
  intros [->|[->|[->|[]]]]; rewrite sites_fmap;
    (apply NoDup_fmap_2_strong; [|by apply NoDup_range3]); by intros ???? [= ->].
Qed.

Lemma rhombic_logical_z_weights (Lx Ly Lz : Z) :
  length <$> IndexedRhombicLattice.logical_zs {| IndexedRhombicCode.size := (Lx, Ly, Lz) |}
  = [Z.to_nat Lx; Z.to_nat Ly; Z.to_nat Lz].
Proof.
  unfold IndexedRhombicLattice.logical_zs.
  change (IndexedRhombicCode.size _) with (Lx, Ly, Lz). cbv beta iota.
  cbn [fmap list_fmap]. by rewrite !length_fmap, !length_range3, !range_len_even.
Qed.

Ltac parity := Z.div_mod_to_equations; lia.

(** X7.  The logical operators of the indexed rhombic code, for
    [Lx, Ly, Lz >= 1].  Every site is a qubit of the code and is visited
    once; the X sheets have weights [2 Lx Ly], [2 Lx Lz], [2 Ly Lz] and the Z
    lines weights [Lx], [Ly], [Lz].  The number of qubits logical X number
    [i] shares with logical Z number [j] is the entry [(i, j)] of
    [[Lx, Ly, 1], [0, 1, 0], [1, 0, Lz]]: the pairing of the operators is
    not the diagonal one, and whether [X_0] and [Z_0] anticommute depends on
    the parity of [Lx]. *)
Theorem rhombic_logical_operators (Lx Ly Lz : Z) :
  1 ≤ Lx → 1 ≤ Ly → 1 ≤ Lz →
  let self := {| IndexedRhombicCode.size := (Lx, Ly, Lz) |} in
  (∀ op, op ∈ IndexedRhombicLattice.logical_xs self
         ∨ op ∈ IndexedRhombicLattice.logical_zs self →
     NoDup (LogicalOperator.sites op)
     ∧ ∀ location, location ∈ LogicalOperator.sites op →
         location ∈ IndexedRhombicLattice.qubit_coordinates self)
  ∧ length <$> IndexedRhombicLattice.logical_xs self
    = [Z.to_nat (2 * Lx * Ly); Z.to_nat (2 * Lx * Lz); Z.to_nat (2 * Ly * Lz)]
  ∧ length <$> IndexedRhombicLattice.logical_zs self
    = [Z.to_nat Lx; Z.to_nat Ly; Z.to_nat Lz]
  ∧ ∀ (i j : nat) a b,
      IndexedRhombicLattice.logical_xs self !! i = Some a →
      IndexedRhombicLattice.logical_zs self !! j = Some b →
      [ [Z.to_nat Lx; Z.to_nat Ly; 1%nat];
        [0%nat; 1%nat; 0%nat];
        [1%nat; 0%nat; Z.to_nat Lz] ] !! i ≫= (.!! j)
      = Some (LogicalOperator.overlap a b).
Proof.
  intros Hx Hy Hz self. split_and!.
  - intros op [Hop|Hop]; split.
    + by eapply rhombic_logical_x_NoDup.
    + apply list_elem_of_lookup in Hop as [i Hi]. intros [[x y] z] Hsite.
      apply (rhombic_logical_x_site Lx Ly Lz i op x y z Hi) in Hsite.
      apply (toric_logical_site_is_qubit Lx Ly Lz); destruct i as [|[|i]]; parity.
    + by eapply rhombic_logical_z_NoDup.
    + apply list_elem_of_lookup in Hop as [i Hi]. intros [[x y] z] Hsite.
      apply (rhombic_logical_z_site Lx Ly Lz i op x y z Hi) in Hsite.
      apply (toric_logical_site_is_qubit Lx Ly Lz); destruct i as [|[|i]]; parity.
  - unfold self, IndexedRhombicLattice.logical_xs.
    change (IndexedRhombicCode.size _) with (Lx, Ly, Lz). cbv beta iota.
    cbn [fmap list_fmap]. by rewrite !length_odd_sheet by lia.
  - apply rhombic_logical_z_weights.
  - intros i j a b Ha Hb. unfold self in Ha, Hb.
    assert (NoDup (LogicalOperator.sites a)) as Hnda
      by (eapply rhombic_logical_x_NoDup, list_elem_of_lookup_2, Ha).
    assert (NoDup (LogicalOperator.sites b)) as Hndb
      by (eapply rhombic_logical_z_NoDup, list_elem_of_lookup_2, Hb).
    assert (length b = default 0%nat ([Z.to_nat Lx; Z.to_nat Ly; Z.to_nat Lz] !! j))
      as Hlen.
    { revert Hb. unfold IndexedRhombicLattice.logical_zs.
      change (IndexedRhombicCode.size _) with (Lx, Ly, Lz). cbv beta iota.
      destruct j as [|[|[|j]]]; cbn [lookup list_lookup]; intros Hb; [| | |done];
        injection Hb as <-; by rewrite length_fmap, length_range3, range_len_even. }
    assert (length (LogicalOperator.sites b) = length b) as Hsites
      by apply length_fmap.
    pose proof (λ x y z, rhombic_logical_x_site Lx Ly Lz i a x y z Ha) as Hxs.
    pose proof (λ x y z, rhombic_logical_z_site Lx Ly Lz j b x y z Hb) as Hzs.
    apply lookup_lt_Some in Ha as Hi. apply lookup_lt_Some in Hb as Hj.
    unfold LogicalOperator.overlap.
    destruct i as [|[|[|i]]], j as [|[|[|j]]]; try (simpl in Hi, Hj; lia);
      cbn [lookup list_lookup mbind option_bind]; f_equal; symmetry.
    + rewrite (shared_count _ _ (LogicalOperator.sites b)); [by rewrite Hsites, Hlen|done..|].
      intros [[x y] z]. rewrite Hxs, Hzs. split; intros ?; parity.
    + rewrite (shared_count _ _ (LogicalOperator.sites b)); [by rewrite Hsites, Hlen|done..|].
      intros [[x y] z]. rewrite Hxs, Hzs. split; intros ?; parity.
    + rewrite (shared_count _ _ [(0, 1, 0)]); [done|done|apply NoDup_singleton|].
      intros [[x y] z]. rewrite Hxs, Hzs, list_elem_of_singleton.
      split; [intros ?; repeat f_equal; parity|intros [= -> -> ->]; parity].
    + rewrite (shared_count _ _ []); [done|done|constructor|].
      intros [[x y] z]. rewrite Hxs, Hzs, elem_of_nil. split; [intros ?; parity|done].
    + rewrite (shared_count _ _ [(1, 0, 0)]); [done|done|apply NoDup_singleton|].
      intros [[x y] z]. rewrite Hxs, Hzs, list_elem_of_singleton.
      split; [intros ?; repeat f_equal; parity|intros [= -> -> ->]; parity].
    + rewrite (shared_count _ _ []); [done|done|constructor|].
      intros [[x y] z]. rewrite Hxs, Hzs, elem_of_nil. split; [intros ?; parity|done].
    + rewrite (shared_count _ _ [(0, 1, 0)]); [done|done|apply NoDup_singleton|].
      intros [[x y] z]. rewrite Hxs, Hzs, list_elem_of_singleton.
      split; [intros ?; repeat f_equal; parity|intros [= -> -> ->]; parity].
    + rewrite (shared_count _ _ []); [done|done|constructor|].
      intros [[x y] z]. rewrite Hxs, Hzs, elem_of_nil. split; [intros ?; parity|done].
    + rewrite (shared_count _ _ (LogicalOperator.sites b)); [by rewrite Hsites, Hlen|done..|].
      intros [[x y] z]. rewrite Hxs, Hzs. split; intros ?; parity.
Qed.

Lemma rhombic_logical_operators_witness :
  length <$> IndexedRhombicLattice.logical_xs {| IndexedRhombicCode.size := (2, 2, 2) |}
  = [8; 8; 8]%nat
  ∧ length <$> IndexedRhombicLattice.logical_zs {| IndexedRhombicCode.size := (2, 2, 2) |}
    = [2; 2; 2]%nat.
Proof.
  destruct (rhombic_logical_operators 2 2 2) as (_ & Hxs & Hzs & _); [lia..|].
  split; [exact Hxs|exact Hzs].
Defined.

End IndexedRhombicLogicals.

(** ** The logical operators of the direct rhombic code *)

Section DirectRhombicLogicals.

Lemma elem_of_two {A} (v a b : A) : v ∈ [a; b] ↔ v = a ∨ v = b.
Proof. by rewrite elem_of_cons, list_elem_of_singleton. Qed.

Lemma direct_logical_x_site (Lx Ly Lz : Z) (i : nat) op (axis x y z : Z) :
  RhombicOperators.logical_xs (RhombicCode.__init__ Lx (Some Ly) (Some Lz)) !! i = Some op →
  (axis, x, y, z) ∈ LogicalOperator.sites op
  ↔ match i with
    | 0%nat => (axis = 0 ∨ axis = 1) ∧ 0 ≤ x < Lx ∧ 0 ≤ y < Ly ∧ z = 0
    | 1%nat => (axis = 0 ∨ axis = 2) ∧ 0 ≤ x < Lx ∧ y = 0 ∧ 0 ≤ z < Lz
    | _ => (axis = 1 ∨ axis = 2) ∧ x = 0 ∧ 0 ≤ y < Ly ∧ 0 ≤ z < Lz
    end.
Proof.
  unfold RhombicOperators.logical_xs.
  change (RhombicCode.size _) with (Lx, Ly, Lz). cbv beta iota.
  destruct i as [|[|[|i]]]; cbn [lookup list_lookup]; intros Hop; [| | |done];
    injection Hop as <-;
    rewrite sites_bind2, elem_of_bind2; setoid_rewrite elem_of_range;
    unfold LogicalOperator.sites; cbn [fmap list_fmap snd];
    setoid_rewrite elem_of_two;
    unfold RhombicOperators.X_AXIS, RhombicOperators.Y_AXIS, RhombicOperators.Z_AXIS.
  - split; [intros (a & b & ? & ? & [[= -> -> -> ->]|[= -> -> -> ->]]); tauto|].
    intros ([-> | ->] & ? & ? & ->); exists x, y; tauto.
  - split; [intros (a & b & ? & ? & [[= -> -> -> ->]|[= -> -> -> ->]]); tauto|].
    intros ([-> | ->] & ? & -> & ?); exists x, z; tauto.
  - split; [intros (a & b & ? & ? & [[= -> -> -> ->]|[= -> -> -> ->]]); tauto|].
    intros ([-> | ->] & -> & ? & ?); exists y, z; tauto.
Qed.

Lemma direct_logical_z_site (Lx Ly Lz : Z) (i : nat) op (axis x y z : Z) :
  RhombicOperators.logical_zs (RhombicCode.__init__ Lx (Some Ly) (Some Lz)) !! i = Some op →
  (axis, x, y, z) ∈ LogicalOperator.sites op
  ↔ match i with
    | 0%nat => axis = 1 ∧ 0 ≤ x < Lx ∧ y = 0 ∧ z = 0
    | 1%nat => axis = 2 ∧ x = 0 ∧ 0 ≤ y < Ly ∧ z = 0
    | _ => axis = 0 ∧ x = 0 ∧ y = 0 ∧ 0 ≤ z < Lz
    end.
Proof.
  unfold RhombicOperators.logical_zs.
  change (RhombicCode.size _) with (Lx, Ly, Lz). cbv beta iota.
  destruct i as [|[|[|i]]]; cbn [lookup list_lookup]; intros Hop; [| | |done];
    injection Hop as <-;
    rewrite sites_fmap, list_elem_of_fmap; setoid_rewrite elem_of_range;
    unfold RhombicOperators.X_AXIS, RhombicOperators.Y_AXIS, RhombicOperators.Z_AXIS.
  - split; [intros (v & [= -> -> -> ->] & Hv); tauto|intros (-> & ? & -> & ->); by exists x].
  - split; [intros (v & [= -> -> -> ->] & Hv); tauto|intros (-> & -> & ? & ->); by exists y].
  - split; [intros (v & [= -> -> -> ->] & Hv); tauto|intros (-> & -> & -> & ?); by exists z].
Qed.

Lemma direct_logical_x_NoDup (Lx Ly Lz : Z) op :
  op ∈ RhombicOperators.logical_xs (RhombicCode.__init__ Lx (Some Ly) (Some Lz)) →
  NoDup (LogicalOperator.sites op).
Proof.
  unfold RhombicOperators.logical_xs.
  change (RhombicCode.size _) with (Lx, Ly, Lz). cbv beta iota.
  rewrite !elem_of_cons, elem_of_nil.
  intros [->|[->|[->|[]]]]; rewrite sites_bind2;
    (apply NoDup_bind2; [apply NoDup_range..| |]);
    unfold LogicalOperator.sites; cbn [fmap list_fmap snd].
  all: try (intros a b; apply NoDup_cons; split;
            [by intros [= ?]%list_elem_of_singleton|apply NoDup_singleton]).
  all: intros a b a' b' v; rewrite !elem_of_two;
    intros [->| ->] [[= -> ->]|[= -> ->]]; done.
Qed.

Lemma direct_logical_z_NoDup (Lx Ly Lz : Z) op :
  op ∈ RhombicOperators.logical_zs (RhombicCode.__init__ Lx (Some Ly) (Some Lz)) →
  NoDup (LogicalOperator.sites op).
Proof.
  unfold RhombicOperators.logical_zs.
  change (RhombicCode.size _) with (Lx, Ly, Lz). cbv beta iota.
  rewrite !elem_of_cons, elem_of_nil.
  intros [->|[->|[->|[]]]]; rewrite sites_fmap;
    (apply NoDup_fmap_2_strong; [|by apply NoDup_range]); by intros ???? [= ->].
Qed.

(** X8.  The logical operators of the direct rhombic code, for
    [L_x, L_y, L_z >= 1].  Every site [(axis, x, y, z)] lies inside the
    shape [(3, L_x, L_y, L_z)] of the code and is visited once; the X sheets
    have weights [2 L_x L_y], [2 L_x L_z], [2 L_y L_z] and the Z lines
    weights [L_x], [L_y], [L_z].  The number of qubits logical X number [i]
    shares with logical Z number [j] is the entry [(i, j)] of
    [[L_x, 0, 1], [0, 1, L_z], [1, L_y, 0]], which is not the table of the
    indexed implementation. *)
Theorem direct_rhombic_logical_operators (Lx Ly Lz : Z) :
  1 ≤ Lx → 1 ≤ Ly → 1 ≤ Lz →
  let self := RhombicCode.__init__ Lx (Some Ly) (Some Lz) in
  (∀ op, op ∈ RhombicOperators.logical_xs self ∨ op ∈ RhombicOperators.logical_zs self →
     NoDup (LogicalOperator.sites op)
     ∧ ∀ axis x y z, (axis, x, y, z) ∈ LogicalOperator.sites op →
         0 ≤ axis < 3 ∧ 0 ≤ x < Lx ∧ 0 ≤ y < Ly ∧ 0 ≤ z < Lz)
  ∧ length <$> RhombicOperators.logical_xs self
    = [Z.to_nat (2 * Lx * Ly); Z.to_nat (2 * Lx * Lz); Z.to_nat (2 * Ly * Lz)]
  ∧ length <$> RhombicOperators.logical_zs self
    = [Z.to_nat Lx; Z.to_nat Ly; Z.to_nat Lz]
  ∧ ∀ (i j : nat) a b,
      RhombicOperators.logical_xs self !! i = Some a →
      RhombicOperators.logical_zs self !! j = Some b →
      [ [Z.to_nat Lx; 0%nat; 1%nat];
        [0%nat; 1%nat; Z.to_nat Lz];
        [1%nat; Z.to_nat Ly; 0%nat] ] !! i ≫= (.!! j)
      = Some (LogicalOperator.overlap a b).
Proof.
  intros Hx Hy Hz self. split_and!.
  - intros op [Hop|Hop]; split.
    + by eapply direct_logical_x_NoDup.
    + apply list_elem_of_lookup in Hop as [i Hi]. intros axis x y z Hsite.
      apply (direct_logical_x_site Lx Ly Lz i op axis x y z Hi) in Hsite.
      destruct i as [|[|i]]; lia.
    + by eapply direct_logical_z_NoDup.
    + apply list_elem_of_lookup in Hop as [i Hi]. intros axis x y z Hsite.
      apply (direct_logical_z_site Lx Ly Lz i op axis x y z Hi) in Hsite.
      destruct i as [|[|i]]; lia.
  - unfold self, RhombicOperators.logical_xs.
    change (RhombicCode.size _) with (Lx, Ly, Lz). cbv beta iota.
    cbn [fmap list_fmap]. rewrite !(length_bind2 _ 2) by done.
    rewrite !length_range. repeat f_equal; nia.
  - unfold self, RhombicOperators.logical_zs.
    change (RhombicCode.size _) with (Lx, Ly, Lz). cbv beta iota.
    cbn [fmap list_fmap]. by rewrite !length_fmap, !length_range.
  - intros i j a b Ha Hb. unfold self in Ha, Hb.
    assert (NoDup (LogicalOperator.sites a)) as Hnda
      by (eapply direct_logical_x_NoDup, list_elem_of_lookup_2, Ha).
    assert (NoDup (LogicalOperator.sites b)) as Hndb
      by (eapply direct_logical_z_NoDup, list_elem_of_lookup_2, Hb).
    assert (length (LogicalOperator.sites b)
            = default 0%nat ([Z.to_nat Lx; Z.to_nat Ly; Z.to_nat Lz] !! j)) as Hlen.
    { unfold LogicalOperator.sites. rewrite length_fmap.
      revert Hb. unfold RhombicOperators.logical_zs.
      change (RhombicCode.size _) with (Lx, Ly, Lz). cbv beta iota.
      destruct j as [|[|[|j]]]; cbn [lookup list_lookup]; intros Hb; [| | |done];
        injection Hb as <-; by rewrite length_fmap, length_range. }
    pose proof (λ axis x y z, direct_logical_x_site Lx Ly Lz i a axis x y z Ha) as Hxs.
    pose proof (λ axis x y z, direct_logical_z_site Lx Ly Lz j b axis x y z Hb) as Hzs.
    apply lookup_lt_Some in Ha as Hi. apply lookup_lt_Some in Hb as Hj.
    unfold LogicalOperator.overlap.
    destruct i as [|[|[|i]]], j as [|[|[|j]]]; try (simpl in Hi, Hj; lia);
      cbn [lookup list_lookup mbind option_bind]; f_equal; symmetry.
    + rewrite (shared_count _ _ (LogicalOperator.sites b)); [by rewrite Hlen|done..|].
      intros [[[axis x] y] z]. rewrite Hxs, Hzs. lia.
    + rewrite (shared_count _ _ []); [done|done|constructor|].
      intros [[[axis x] y] z]. rewrite Hxs, Hzs, elem_of_nil. lia.
    + rewrite (shared_count _ _ [(0, 0, 0, 0)]); [done|done|apply NoDup_singleton|].
      intros [[[axis x] y] z]. rewrite Hxs, Hzs, list_elem_of_singleton.
      split; [intros ?; repeat f_equal; lia|intros [= -> -> -> ->]; lia].
    + rewrite (shared_count _ _ []); [done|done|constructor|].
      intros [[[axis x] y] z]. rewrite Hxs, Hzs, elem_of_nil. lia.
    + rewrite (shared_count _ _ [(2, 0, 0, 0)]); [done|done|apply NoDup_singleton|].
      intros [[[axis x] y] z]. rewrite Hxs, Hzs, list_elem_of_singleton.
      split; [intros ?; repeat f_equal; lia|intros [= -> -> -> ->]; lia].
    + rewrite (shared_count _ _ (LogicalOperator.sites b)); [by rewrite Hlen|done..|].
      intros [[[axis x] y] z]. rewrite Hxs, Hzs. lia.
    + rewrite (shared_count _ _ [(1, 0, 0, 0)]); [done|done|apply NoDup_singleton|].
      intros [[[axis x] y] z]. rewrite Hxs, Hzs, list_elem_of_singleton.
      split; [intros ?; repeat f_equal; lia|intros [= -> -> -> ->]; lia].
    + rewrite (shared_count _ _ (LogicalOperator.sites b)); [by rewrite Hlen|done..|].
      intros [[[axis x] y] z]. rewrite Hxs, Hzs. lia.
    + rewrite (shared_count _ _ []); [done|done|constructor|].
      intros [[[axis x] y] z]. rewrite Hxs, Hzs, elem_of_nil. lia.
Qed.

Lemma direct_rhombic_logical_operators_witness :
  length <$> RhombicOperators.logical_xs (RhombicCode.__init__ 2 (Some 3) (Some 4))
  = [12; 16; 24]%nat
  ∧ length <$> RhombicOperators.logical_zs (RhombicCode.__init__ 2 (Some 3) (Some 4))
    = [2; 3; 4]%nat.
Proof.
  destruct (direct_rhombic_logical_operators 2 3 4) as (_ & Hxs & Hzs & _); [lia..|].
  split; [exact Hxs|exact Hzs].
Defined.

End DirectRhombicLogicals.

(** ** Sampling an error *)

Section GenerateFacts.
Local Open Scope R_scope.
Context {RNG loc : Type}.
Variable rng_choice : RNG → list R → Py.result (nat * RNG).

Lemma lookup_add_row (error pauli : bsparse.row) (q : nat) (e p : bool) :
  error !! q = Some e → pauli !! q = Some p →
  bsparse.add error pauli !! q = Some (xorb e p).
Proof.
  intros He Hp. unfold bsparse.add. apply lookup_zip_with_Some. by exists e, p.
Qed.

Lemma length_add_row (error pauli : bsparse.row) :
  length pauli = length error → length (bsparse.add error pauli) = length error.
Proof. intros Hlen. unfold bsparse.add. rewrite length_zip_with. lia. Qed.

(** The four rows [pauli_i], [pauli_x], [pauli_y], [pauli_z] of qubit [j]:
    item [k] has its X bit set for [k = 1, 2] and its Z bit for [k = 2, 3]. *)
Lemma lookup_pauli_row (n j k q : nat) (pauli : bsparse.row) :
  (j < n)%nat → (q < 2 * n)%nat →
  [ bsparse.zero_row (2 * n);
    <[j := true]> (bsparse.zero_row (2 * n));
    <[(n + j)%nat := true]> (<[j := true]> (bsparse.zero_row (2 * n)));
    <[(n + j)%nat := true]> (bsparse.zero_row (2 * n)) ] !! k = Some pauli →
  length pauli = (2 * n)%nat
  ∧ pauli !! q
    = Some (if decide (q = j) then bool_decide (k = 1 ∨ k = 2)%nat
            else if decide (q = (n + j)%nat) then bool_decide (k = 2 ∨ k = 3)%nat
            else false).
Proof.
  intros Hj Hq. unfold bsparse.zero_row, bsparse.row in *.
  destruct k as [|[|[|[|k]]]]; cbn [lookup list_lookup]; intros Hrow; [| | | |done];
    injection Hrow as <-;
    rewrite ?length_insert, length_replicate; (split; [done|]);
    repeat case_decide; subst;
    repeat (first [rewrite list_lookup_insert_eq
                     by (rewrite ?length_insert, ?length_replicate; lia)
                  |rewrite list_lookup_insert_ne by lia
                  |rewrite lookup_replicate_2 by lia]);
    try done; try lia.
Qed.

Ltac result_step :=
  unfold mbind, Py.result_bind, Py.bind, Py.ok, Py.raise in *; cbv beta iota in *.

(** One turn of the loop of [generate]: the probabilities of qubit [j] are
    read, one item [k] of four is drawn, and the X and Z bits of qubit [j]
    are flipped according to [k]; no other bit changes. *)
Lemma generate_step_spec (n : nat) (dist : PauliErrorModel.distribution)
    (error : bsparse.row) (rng : RNG) (j : nat) (error' : bsparse.row) (rng' : RNG) :
  (j < n)%nat → length error = (2 * n)%nat →
  PauliErrorModel.generate_step rng_choice n dist (error, rng) j = Py.ok (error', rng') →
  ∃ a b c d k,
    dist.1.1.1 !! j = Some a ∧ dist.1.1.2 !! j = Some b
    ∧ dist.1.2 !! j = Some c ∧ dist.2 !! j = Some d
    ∧ rng_choice rng [a; b; c; d] = Py.ok (k, rng') ∧ (k < 4)%nat
    ∧ length error' = (2 * n)%nat
    ∧ ∀ q e, error !! q = Some e →
        error' !! q
        = Some (xorb e (if decide (q = j) then bool_decide (k = 1 ∨ k = 2)%nat
                        else if decide (q = (n + j)%nat)
                             then bool_decide (k = 2 ∨ k = 3)%nat
                             else false)).
Proof.
  intros Hj Hlen. destruct dist as [[[p_i p_x] p_y] p_z].
  unfold PauliErrorModel.generate_step, Py.getitem. cbn [fst snd].
  destruct (p_i !! j) as [a|]; [|by result_step].
  destruct (p_x !! j) as [b|]; [|by result_step].
  destruct (p_y !! j) as [c|]; [|by result_step].
  destruct (p_z !! j) as [d|]; [|by result_step].
  result_step. destruct (rng_choice rng [a; b; c; d]) as [e|[k rng1]] eqn:Hdraw; [done|].
  destruct (_ !! k) as [pauli|] eqn:Hrow; [|done].
  intros [= <- <-]. exists a, b, c, d, k.
  apply lookup_lt_Some in Hrow as Hk. simpl in Hk.
  split_and!; [done..| |].
  - rewrite length_add_row; [done|].
    destruct (lookup_pauli_row n j k 0 pauli Hj ltac:(lia) Hrow) as [-> _]. done.
  - intros q e He. apply lookup_lt_Some in He as Hq. rewrite Hlen in Hq.
    destruct (lookup_pauli_row n j k q pauli Hj Hq Hrow) as [_ Hp].
    by apply lookup_add_row.
Qed.

(** The loop of [generate] over the qubits [j, ..., j + m - 1]: the draws
    [k] are made in qubit order, each from the generator state [g] the
    previous draw has left, and they determine the bits of the row. *)
Lemma generate_loop_spec (n : nat) (dist : PauliErrorModel.distribution) :
  ∀ (m j : nat) (error : bsparse.row) (rng : RNG) (error' : bsparse.row) (rng' : RNG),
    (j + m ≤ n)%nat → length error = (2 * n)%nat →
    Py.foldM (PauliErrorModel.generate_step rng_choice n dist) (error, rng) (seq j m)
    = Py.ok (error', rng') →
    length error' = (2 * n)%nat
    ∧ ∃ (k : nat → nat) (g : nat → RNG),
        g j = rng ∧ g (j + m)%nat = rng'
        ∧ (∀ i, (j ≤ i < j + m)%nat →
             ∃ a b c d,
               dist.1.1.1 !! i = Some a ∧ dist.1.1.2 !! i = Some b
               ∧ dist.1.2 !! i = Some c ∧ dist.2 !! i = Some d
               ∧ rng_choice (g i) [a; b; c; d] = Py.ok (k i, g (S i))
               ∧ (k i < 4)%nat)
        ∧ (∀ q e, error !! q = Some e →
             error' !! q
             = Some (xorb e
                       (if decide (j ≤ q < j + m)%nat
                        then bool_decide (k q = 1 ∨ k q = 2)%nat
                        else if decide (n + j ≤ q < n + j + m)%nat
                             then bool_decide (k (q - n) = 2 ∨ k (q - n) = 3)%nat
                             else false))).
Proof.
  induction m as [|m IH]; intros j error rng error' rng' Hjm Hlen Hrun.
  - injection Hrun as <- <-. split; [done|].
    exists (λ _, 0%nat), (λ _, rng). split_and!; [done|done|intros; lia|].
    intros q e He. rewrite He. f_equal. repeat case_decide; try lia.
    by rewrite xorb_false_r.
  - cbn [seq Py.foldM] in Hrun.
    destruct (PauliErrorModel.generate_step rng_choice n dist (error, rng) j)
      as [exn|[error1 rng1]] eqn:Hstep; [by result_step|].
    apply generate_step_spec in Hstep
      as (a & b & c & d & k0 & Ha & Hb & Hc & Hd & Hdraw & Hk0 & Hlen1 & Hbits1);
      [|lia|done].
    change (Py.foldM (PauliErrorModel.generate_step rng_choice n dist) (error1, rng1)
              (seq (S j) m) = Py.ok (error', rng')) in Hrun.
    apply IH in Hrun as (Hlen' & k' & g' & Hg0 & Hgm & Htrace & Hbits'); [|lia|done].
    split; [done|].
    exists (λ i, if decide (i = j) then k0 else k' i),
           (λ i, if decide (i ≤ j)%nat then rng else g' i).
    split_and!.
    + by rewrite decide_True.
    + rewrite decide_False by lia. rewrite <- Hgm. f_equal. lia.
    + intros i Hi. destruct (decide (i = j)) as [->|Hne].
      * exists a, b, c, d. rewrite decide_True, decide_False by lia.
        rewrite Hg0. done.
      * destruct (Htrace i) as (a' & b' & c' & d' & ? & ? & ? & ? & ? & ?); [lia|].
        exists a', b', c', d'. rewrite !decide_False by lia. done.
    + intros q e He. rewrite (Hbits' q _ (Hbits1 q e He)). f_equal.
      repeat case_decide; try lia; subst; rewrite ?xorb_false_r; try done.
      all: by replace (n + j - n)%nat with j in * by lia.
Qed.

(** A run of [generate] that returns: the distribution was built, and the
    row is read off the draws. *)
Lemma generate_with_trace
    (pd : StabilizerCode.t loc → R → Py.result PauliErrorModel.distribution)
    (code : StabilizerCode.t loc) (p : R) (orng : option RNG) (fresh : RNG)
    (error : bsparse.row) (rng' : RNG) :
  PauliErrorModel.generate_with rng_choice pd code p orng fresh = Py.ok (error, rng') →
  let n := StabilizerCode.n code in
  ∃ dist,
    pd code p = Py.ok dist
    ∧ length error = (2 * n)%nat
    ∧ ∃ (k : nat → nat) (g : nat → RNG),
        g 0%nat = default fresh orng ∧ g n = rng'
        ∧ ∀ i, (i < n)%nat →
            (∃ a b c d,
               dist.1.1.1 !! i = Some a ∧ dist.1.1.2 !! i = Some b
               ∧ dist.1.2 !! i = Some c ∧ dist.2 !! i = Some d
               ∧ rng_choice (g i) [a; b; c; d] = Py.ok (k i, g (S i)))
            ∧ (k i < 4)%nat
            ∧ error !! i = Some (bool_decide (k i = 1 ∨ k i = 2)%nat)
            ∧ error !! (n + i)%nat = Some (bool_decide (k i = 2 ∨ k i = 3)%nat).
Proof.
  intros Hrun n. unfold PauliErrorModel.generate_with in Hrun. fold n in Hrun.
  destruct (pd code p) as [exn|dist]; [by result_step|]. exists dist. split; [done|].
  change (Py.foldM (PauliErrorModel.generate_step rng_choice n dist)
            (bsparse.zero_row (2 * n), default fresh orng) (seq 0 n)
          = Py.ok (error, rng')) in Hrun.
  apply generate_loop_spec in Hrun as (Hlen & k & g & Hg0 & Hgn & Htrace & Hbits);
    [|lia|apply length_replicate].
  split; [done|]. exists k, g. split_and!; [done..|]. intros i Hi.
  destruct (Htrace i) as (a & b & c & d & ? & ? & ? & ? & ? & ?); [lia|].
  split_and!; [by exists a, b, c, d|done| |].
  - rewrite (Hbits i false) by (apply lookup_replicate_2; lia).
    rewrite decide_True by lia. done.
  - rewrite (Hbits (n + i)%nat false) by (apply lookup_replicate_2; lia).
    rewrite decide_False, decide_True by lia.
    by replace (n + i - n)%nat with i by lia.
Qed.

(** X9.  What [generate] returns, for the base and for the deformed model.
    The row has length [2 * code.n].  One item [k_i] of
    [(pauli_i, pauli_x, pauli_y, pauli_z)] is drawn per qubit, in the order
    of the qubits, each draw from the state the previous one has left the
    generator in, with the probabilities
    [[1 - p, r_x p, r_y p, r_z p]] (the deformed model exchanges [r_x] and
    [r_z] on the qubits it flags).  Bit [i] of the row (the X part) is set
    exactly when qubit [i] drew X or Y, and bit [code.n + i] (the Z part)
    exactly when it drew Y or Z. *)
Theorem generate_draws (self : PauliErrorModel.t) (code : StabilizerCode.t loc)
    (p : R) (orng : option RNG) (fresh : RNG) (error : bsparse.row) (rng' : RNG)
    (deformed : bool) :
  (if deformed
   then DeformedXZZXErrorModel.generate rng_choice self code p orng fresh
   else PauliErrorModel.generate rng_choice self code p orng fresh)
  = Py.ok (error, rng') →
  let n := StabilizerCode.n code in
  let '(r_x, r_y, r_z) := PauliErrorModel.direction self in
  length error = (2 * n)%nat
  ∧ ∃ (flags : list bool) (k : nat → nat) (g : nat → RNG),
      (if deformed
       then DeformedXZZXErrorModel._get_deformation_indices code = Py.ok flags
       else flags = replicate n false)
      ∧ g 0%nat = default fresh orng ∧ g n = rng'
      ∧ ∀ i, (i < n)%nat →
          ∃ flag : bool, flags !! i = Some flag
            ∧ rng_choice (g i)
                (if flag then [1 - p; p * r_z; p * r_y; p * r_x]
                 else [1 - p; p * r_x; p * r_y; p * r_z])
              = Py.ok (k i, g (S i))
            ∧ (k i < 4)%nat
            ∧ error !! i = Some (bool_decide (k i = 1 ∨ k i = 2)%nat)
            ∧ error !! (n + i)%nat = Some (bool_decide (k i = 2 ∨ k i = 3)%nat).
Proof.
  intros Hrun n.
  destruct (PauliErrorModel.direction self) as [[r_x r_y] r_z] eqn:Hdir.
  destruct deformed.
  - unfold DeformedXZZXErrorModel.generate in Hrun.
    apply generate_with_trace in Hrun
      as (dist & Hpd & Hlen & k & g & Hg0 & Hgn & Htrace).
    fold n in Hlen, Hgn, Htrace. split; [done|].
    destruct (DeformedXZZXErrorModel._get_deformation_indices code)
      as [exn|flags] eqn:Hflags.
    { unfold DeformedXZZXErrorModel.probability_distribution in Hpd.
      rewrite Hdir, Hflags in Hpd. by result_step. }
    pose proof (get_deformation_indices_length code flags Hflags) as Hflen.
    pose proof (deformed_distribution_of_flags self code p flags Hflags Hflen) as Hpd'.
    rewrite Hdir in Hpd'. cbv zeta in Hpd'. rewrite Hpd' in Hpd.
    injection Hpd as <-. exists flags, k, g. split_and!; [done..|].
    intros i Hi. destruct (Htrace i Hi) as ((a & b & c & d & Ha & Hb & Hc & Hd & Hdraw) & ?).
    cbn [fst snd] in Ha, Hb, Hc, Hd.
    rewrite lookup_fmap_seq in Ha by done.
    rewrite lookup_scale, lookup_fmap_seq in Hb, Hc, Hd by done.
    cbn [fmap option_fmap option_map] in Hb, Hc, Hd.
    injection Ha as <-. injection Hb as <-. injection Hc as <-. injection Hd as <-.
    destruct (lookup_lt_is_Some_2 flags i) as [flag Hflag]; [by rewrite Hflen|].
    exists flag. rewrite Hflag in Hdraw. cbn [default] in Hdraw.
    split; [done|]. by destruct flag.
  - unfold PauliErrorModel.generate in Hrun.
    apply generate_with_trace in Hrun
      as (dist & Hpd & Hlen & k & g & Hg0 & Hgn & Htrace).
    fold n in Hlen, Hgn, Htrace. split; [done|].
    injection Hpd as <-. exists (replicate n false), k, g. split_and!; [done..|].
    intros i Hi. destruct (Htrace i Hi) as ((a & b & c & d & Ha & Hb & Hc & Hd & Hdraw) & ?).
    unfold PauliErrorModel.probability_distribution in Ha, Hb, Hc, Hd.
    rewrite Hdir in Ha, Hb, Hc, Hd. cbn [fst snd] in Ha, Hb, Hc, Hd.
    rewrite lookup_scale_ones in Ha, Hb, Hc, Hd by done.
    injection Ha as <-. injection Hb as <-. injection Hc as <-. injection Hd as <-.
    exists false. rewrite lookup_replicate_2 by done. split; [done|].
    replace (p * r_x) with (r_x * p) by lra. replace (p * r_y) with (r_y * p) by lra.
    replace (p * r_z) with (r_z * p) by lra. done.
Qed.

Lemma generate_step_returns (n : nat) (dist : PauliErrorModel.distribution)
    (error : bsparse.row) (rng : RNG) (j : nat) (a b c d : R) (k : nat) (rng1 : RNG)
    (pauli : bsparse.row) :
  dist.1.1.1 !! j = Some a → dist.1.1.2 !! j = Some b →
  dist.1.2 !! j = Some c → dist.2 !! j = Some d →
  rng_choice rng [a; b; c; d] = Py.ok (k, rng1) →
  [ bsparse.zero_row (2 * n);
    <[j := true]> (bsparse.zero_row (2 * n));
    <[(n + j)%nat := true]> (<[j := true]> (bsparse.zero_row (2 * n)));
    <[(n + j)%nat := true]> (bsparse.zero_row (2 * n)) ] !! k = Some pauli →
  PauliErrorModel.generate_step rng_choice n dist (error, rng) j
  = Py.ok (bsparse.add error pauli, rng1).
Proof.
  destruct dist as [[[p_i p_x] p_y] p_z]. cbn [fst snd].
  intros Ha Hb Hc Hd Hdraw Hrow. unfold PauliErrorModel.generate_step, Py.getitem.
  rewrite Ha, Hb, Hc, Hd. result_step. by rewrite Hdraw, Hrow.
Qed.

Section Returns.

(** numpy's [choice] returns one of the items when it is given
    probabilities: non-negative numbers that sum to 1. *)
Hypothesis rng_choice_returns : ∀ rng a b c d,
  0 <= a → 0 <= b → 0 <= c → 0 <= d → a + b + c + d = 1 →
  ∃ k rng', rng_choice rng [a; b; c; d] = Py.ok (k, rng') ∧ (k < 4)%nat.

Lemma generate_loop_returns (n : nat) (dist : PauliErrorModel.distribution) :
  (∀ i, (i < n)%nat →
     ∃ a b c d,
       dist.1.1.1 !! i = Some a ∧ dist.1.1.2 !! i = Some b
       ∧ dist.1.2 !! i = Some c ∧ dist.2 !! i = Some d
       ∧ 0 <= a ∧ 0 <= b ∧ 0 <= c ∧ 0 <= d ∧ a + b + c + d = 1) →
  ∀ (m j : nat) (error : bsparse.row) (rng : RNG),
    (j + m ≤ n)%nat → length error = (2 * n)%nat →
    ∃ error' rng',
      Py.foldM (PauliErrorModel.generate_step rng_choice n dist) (error, rng) (seq j m)
      = Py.ok (error', rng').
Proof.
  intros Hdist. induction m as [|m IH]; intros j error rng Hjm Hlen.
  - by exists error, rng.
  - destruct (Hdist j) as (a & b & c & d & Ha & Hb & Hc & Hd & ? & ? & ? & ? & ?); [lia|].
    destruct (rng_choice_returns rng a b c d) as (k & rng1 & Hdraw & Hk); [done..|].
    destruct (lookup_lt_is_Some_2
                [ bsparse.zero_row (2 * n);
                  <[j := true]> (bsparse.zero_row (2 * n));
                  <[(n + j)%nat := true]> (<[j := true]> (bsparse.zero_row (2 * n)));
                  <[(n + j)%nat := true]> (bsparse.zero_row (2 * n)) ] k)
      as [pauli Hrow]; [done|].
    destruct (lookup_pauli_row n j k 0 pauli ltac:(lia) ltac:(lia) Hrow) as [Hplen _].
    destruct (IH (S j) (bsparse.add error pauli) rng1) as (error' & rng' & Hrest);
      [lia|by rewrite length_add_row; lia|].
    exists error', rng'. cbn [seq Py.foldM].
    rewrite (generate_step_returns n dist error rng j a b c d k rng1 pauli) by done.
    exact Hrest.
Qed.

Lemma generate_base_returns (r_x r_y r_z p : R) (code : StabilizerCode.t loc)
    (orng : option RNG) (fresh : RNG) :
  0 <= r_x → 0 <= r_y → 0 <= r_z → r_x + r_y + r_z = 1 → 0 <= p <= 1 →
  ∃ error rng',
    PauliErrorModel.generate rng_choice
      {| PauliErrorModel._direction := (r_x, r_y, r_z) |} code p orng fresh
    = Py.ok (error, rng').
Proof.
  intros Hrx Hry Hrz Hsum Hp.
  unfold PauliErrorModel.generate, PauliErrorModel.generate_with. result_step.
  apply generate_loop_returns; [|lia|apply length_replicate].
  intros i Hi.
  unfold PauliErrorModel.probability_distribution, PauliErrorModel.direction.
  cbn [PauliErrorModel._direction fst snd].
  exists (1 - p), (r_x * p), (r_y * p), (r_z * p).
  rewrite !lookup_scale_ones by done. split_and!; try done; nra.
Qed.

(** X10.  [generate] returns.  For a direction of non-negative rates that
    sum to 1 and an error rate [0 <= p <= 1], every draw is made with
    probabilities (non-negative, of sum 1), so with a generator that serves
    such draws the base model returns an error for every code, and the
    deformed model for every registered code (one coordinate per qubit, each
    with an axis).  For a code that is not registered the deformed model
    raises [NotImplementedError] before anything is drawn, whatever the
    generator does. *)
Theorem generate_returns (r_x r_y r_z p : R) :
  0 <= r_x → 0 <= r_y → 0 <= r_z → r_x + r_y + r_z = 1 → 0 <= p <= 1 →
  let self := {| PauliErrorModel._direction := (r_x, r_y, r_z) |} in
  (∀ (code : StabilizerCode.t loc) orng fresh,
     ∃ error rng',
       PauliErrorModel.generate rng_choice self code p orng fresh = Py.ok (error, rng'))
  ∧ (∀ (code : StabilizerCode.t loc) orng fresh,
       StabilizerCode.id code ∈ DeformedXZZXErrorModel.registered_ids →
       StabilizerCode.wf code →
       ∃ error rng',
         DeformedXZZXErrorModel.generate rng_choice self code p orng fresh
         = Py.ok (error, rng'))
  ∧ (∀ (code : StabilizerCode.t loc) orng fresh,
       StabilizerCode.id code ∉ DeformedXZZXErrorModel.registered_ids →
       DeformedXZZXErrorModel.generate rng_choice self code p orng fresh
       = Py.raise Py.NotImplementedError).
Proof.
  intros Hrx Hry Hrz Hsum Hp self. split_and!.
  - intros code orng fresh. by apply generate_base_returns.
  - intros code orng fresh [the_axis Hreg]%(deformed_axis_keys code) Hwf.
    destruct (get_deformation_indices_succeeds code the_axis Hwf Hreg) as [flags Hflags].
    pose proof (get_deformation_indices_length code flags Hflags) as Hlen.
    pose proof (deformed_distribution_of_flags self code p flags Hflags Hlen) as Hpd.
    cbv zeta in Hpd. cbn [PauliErrorModel.direction PauliErrorModel._direction self] in Hpd.
    unfold DeformedXZZXErrorModel.generate, PauliErrorModel.generate_with.
    rewrite Hpd. result_step.
    apply generate_loop_returns; [|lia|apply length_replicate].
    intros i Hi. cbn [fst snd].
    eexists _, _, _, _. rewrite !lookup_scale, !lookup_fmap_seq by done.
    cbn [fmap option_fmap option_map]. split_and!; try done;
      destruct (default false (flags !! i)); nra.
  - intros code orng fresh Hid.
    rewrite (deformed_axis_keys code), <- eq_None_not_Some in Hid.
    unfold DeformedXZZXErrorModel.generate, PauliErrorModel.generate_with,
      DeformedXZZXErrorModel.probability_distribution,
      DeformedXZZXErrorModel._get_deformation_indices.
    cbn [PauliErrorModel.direction PauliErrorModel._direction self].
    by rewrite Hid.
Qed.

End Returns.

Section Support.

(** numpy's [choice] never returns an item of probability zero. *)
Hypothesis rng_choice_support : ∀ rng ps k rng',
  rng_choice rng ps = Py.ok (k, rng') → ∃ q, ps !! k = Some q ∧ q ≠ 0.

Lemma generate_with_support
    (pd : StabilizerCode.t loc → R → Py.result PauliErrorModel.distribution)
    (code : StabilizerCode.t loc) (p : R) (orng : option RNG) (fresh : RNG)
    (error : bsparse.row) (rng' : RNG) :
  PauliErrorModel.generate_with rng_choice pd code p orng fresh = Py.ok (error, rng') →
  let n := StabilizerCode.n code in
  length error = (2 * n)%nat
  ∧ ∃ dist,
      pd code p = Py.ok dist
      ∧ ∀ i, (i < n)%nat →
          ∃ a b c d,
            dist.1.1.1 !! i = Some a ∧ dist.1.1.2 !! i = Some b
            ∧ dist.1.2 !! i = Some c ∧ dist.2 !! i = Some d
            ∧ (b = 0 → c = 0 → error !! i = Some false)
            ∧ (c = 0 → d = 0 → error !! (n + i)%nat = Some false).
Proof.
  intros Hrun n. subst n.
  apply generate_with_trace in Hrun
    as (dist & Hpd & Hlen & k & g & _ & _ & Htrace).
  split; [done|]. exists dist. split; [done|]. intros i Hi.
  destruct (Htrace i Hi)
    as ((a & b & c & d & Ha & Hb & Hc & Hd & Hdraw) & Hk & Hxbit & Hzbit).
  exists a, b, c, d. split_and!; [done..| |].
  - intros -> ->. rewrite Hxbit. f_equal. apply bool_decide_eq_false.
    destruct (rng_choice_support _ _ _ _ Hdraw) as (q & Hq & Hne).
    intros [Hk1|Hk2].
    + rewrite Hk1 in Hq. by injection Hq as <-.
    + rewrite Hk2 in Hq. by injection Hq as <-.
  - intros -> ->. rewrite Hzbit. f_equal. apply bool_decide_eq_false.
    destruct (rng_choice_support _ _ _ _ Hdraw) as (q & Hq & Hne).
    intros [Hk2|Hk3].
    + rewrite Hk2 in Hq. by injection Hq as <-.
    + rewrite Hk3 in Hq. by injection Hq as <-.
Qed.

Lemma zero_row_of_bits (n : nat) (error : bsparse.row) :
  length error = (2 * n)%nat →
  (∀ i, (i < n)%nat → error !! i = Some false ∧ error !! (n + i)%nat = Some false) →
  error = bsparse.zero_row (2 * n).
Proof.
  intros Hlen Hbits. apply list_eq. intros q. unfold bsparse.zero_row.
  destruct (decide (q < 2 * n)%nat) as [Hq|Hq].
  - rewrite lookup_replicate_2 by done. destruct (decide (q < n)%nat) as [Hlow|Hhigh].
    + by destruct (Hbits q Hlow).
    + destruct (Hbits (q - n)%nat) as [_ Hz]; [lia|].
      by replace (n + (q - n))%nat with q in Hz by lia.
  - rewrite !lookup_ge_None_2; [done|rewrite length_replicate; lia|lia].
Qed.

(** X11.  What [generate] never does, with a generator that never returns
    an item of probability zero.  At error rate [p = 0] both models return
    the zero row.  The base model with [r_y = r_z = 0] (pure X noise) sets no
    bit of the Z part, and with [r_x = r_y = 0] (pure Z noise) no bit of the
    X part.  The deformed model with pure Z noise sets no X bit on a qubit
    that is not flagged and no Z bit on a flagged qubit: on the deformed
    qubits the Z noise acts as X noise. *)
Theorem generate_respects_support (self : PauliErrorModel.t)
    (code : StabilizerCode.t loc) (p : R) (orng : option RNG) (fresh : RNG)
    (error : bsparse.row) (rng' : RNG) :
  let n := StabilizerCode.n code in
  let '(r_x, r_y, r_z) := PauliErrorModel.direction self in
  (PauliErrorModel.generate rng_choice self code p orng fresh = Py.ok (error, rng') →
     (p = 0 → error = bsparse.zero_row (2 * n))
     ∧ (r_y = 0 → r_z = 0 → ∀ i, (i < n)%nat → error !! (n + i)%nat = Some false)
     ∧ (r_x = 0 → r_y = 0 → ∀ i, (i < n)%nat → error !! i = Some false))
  ∧ (DeformedXZZXErrorModel.generate rng_choice self code p orng fresh
     = Py.ok (error, rng') →
     (p = 0 → error = bsparse.zero_row (2 * n))
     ∧ (r_x = 0 → r_y = 0 →
        ∃ flags, DeformedXZZXErrorModel._get_deformation_indices code = Py.ok flags
          ∧ ∀ i, (i < n)%nat →
              (flags !! i = Some false → error !! i = Some false)
              ∧ (flags !! i = Some true → error !! (n + i)%nat = Some false))).
Proof.
  intros n. destruct (PauliErrorModel.direction self) as [[r_x r_y] r_z] eqn:Hdir.
  split.
  - intros Hrun. unfold PauliErrorModel.generate in Hrun.
    apply generate_with_support in Hrun as (Hlen & dist & Hpd & Hbits).
    fold n in Hlen, Hbits. injection Hpd as <-.
    assert (∀ i, (i < n)%nat →
              (r_x * p = 0 → r_y * p = 0 → error !! i = Some false)
              ∧ (r_y * p = 0 → r_z * p = 0 → error !! (n + i)%nat = Some false))
      as Hmodel.
    { intros i Hi. destruct (Hbits i Hi) as (a & b & c & d & _ & Hb & Hc & Hd & ? & ?).
      unfold PauliErrorModel.probability_distribution in Hb, Hc, Hd.
      rewrite Hdir in Hb, Hc, Hd. cbn [fst snd] in Hb, Hc, Hd.
      rewrite lookup_scale_ones in Hb, Hc, Hd by done.
      injection Hb as <-. injection Hc as <-. injection Hd as <-. done. }
    split_and!.
    + intros ->. apply zero_row_of_bits; [done|]. intros i Hi.
      destruct (Hmodel i Hi) as [Hxb Hzb]. split; [apply Hxb|apply Hzb]; lra.
    + intros -> -> i Hi. apply (Hmodel i Hi); lra.
    + intros -> -> i Hi. apply (Hmodel i Hi); lra.
  - intros Hrun. unfold DeformedXZZXErrorModel.generate in Hrun.
    apply generate_with_support in Hrun as (Hlen & dist & Hpd & Hbits).
    fold n in Hlen, Hbits.
    destruct (DeformedXZZXErrorModel._get_deformation_indices code)
      as [exn|flags] eqn:Hflags.
    { unfold DeformedXZZXErrorModel.probability_distribution in Hpd.
      rewrite Hdir, Hflags in Hpd. by result_step. }
    pose proof (get_deformation_indices_length code flags Hflags) as Hflen.
    pose proof (deformed_distribution_of_flags self code p flags Hflags Hflen) as Hpd'.
    rewrite Hdir in Hpd'. cbv zeta in Hpd'. rewrite Hpd' in Hpd. injection Hpd as <-.
    assert (∀ i, (i < n)%nat →
              (p * (if default false (flags !! i) then r_z else r_x) = 0 →
               p * r_y = 0 → error !! i = Some false)
              ∧ (p * r_y = 0 →
                 p * (if default false (flags !! i) then r_x else r_z) = 0 →
                 error !! (n + i)%nat = Some false))
      as Hmodel.
    { intros i Hi. destruct (Hbits i Hi) as (a & b & c & d & _ & Hb & Hc & Hd & ? & ?).
      cbn [fst snd] in Hb, Hc, Hd.
      rewrite lookup_scale, lookup_fmap_seq in Hb, Hc, Hd by done.
      cbn [fmap option_fmap option_map] in Hb, Hc, Hd.
      injection Hb as <-. injection Hc as <-. injection Hd as <-. done. }
    split.
    + intros ->. apply zero_row_of_bits; [done|]. intros i Hi.
      destruct (Hmodel i Hi) as [Hxb Hzb]. split; [apply Hxb|apply Hzb]; lra.
    + intros -> ->. exists flags. split; [done|]. intros i Hi.
      destruct (Hmodel i Hi) as [Hxb Hzb]. split; intros Hflag.
      * apply Hxb; rewrite ?Hflag; simpl; lra.
      * apply Hzb; rewrite ?Hflag; simpl; lra.
Qed.

End Support.

End GenerateFacts.

(** ** The stand-in generator *)

Section SampleNoiseFacts.
Local Open Scope R_scope.

Lemma sample_choice_returns (rng : SampleNoise.RNG) (a b c d : R) :
  0 <= a → 0 <= b → 0 <= c → 0 <= d → a + b + c + d = 1 →
  ∃ k rng', SampleNoise.rng_choice rng [a; b; c; d] = Py.ok (k, rng') ∧ (k < 4)%nat.
Proof.
  intros Ha Hb Hc Hd Hsum. unfold SampleNoise.rng_choice.
  destruct (list_find _ _) as [[k q]|] eqn:Hfind.
  - apply list_find_Some in Hfind as (Hk & _). exists k, (S rng). split; [done|].
    by apply lookup_lt_Some in Hk.
  - apply list_find_None in Hfind. rewrite !Forall_cons in Hfind. lra.
Qed.

Lemma sample_choice_support (rng : SampleNoise.RNG) (ps : list R) (k : nat)
    (rng' : SampleNoise.RNG) :
  SampleNoise.rng_choice rng ps = Py.ok (k, rng') → ∃ q, ps !! k = Some q ∧ q ≠ 0.
Proof.
  unfold SampleNoise.rng_choice.
  destruct (list_find _ _) as [[k' q]|] eqn:Hfind; [|done]. intros [= <- <-].
  apply list_find_Some in Hfind as (Hk & Hpos & _). exists q. split; [done|lra].
Qed.

End SampleNoiseFacts.

Lemma generate_draws_witness :
  ∃ error rng',
    PauliErrorModel.generate SampleNoise.rng_choice
      {| PauliErrorModel._direction := (1, 0, 0)%R |}
      SampleCode.toric3d (1 / 2)%R None 0%nat
    = Py.ok (error, rng')
    ∧ length error = 6%nat.
Proof.
  destruct (generate_base_returns SampleNoise.rng_choice sample_choice_returns
              1 0 0 (1 / 2)
              SampleCode.toric3d None 0%nat)
    as (error & rng' & Hrun); [lra..|].
  exists error, rng'. split; [exact Hrun|].
  pose proof (generate_draws SampleNoise.rng_choice _ _ _ _ _ _ _ false Hrun) as H.
  cbv zeta in H. simpl in H. by destruct H as [Hlen _].
Defined.

Lemma generate_returns_witness :
  ∃ error rng',
    DeformedXZZXErrorModel.generate SampleNoise.rng_choice
      {| PauliErrorModel._direction := (1, 0, 0)%R |}
      SampleCode.toric3d (1 / 2)%R None 0%nat
    = Py.ok (error, rng').
Proof.
  pose proof (generate_returns (loc := Z * Z * Z) SampleNoise.rng_choice
                sample_choice_returns 1 0 0 (1 / 2)) as H.
  cbv zeta in H. destruct H as (_ & Hdeformed & _); [lra..|].
  apply Hdeformed.
  - by left.
  - apply sample_code_wf.
Defined.

Lemma generate_respects_support_witness :
  ∃ error rng',
    PauliErrorModel.generate SampleNoise.rng_choice
      {| PauliErrorModel._direction := (1, 0, 0)%R |}
      SampleCode.toric3d (1 / 2)%R None 0%nat
    = Py.ok (error, rng')
    ∧ error !! 3%nat = Some false ∧ error !! 4%nat = Some false
    ∧ error !! 5%nat = Some false.
Proof.
  destruct (generate_base_returns SampleNoise.rng_choice sample_choice_returns
              1 0 0 (1 / 2)
              SampleCode.toric3d None 0%nat)
    as (error & rng' & Hrun); [lra..|].
  exists error, rng'. split; [exact Hrun|].
  pose proof (generate_respects_support SampleNoise.rng_choice sample_choice_support
                {| PauliErrorModel._direction := (1, 0, 0)%R |}
                SampleCode.toric3d
                (1 / 2)%R None 0%nat error rng') as H.
  cbv zeta in H. simpl in H. destruct H as [Hbase _].
  destruct (Hbase Hrun) as (_ & Hz & _).
  split_and!; [apply (Hz eq_refl eq_refl 0%nat)|apply (Hz eq_refl eq_refl 1%nat)
              |apply (Hz eq_refl eq_refl 2%nat)]; lia.
Defined.

(** ** More on the distributions *)

Section DistributionFacts.
Local Open Scope R_scope.
Context {loc : Type}.

(** X12.  Every model the constructor accepts is normalized up to the
    tolerance of [np.isclose]: at every qubit the four probabilities of the
    base distribution, and of the deformed distribution when it is returned,
    sum to [1 + (r_x + r_y + r_z - 1) p], which misses 1 by at most
    [(1e-8 + 1e-5) |p|]. *)
Theorem accepted_model_normalization (r_x r_y r_z : R) (self : PauliErrorModel.t)
    (code : StabilizerCode.t loc) (p : R) (i : nat) :
  PauliErrorModel.__init__ r_x r_y r_z = Py.ok self →
  (i < StabilizerCode.n code)%nat →
  (∃ a b c d,
     (let '(p_i, p_x, p_y, p_z) := PauliErrorModel.probability_distribution self code p in
      p_i !! i = Some a ∧ p_x !! i = Some b ∧ p_y !! i = Some c ∧ p_z !! i = Some d)
     ∧ a + b + c + d = 1 + (r_x + r_y + r_z - 1) * p
     ∧ Rabs (a + b + c + d - 1) <= (1e-8 + 1e-5) * Rabs p)
  ∧ (∀ q_i q_x q_y q_z,
       DeformedXZZXErrorModel.probability_distribution self code p
       = Py.ok (q_i, q_x, q_y, q_z) →
       ∃ a b c d,
         q_i !! i = Some a ∧ q_x !! i = Some b ∧ q_y !! i = Some c ∧ q_z !! i = Some d
         ∧ a + b + c + d = 1 + (r_x + r_y + r_z - 1) * p
         ∧ Rabs (a + b + c + d - 1) <= (1e-8 + 1e-5) * Rabs p).
Proof.
  intros Hinit Hi. unfold PauliErrorModel.__init__ in Hinit.
  destruct (Np.isclose (r_x + r_y + r_z) 1) eqn:Hclose; [|done].
  injection Hinit as <-. apply isclose_spec in Hclose.
  unfold Np.atol, Np.rtol in Hclose. rewrite Rabs_R1, Rmult_1_r in Hclose.
  assert (∀ s, s = 1 + (r_x + r_y + r_z - 1) * p →
               Rabs (s - 1) <= (1e-8 + 1e-5) * Rabs p) as Hbound.
  { intros s ->. replace (1 + (r_x + r_y + r_z - 1) * p - 1)
      with ((r_x + r_y + r_z - 1) * p) by lra.
    rewrite Rabs_mult. apply Rmult_le_compat_r; [apply Rabs_pos|done]. }
  split.
  - exists (1 - p), (r_x * p), (r_y * p), (r_z * p).
    unfold PauliErrorModel.probability_distribution. simpl.
    rewrite !lookup_scale_ones by done.
    assert ((1 - p) + r_x * p + r_y * p + r_z * p = 1 + (r_x + r_y + r_z - 1) * p)
      as Hsum by lra.
    split_and!; [done..|by apply Hbound].
  - intros q_i q_x q_y q_z Hpd.
    destruct (DeformedXZZXErrorModel._get_deformation_indices code)
      as [e|flags] eqn:Hflags.
    { unfold DeformedXZZXErrorModel.probability_distribution in Hpd.
      simpl in Hpd. by rewrite Hflags in Hpd. }
    pose proof (get_deformation_indices_length code flags Hflags) as Hlen.
    pose proof (deformed_distribution_of_flags
                  {| PauliErrorModel._direction := (r_x, r_y, r_z) |}
                  code p flags Hflags Hlen) as Hpd'.
    simpl in Hpd'. rewrite Hpd' in Hpd. injection Hpd as <- <- <- <-.
    eexists _, _, _, _.
    rewrite !lookup_scale, !lookup_fmap_seq by done. simpl.
    split_and!; [done..| |]; [|apply Hbound];
      destruct (default false (flags !! i)); lra.
Qed.

(** X13.  A model with [r_x = r_z] is not changed by the deformation: for a
    registered code (one coordinate per qubit, each with an axis) the
    deformed distribution is the base distribution. *)
Theorem symmetric_model_is_undeformed (self : PauliErrorModel.t)
    (code : StabilizerCode.t loc) (p : R) :
  (PauliErrorModel.direction self).1.1 = (PauliErrorModel.direction self).2 →
  StabilizerCode.id code ∈ DeformedXZZXErrorModel.registered_ids →
  StabilizerCode.wf code →
  DeformedXZZXErrorModel.probability_distribution self code p
  = Py.ok (PauliErrorModel.probability_distribution self code p).
Proof.
  intros Hsym [the_axis Hreg]%(deformed_axis_keys code) Hwf.
  destruct (get_deformation_indices_succeeds code the_axis Hwf Hreg) as [flags Hflags].
  pose proof (get_deformation_indices_length code flags Hflags) as Hlen.
  pose proof (deformed_distribution_of_flags self code p flags Hflags Hlen) as Hpd.
  unfold PauliErrorModel.probability_distribution.
  destruct (PauliErrorModel.direction self) as [[r_x r_y] r_z]. simpl in Hsym.
  subst r_z. cbv zeta beta in Hpd. rewrite Hpd.
  assert (∀ (f : nat → R) (c : R), (∀ i, c * 1 = f i) →
            f <$> seq 0 (StabilizerCode.n code)
            = Np.scale c (Np.ones (StabilizerCode.n code))) as Hconst.
  { intros f c Hf. unfold Np.scale, Np.ones. apply list_eq. intros i.
    rewrite !list_lookup_fmap.
    destruct (decide (i < StabilizerCode.n code)%nat).
    - rewrite lookup_seq_lt, lookup_replicate_2 by done. simpl. by rewrite <- (Hf i).
    - by rewrite !lookup_ge_None_2 by (rewrite ?length_seq, ?length_replicate; lia). }
  assert (∀ (f : nat → R) (c : R), (∀ i, c * 1 = p * f i) →
            Np.scale p (f <$> seq 0 (StabilizerCode.n code))
            = Np.scale c (Np.ones (StabilizerCode.n code))) as Hscale.
  { intros f c Hf. unfold Np.scale at 1. rewrite <- list_fmap_compose.
    apply Hconst. intros i. simpl. apply Hf. }
  rewrite (Hconst (λ _, 1 - p) (1 - p)) by (intros; lra).
  rewrite !(Hscale _ (r_x * p)) by (intros i; destruct (default _ _); lra).
  rewrite (Hscale _ (r_y * p)) by (intros i; lra).
  done.
Qed.

End DistributionFacts.

Section DistributionWitnesses.
Local Open Scope R_scope.

Lemma accepted_model_normalization_witness :
  Rabs (1.000001 * 1 - 1) <= (1e-8 + 1e-5) * Rabs 1
  ∧ PauliErrorModel.__init__ 1.000001 0 0
    = Py.ok {| PauliErrorModel._direction := (1.000001, 0, 0)%R |}.
Proof.
  assert (PauliErrorModel.__init__ 1.000001 0 0
          = Py.ok {| PauliErrorModel._direction := (1.000001, 0, 0)%R |}) as Hinit.
  { unfold PauliErrorModel.__init__.
    rewrite (proj2 (isclose_spec _ _)); [done|].
    unfold Np.atol, Np.rtol, Rabs. repeat destruct Rcase_abs; lra. }
  split; [|exact Hinit].
  destruct (accepted_model_normalization 1.000001 0 0 _
              SampleCode.toric3d 1 0%nat
              Hinit) as [(a & b & c & d & Hlook & Hsum & Hbound) _]; [simpl; lia|].
  rewrite Hsum in Hbound.
  replace (1.000001 * 1 - 1)%R with (1 + (1.000001 + 0 + 0 - 1) * 1 - 1)%R by lra.
  exact Hbound.
Defined.

Lemma symmetric_model_is_undeformed_witness :
  DeformedXZZXErrorModel.probability_distribution
    {| PauliErrorModel._direction := (0.25, 0.5, 0.25)%R |}
    SampleCode.toric3d 0.1%R
  = Py.ok (PauliErrorModel.probability_distribution
             {| PauliErrorModel._direction := (0.25, 0.5, 0.25)%R |}
             SampleCode.toric3d 0.1%R).
Proof.
  apply symmetric_model_is_undeformed; [done|by left|apply sample_code_wf].
Defined.

End DistributionWitnesses.

(** ** Every outcome of the deformation lookup *)

Section DeformationOutcome.
Context {loc : Type} (code : StabilizerCode.t loc) (the_axis : Z).

(** A turn of the loop goes through at [location], stored at [index] of
    [length] flags: the location has an axis, and if that is the deformed
    axis there is a flag to set. *)
Lemma deformation_turn_outcome (flags : list bool) (index : nat) (location : loc) :
  match DeformedXZZXErrorModel.deformation_turn code the_axis flags (index, location) with
  | inr flags' =>
      length flags' = length flags
      ∧ ∃ a, StabilizerCode.axis code location = Py.ok a
             ∧ (a = the_axis → (index < length flags)%nat)
  | inl e =>
      StabilizerCode.axis code location = Py.raise e
      ∨ (StabilizerCode.axis code location = Py.ok the_axis
         ∧ (length flags ≤ index)%nat ∧ e = Py.IndexError)
  end.
Proof.
  unfold DeformedXZZXErrorModel.deformation_turn.
  destruct (StabilizerCode.axis code location) as [e|a]; [by left|].
  unfold mbind, Py.result_bind, Py.bind. cbv beta iota.
  destruct (decide (a = the_axis)) as [->|Hne].
  - unfold Py.setitem. destruct (decide (index < length flags)%nat).
    + split; [by rewrite length_insert|]. by exists the_axis.
    + right. split_and!; [done|lia|done].
  - split; [done|]. by exists a.
Qed.

Lemma deformation_loop_outcome (l : list loc) : ∀ (k : nat) (flags : list bool),
  match Py.foldM (DeformedXZZXErrorModel.deformation_turn code the_axis) flags
          (imap (λ i x, ((k + i)%nat, x)) l) with
  | inr flags' =>
      length flags' = length flags
      ∧ ∀ i location, l !! i = Some location →
          ∃ a, StabilizerCode.axis code location = Py.ok a
               ∧ (a = the_axis → (k + i < length flags)%nat)
  | inl e =>
      ∃ i location,
        l !! i = Some location
        ∧ (∀ i' location', (i' < i)%nat → l !! i' = Some location' →
             ∃ a, StabilizerCode.axis code location' = Py.ok a
                  ∧ (a = the_axis → (k + i' < length flags)%nat))
        ∧ (StabilizerCode.axis code location = Py.raise e
           ∨ (StabilizerCode.axis code location = Py.ok the_axis
              ∧ (length flags ≤ k + i)%nat ∧ e = Py.IndexError))
  end.
Proof.
  induction l as [|x l IH]; intros k flags.
  - simpl. split; [done|]. intros i location Hi. by rewrite lookup_nil in Hi.
  - rewrite imap_cons. cbn [Py.foldM].
    rewrite (imap_ext _ (λ i x, ((S k + i)%nat, x))) by (intros; simpl; f_equal; lia).
    pose proof (deformation_turn_outcome flags (k + 0) x) as Hturn.
    destruct (DeformedXZZXErrorModel.deformation_turn code the_axis flags
                ((k + 0)%nat, x)) as [e|flags1].
    + exists 0%nat, x. split_and!; [reflexivity|intros; lia|].
      exact Hturn.
    + destruct Hturn as (Hlen1 & a & Hax & Hidx).
      unfold mbind, Py.result_bind, Py.bind. cbv beta iota.
      specialize (IH (S k) flags1).
      destruct (Py.foldM _ flags1 _) as [e|flags'].
      * destruct IH as (i & location & Hi & Hbefore & Hbad).
        exists (S i), location. split_and!; [done| |].
        -- intros [|i'] location' Hlt Hi'.
           ++ injection Hi' as <-. exists a. split; [done|]. intros Ha.
              specialize (Hidx Ha). lia.
           ++ destruct (Hbefore i' location') as (a' & ? & Hidx'); [lia|done|].
              exists a'. split; [done|]. intros Ha. specialize (Hidx' Ha). lia.
        -- destruct Hbad as [?|(? & ? & ?)]; [by left|right].
           split_and!; [done|lia|done].
      * destruct IH as (Hlen' & Hgood). split; [lia|].
        intros [|i] location Hi.
        -- injection Hi as <-. exists a. split; [done|]. intros Ha.
           specialize (Hidx Ha). lia.
        -- destruct (Hgood i location Hi) as (a' & ? & Hidx').
           exists a'. split; [done|]. intros Ha. specialize (Hidx' Ha). lia.
Qed.

End DeformationOutcome.

Section DeformationOutcomeTheorem.
Context {loc : Type}.

(** X14.  Every outcome of [_get_deformation_indices].  It returns exactly
    when the code is registered, every qubit coordinate has an axis, and
    every coordinate on the deformed axis sits at an index below [code.n]
    (the coordinate list may be shorter or longer than [code.n]); the list it
    returns has [code.n] flags.  Otherwise it raises: [NotImplementedError]
    for a code that is not registered, whatever its coordinates are; else
    the exception of [code.axis] at the first coordinate that has no axis, or
    [IndexError] at the first coordinate on the deformed axis whose index is
    [code.n] or more, whichever comes first. *)
Theorem deformation_indices_outcome (code : StabilizerCode.t loc) :
  let n := StabilizerCode.n code in
  let coordinates := StabilizerCode.qubit_coordinates code in
  let goes_through (the_axis : Z) (i : nat) (location : loc) :=
    ∃ a, StabilizerCode.axis code location = Py.ok a ∧ (a = the_axis → (i < n)%nat) in
  let stops_with (the_axis : Z) (e : Py.exn) (i : nat) (location : loc) :=
    StabilizerCode.axis code location = Py.raise e
    ∨ (StabilizerCode.axis code location = Py.ok the_axis
       ∧ (n ≤ i)%nat ∧ e = Py.IndexError) in
  ((∃ flags, DeformedXZZXErrorModel._get_deformation_indices code = Py.ok flags)
   ↔ ∃ the_axis,
       DeformedXZZXErrorModel.deformed_axis code !! StabilizerCode.id code = Some the_axis
       ∧ ∀ i location, coordinates !! i = Some location → goes_through the_axis i location)
  ∧ (∀ flags, DeformedXZZXErrorModel._get_deformation_indices code = Py.ok flags →
       length flags = n)
  ∧ (∀ e, DeformedXZZXErrorModel._get_deformation_indices code = Py.raise e
       ↔ ((StabilizerCode.id code ∉ DeformedXZZXErrorModel.registered_ids)
          ∧ e = Py.NotImplementedError)
         ∨ ∃ the_axis i location,
             DeformedXZZXErrorModel.deformed_axis code !! StabilizerCode.id code
             = Some the_axis
             ∧ coordinates !! i = Some location
             ∧ (∀ i' location', (i' < i)%nat → coordinates !! i' = Some location' →
                  goes_through the_axis i' location')
             ∧ stops_with the_axis e i location).
Proof.
  intros n coordinates goes_through stops_with.
  unfold DeformedXZZXErrorModel._get_deformation_indices. fold n coordinates.
  destruct (DeformedXZZXErrorModel.deformed_axis code !! StabilizerCode.id code)
    as [the_axis|] eqn:Hreg.
  - pose proof (deformation_loop_outcome code the_axis coordinates 0 (replicate n false))
      as Hloop.
    unfold Py.enumerate.
    rewrite (imap_ext pair (λ i x, ((0 + i)%nat, x))) by done.
    destruct (Py.foldM _ _ _) as [e|flags].
    + destruct Hloop as (i & location & Hi & Hbefore & Hbad).
      rewrite length_replicate in Hbefore, Hbad. split_and!.
      * split; [by intros [flags ?]|]. intros (the_axis' & [= <-] & Hgood).
        destruct (Hgood i location Hi) as (a & Hax & Hidx).
        destruct Hbad as [Hraise|(Hax' & ? & _)].
        -- by rewrite Hax in Hraise.
        -- rewrite Hax in Hax'. injection Hax' as ->. specialize (Hidx eq_refl). lia.
      * done.
      * intros e'. split.
        -- intros [= <-]. right. exists the_axis, i, location. done.
        -- intros [[Hid _]|(the_axis' & i' & location' & [= <-] & Hi' & Hbefore' & Hbad')].
           { exfalso. apply Hid, (proj2 (deformed_axis_keys code _)). by rewrite Hreg. }
           assert (i' = i) as ->.
           { destruct (Nat.lt_total i' i) as [Hlt|[->|Hlt]]; [|done|]; exfalso.
             - destruct (Hbefore i' location' Hlt Hi') as (a & Hax & Hidx).
               destruct Hbad' as [Hraise|(Hax' & ? & _)].
               + by rewrite Hax in Hraise.
               + rewrite Hax in Hax'. injection Hax' as ->. specialize (Hidx eq_refl). lia.
             - destruct (Hbefore' i location Hlt Hi) as (a & Hax & Hidx).
               destruct Hbad as [Hraise|(Hax' & ? & _)].
               + by rewrite Hax in Hraise.
               + rewrite Hax in Hax'. injection Hax' as ->. specialize (Hidx eq_refl). lia. }
           rewrite Hi in Hi'. injection Hi' as <-.
           destruct Hbad as [Hraise|(Hax & ? & ->)], Hbad' as [Hraise'|(Hax' & ? & ->)];
             try done.
           ++ rewrite Hraise in Hraise'. by injection Hraise' as ->.
           ++ by rewrite Hraise in Hax'.
           ++ by rewrite Hax in Hraise'.
    + destruct Hloop as (Hlen & Hgood). rewrite length_replicate in Hlen, Hgood.
      split_and!.
      * split; [|by exists flags]. intros _. by exists the_axis.
      * by intros flags' [= <-].
      * intros e. split; [done|].
        intros [[Hid _]|(the_axis' & i & location & [= <-] & Hi & _ & Hbad)].
        { exfalso. apply Hid, (proj2 (deformed_axis_keys code _)). by rewrite Hreg. }
        exfalso. destruct (Hgood i location Hi) as (a & Hax & Hidx).
        destruct Hbad as [Hraise|(Hax' & ? & _)].
        -- by rewrite Hax in Hraise.
        -- rewrite Hax in Hax'. injection Hax' as ->. specialize (Hidx eq_refl). lia.
  - split_and!.
    + split; [by intros [flags ?]|]. by intros (the_axis & ? & _).
    + done.
    + intros e. split.
      * intros [= <-]. left. split; [|done].
        intros Hid%(deformed_axis_keys code). rewrite Hreg in Hid. by destruct Hid.
      * intros [[_ ->]|(the_axis & i & location & ? & _)]; done.
Qed.

End DeformationOutcomeTheorem.

(** ** The table of estimates *)

Section ObservableEstimates.
Import SimpleAnalysis.
Local Open Scope R_scope.

Context {params : Type} `{EqDecision params}.
Variable sort_keys : list (params * R) → list (params * R).

Implicit Types (self : t (params := params)) (row : estimates_row (params := params)).






(** pandas lists every group once: the sorted keys are a rearrangement of
    the keys. *)
Hypothesis sort_keys_permutation : ∀ keys, sort_keys keys ≡ₚ keys.


End ObservableEstimates.


(** ** Edge cases of the bootstrap *)

Section BootstrapEdges.
Import SimpleAnalysis.
Local Open Scope R_scope.

Context {params : Type} `{EqDecision params}.
Variables L_x L_y : params → R.
Context {RNG : Type}.
Variable default_rng : Z → RNG.
Variable rng_choice : RNG → list string → nat → Py.result (list string * RNG).
Variable sort_keys : list (params * R) → list (params * R).

Implicit Types (self : t (params := params)) (row : estimates_row (params := params)).

(** X16.  With [n_resamp = 0] nothing is resampled: whatever the generator
    does, [estimate_correlation_length] returns as soon as the two
    susceptibility columns exist, it keeps the rows, and it stores NaN as the
    uncertainty of every row (the standard deviation of no sample). *)
Theorem no_resampling self :
  (∀ row, row ∈ estimates self →
     is_Some (row_observables row !! "Susceptibility0")
     ∧ is_Some (row_observables row !! "Susceptibilitykmin")) →
  ∃ self',
    estimate_correlation_length L_x L_y default_rng rng_choice self 0 = Py.ok self'
    ∧ length (estimates self') = length (estimates self)
    ∧ ∀ row', row' ∈ estimates self' → CorrelationLength_uncertainty row' = Some None.
Proof.
  intros Hcolumns.
  assert (∀ k_min (g : RNG) i row k, k_min !! i = Some k →
            row_turn rng_choice self 0 k_min g (i, row) = Py.ok (None, g)) as Hturn.
  { intros k_min g i row k Hk. unfold row_turn, Py.getitem. rewrite Hk.
    cbn [seq collect]. unfold mbind, Py.result_bind, Py.bind, Py.ok. cbv beta iota.
    by rewrite std_nil. }
  destruct (estimate_correlation_length_succeeds L_x L_y default_rng rng_choice self 0)
    as [self' Hrun].
  - apply Forall_forall. intros row [[e0 H0] [ek Hk]]%Hcolumns.
    unfold point_estimate, estimate_column. by rewrite H0, Hk.
  - apply Forall_enumerate. intros i row Hi g. exists None, g.
    apply (Hturn _ _ _ _ (k_min_of L_x L_y row)). by rewrite list_lookup_fmap, Hi.
  - exists self'. split; [done|].
    destruct (estimate_correlation_length_rows L_x L_y default_rng rng_choice
                self 0 self' Hrun) as (_ & _ & _ & Hlen & Hrows).
    split; [done|]. intros row' [i Hi']%list_elem_of_lookup.
    destruct (lookup_lt_is_Some_2 (estimates self) i) as [row Hi].
    { rewrite <- Hlen. by eapply lookup_lt_Some. }
    destruct (Hrows i row Hi) as (point & unc & g & g' & _ & Hrow & Hset).
    rewrite (Hturn _ g i row (k_min_of L_x L_y row)) in Hrow
      by (by rewrite list_lookup_fmap, Hi).
    injection Hrow as <- _. rewrite Hi' in Hset. by injection Hset as ->.
Qed.

(** X17.  Where [estimate_correlation_length] raises [KeyError].  Run on
    the table of [estimate_observables], it raises [KeyError] for every
    [n_resamp] and every generator when [observable_names] lacks one of the
    two susceptibilities and there is at least one group: the point
    estimates are computed before anything is resampled.  And the bootstrap
    raises [KeyError] when a hash it has drawn has no result at the [tau] of
    the row: here for the first draw of the first row, which is made from
    the generator seeded with 0. *)
Theorem correlation_length_key_errors self (n_resamp : nat) :
  (("Susceptibility0" ∉ observable_names self
    ∨ "Susceptibilitykmin" ∉ observable_names self) →
   estimates (estimate_observables sort_keys self) ≠ [] →
   estimate_correlation_length L_x L_y default_rng rng_choice
     (estimate_observables sort_keys self) n_resamp
   = Py.raise Py.KeyError)
  ∧ (∀ row rest drawn (g' : RNG) h,
       estimates self = row :: rest →
       (∀ row', row' ∈ estimates self →
          is_Some (row_observables row' !! "Susceptibility0")
          ∧ is_Some (row_observables row' !! "Susceptibilitykmin")) →
       (0 < n_resamp)%nat →
       rng_choice (default_rng 0) (hashes_of self row) (length (hashes_of self row))
       = Py.ok (drawn, g') →
       h ∈ drawn →
       filter (λ r, res_hash r = h) (filtered_results_of self row) = [] →
       estimate_correlation_length L_x L_y default_rng rng_choice self n_resamp
       = Py.raise Py.KeyError).
Proof.
  split.
  - intros Hmissing Hrows. unfold estimate_correlation_length.
    destruct (estimates (estimate_observables sort_keys self)) as [|row rows] eqn:Hest;
      [done|].
    rewrite (mapM_raises _ Py.KeyError _ row); [done| |by left|].
    + intros y e'. apply point_estimate_raises.
    + assert (row ∈ estimates (estimate_observables sort_keys self)) as Hrow
        by (rewrite Hest; left).
      unfold estimate_observables in Hrow. cbn [estimates] in Hrow.
      apply list_elem_of_fmap in Hrow as (key & -> & _).
      unfold point_estimate, estimate_column. cbn [row_observables].
      destruct Hmissing as [Hno|Hno].
      * destruct (Py.dict_of_items _ !! "Susceptibility0") as [e|] eqn:He;
          [|by intros []].
        by apply dict_of_items_fmap_lookup in He as [_ ?].
      * destruct (Py.dict_of_items _ !! "Susceptibility0") as [e0|]; [|by intros []].
        destruct (Py.dict_of_items _ !! "Susceptibilitykmin") as [e|] eqn:He;
          [|by intros []].
        by apply dict_of_items_fmap_lookup in He as [_ ?].
  - intros row rest drawn g' h Hest Hcolumns Hn Hdraw Hh Hnone.
    by apply (first_draw_key_error L_x L_y default_rng rng_choice
                self n_resamp row rest drawn g' h).
Qed.

End BootstrapEdges.

Section BootstrapWitnesses.
Import SimpleAnalysis.
Local Open Scope R_scope.

Lemma no_resampling_witness :
  ∃ self',
    estimate_correlation_length Sample.L_x Sample.L_y Sample.default_rng
      Sample.rng_choice Sample.analysed 0
    = Py.ok self'
    ∧ length (estimates self') = 1%nat.
Proof.
  destruct (no_resampling Sample.L_x Sample.L_y Sample.default_rng Sample.rng_choice
              Sample.analysed) as (self' & Hrun & Hlen & _).
  - rewrite sample_estimates. intros row ->%list_elem_of_singleton.
    split; by eexists.
  - exists self'. split; [exact Hrun|]. by rewrite Hlen, sample_estimates.
Defined.

Lemma correlation_length_key_errors_witness :
  let self : t (params := Sample.params) :=
    {| observable_names := ["Energy"];
       results_df := Sample.results;
       inputs_df := Sample.inputs;
       estimates := [] |} in
  estimate_correlation_length Sample.L_x Sample.L_y Sample.default_rng
    Sample.rng_choice (estimate_observables Sample.sort_keys self) 100
  = Py.raise Py.KeyError.
Proof.
  intros self.
  apply (correlation_length_key_errors Sample.L_x Sample.L_y Sample.default_rng
           Sample.rng_choice Sample.sort_keys self 100).
  - left. by intros ?%list_elem_of_singleton.
  - unfold estimate_observables, Sample.sort_keys. cbn [estimates inputs_df results_df self].
    change (group_key <$> merge Sample.inputs Sample.results)
      with [((4, 4)%Z, 1) : Sample.params * R].
    done.
Defined.

End BootstrapWitnesses.
